(** * The shared API client of cloudflare-manager (the utilities module
    scripts/utils.js, found in src/scripts/secrets.js at lines 386-584),
    embedded in Rocq.

    The embedding follows the JavaScript source function by function:
    [CloudflareApiError.getUserMessage], [loadConfig], [makeApiRequest] and
    [makeApiRequestWithRetry].  What the runtime provides (the process
    environment, [fetch], [Response.json], [JSON.stringify],
    [URLSearchParams], [setTimeout], [console.error]) is either a parameter of
    the model or an entry of the event trace of a run.

    Numbers are JavaScript doubles in the source; they are integers ([Z]) here:
    status codes, attempt counters and millisecond delays are integral, and all
    arithmetic the client performs on them ([<=], [===], [Math.pow(2, _)],
    [Math.min]) is exact on integers of that size. *)

From Stdlib Require Import ZArith Lia Bool List.
From stdpp Require Import base option strings gmap list pretty.

Local Open Scope Z_scope.

(* ===================================================================== *)
(** ** JavaScript values                                                  *)
(* ===================================================================== *)

(** The line feed of the source's ['\n']. *)
Definition nl : string := String (Ascii.ascii_of_nat 10) EmptyString.

(** Plain data as [JSON.parse] produces it and as callers pass it for a
    request body. [undefined] is [None] of [option JSON]. *)
#[warnings="-register-all"]
Inductive JSON : Type :=
| JNull
| JBool (b : bool)
| JNumber (n : Z)
| JString (s : string)
| JArray (items : list JSON)
| JObject (members : list (string * JSON)).

(** ToBoolean: [undefined], [null], [false], [0] and the empty string are
    falsy; every array and object is truthy. *)
Definition truthy (v : option JSON) : bool :=
  match v with
  | None => false
  | Some JNull => false
  | Some (JBool b) => b
  | Some (JNumber n) => negb (n =? 0)
  | Some (JString s) => negb (String.eqb s EmptyString)
  | Some (JArray _) => true
  | Some (JObject _) => true
  end.

(* ===================================================================== *)
(** ** The response envelope and the error class                          *)
(* ===================================================================== *)

(** One entry of the envelope's [errors] array: [{code, message}]. *)
Module StructuredError.
Record t : Type := { code : Z; message : string }.
End StructuredError.

(** The decoded body [{ success, result, errors, ... }].  The members the
    client reads are typed as the API documents them; each is optional
    because the client guards against its absence ([!data.success],
    [data.errors || []]).  The remaining members are opaque to the client
    and kept as they were parsed. *)
Module Envelope.
Record t : Type := {
  success : option bool;
  errors : option (list StructuredError.t);
  result : option JSON;
  others : list (string * JSON)
}.
End Envelope.

(** [class CloudflareApiError extends Error] (secrets.js 391-455). *)
Module CloudflareApiError.
Record t : Type := {
  message : string;
  statusCode : Z;
  errors : list StructuredError.t
}.

(** [constructor(message, statusCode, errors)]: [this.errors = errors || []]. *)
Definition new (message : string) (statusCode : Z)
    (errors : option (list StructuredError.t)) : t :=
  {| message := message;
     statusCode := statusCode;
     errors := default [] errors |}.

(** The four fixed texts returned by [getUserMessage] (secrets.js 415-421,
    425-428, 432-435 and 439-442). *)
Definition authentication_guidance : string :=
  "Authentication failed. Your API key may be invalid or lack required permissions." +:+ nl +:+ nl +:+
  "Solutions:" +:+ nl +:+
  "1. Verify CLOUDFLARE_API_KEY in .env is correct" +:+ nl +:+
  "2. Run: node scripts/validate-api-key.js" +:+ nl +:+
  "3. Update token permissions at: https://dash.cloudflare.com/profile/api-tokens".

Definition rate_limit_guidance : string :=
  "Rate limit exceeded. Too many requests to Cloudflare API." +:+ nl +:+ nl +:+
  "Solution: Wait a moment and try again. The script will retry automatically.".

Definition not_found_guidance : string :=
  "Resource not found. The requested resource may not exist or may have been deleted." +:+ nl +:+ nl +:+
  "Solution: Verify the resource name/ID and try again.".

Definition server_error_guidance : string :=
  "Cloudflare API server error. This is a temporary issue on Cloudflare's side." +:+ nl +:+ nl +:+
  "Solution: Wait a moment and try again.".

(** [getUserMessage()] (secrets.js 413-454). *)
Definition getUserMessage (this : t) : string :=
  if (statusCode this =? 401) || (statusCode this =? 403) then
    authentication_guidance
  else if statusCode this =? 429 then
    rate_limit_guidance
  else if statusCode this =? 404 then
    not_found_guidance
  else if 500 <=? statusCode this then
    server_error_guidance
  else
    (* Default error message with API errors *)
    let msg := message this in
    if (0 <? length (errors this))%nat then
      fold_left
        (fun msg error => msg +:+ nl +:+ "  - " +:+ StructuredError.message error)
        (errors this)
        (msg +:+ nl +:+ nl +:+ "API Errors:")
    else msg.
End CloudflareApiError.

(** The values the client throws: a plain [Error] or a [CloudflareApiError];
    [error instanceof CloudflareApiError] is the test for the second. *)
Inductive js_error : Type :=
| Error (message : string)
| ApiError (e : CloudflareApiError.t).

(** A call either returns a value or throws. *)
Inductive outcome (A : Type) : Type :=
| Returned (a : A)
| Thrown (error : js_error).
Arguments Returned {A} a.
Arguments Thrown {A} error.

(* ===================================================================== *)
(** ** Configuration                                                      *)
(* ===================================================================== *)

Record Config : Type := {
  apiKey : string;
  accountId : option string;
  email : option string
}.

(** The double quote of the shell line quoted in the message below. *)
Definition dq : string := String (Ascii.ascii_of_nat 34) EmptyString.

Definition missing_key_message : string :=
  "CLOUDFLARE_API_KEY not found in environment" +:+ nl +:+ nl +:+
  "Solution: Create .env file in project root:" +:+ nl +:+
  "  echo " +:+ dq +:+ "CLOUDFLARE_API_KEY=your_token_here" +:+ dq +:+ " > .env" +:+ nl +:+ nl +:+
  "Get your API token at: https://dash.cloudflare.com/profile/api-tokens".

(** [loadConfig()] (secrets.js 460-477); [env] is [process.env], whose
    values are strings. [!apiKey] holds for [undefined] and for the empty
    string. *)
Definition loadConfig (env : gmap string string) : outcome Config :=
  let apiKey := env !! "CLOUDFLARE_API_KEY" in
  match apiKey with
  | None => Thrown (Error missing_key_message)
  | Some k =>
      if String.eqb k EmptyString then Thrown (Error missing_key_message)
      else Returned {| apiKey := k;
                       accountId := env !! "CLOUDFLARE_ACCOUNT_ID";
                       email := env !! "CLOUDFLARE_EMAIL" |}
  end.

(* ===================================================================== *)
(** ** Requests, responses and the world a run acts on                    *)
(* ===================================================================== *)

(** The [options] argument of [makeApiRequest]; an absent member is [None]
    and takes the default of the destructuring
    [{ method = 'GET', body, headers = {}, queryParams = {} }]. *)
Module Options.
Record t : Type := {
  method : option string;
  body : option JSON;
  headers : option (gmap string string);
  queryParams : option (list (string * string))
}.

(** [options = {}] *)
Definition empty : t :=
  {| method := None; body := None; headers := None; queryParams := None |}.
End Options.

(** The second argument of [fetch]; [body] is [None] when the member was
    never assigned. *)
Module RequestInit.
Record t : Type := {
  method : string;
  headers : gmap string string;
  body : option string
}.
End RequestInit.

(** What [await response.json()] gives: the decoded body, or a [SyntaxError]
    when the body is not JSON. *)
Inductive json_result : Type :=
| Parsed (data : Envelope.t)
| SyntaxError (message : string).

Module Response.
Record t : Type := {
  status : Z;
  statusText : string;
  json : json_result
}.

(** [response.ok]: the Fetch standard defines it as a status in the range
    200 to 299. *)
Definition ok (response : t) : bool :=
  (200 <=? status response) && (status response <=? 299).
End Response.

(** What [await fetch(url, requestOptions)] gives: a response, or a
    rejection (DNS, connection, ...) with the message of the error thrown. *)
Inductive fetch_result : Type :=
| Resolved (response : Response.t)
| Rejected (message : string).

(** The observable effects of a run, in the order they happen. *)
Inductive event : Type :=
| Fetch (url : string) (requestOptions : RequestInit.t)
| ConsoleError (line : string)
| Sleep (ms : Z).

(** The state a run threads: [calls] counts the invocations of
    [makeApiRequest] so far (a ghost counter: the source keeps no such
    variable), [trace] lists the effects so far, oldest first. *)
Record world : Type := {
  calls : nat;
  trace : list event
}.

Definition initial_world : world := {| calls := 0; trace := [] |}.

Definition emit (e : event) (w : world) : world :=
  {| calls := calls w; trace := trace w ++ [e] |}.

(** [console.error(line)] *)
Definition console_error (line : string) (w : world) : world :=
  emit (ConsoleError line) w.

(** [await sleep(ms)] (secrets.js 546-548): the run is suspended for [ms]
    milliseconds. *)
Definition sleep (ms : Z) (w : world) : world :=
  emit (Sleep ms) w.

(** The waits of a trace, oldest first. *)
Definition sleeps (tr : list event) : list Z :=
  omap (fun e => match e with Sleep ms => Some ms | _ => None end) tr.

(** The HTTP calls of a trace, oldest first. *)
Definition fetches (tr : list event) : list (string * RequestInit.t) :=
  omap (fun e => match e with Fetch u r => Some (u, r) | _ => None end) tr.

(** What a run shows from outside: how it ended, how many calls it made,
    the waits it took and the number of HTTP calls it issued. *)
Definition summary (run : option (outcome Envelope.t * world))
    : option (outcome Envelope.t * nat * list Z * nat) :=
  match run with
  | Some (r, w) => Some (r, calls w, sleeps (trace w), length (fetches (trace w)))
  | None => None
  end.

Definition CLOUDFLARE_API_BASE : string := "https://api.cloudflare.com/client/v4".

(** The members [maxAttempts], [baseDelay] and [maxDelay] of [retryOptions];
    an absent member is [None]. *)
Module RetryOptions.
Record t : Type := {
  maxAttempts : option Z;
  baseDelay : option Z;
  maxDelay : option Z
}.

(** [retryOptions = {}] *)
Definition empty : t :=
  {| maxAttempts := None; baseDelay := None; maxDelay := None |}.
End RetryOptions.

(** [Math.min(baseDelay * Math.pow(2, attempt - 1), maxDelay)] (secrets.js 577). *)
Definition backoff_delay (baseDelay maxDelay attempt : Z) : Z :=
  Z.min (baseDelay * 2 ^ (attempt - 1)) maxDelay.

(** The line written to the standard error before a wait (secrets.js 578). *)
Definition retry_notice (attempt maxAttempts delay : Z) : string :=
  "Request failed (attempt " +:+ pretty attempt +:+ "/" +:+ pretty maxAttempts +:+
  "), retrying in " +:+ pretty delay +:+ "ms...".

(** The test of secrets.js 565-569: a [CloudflareApiError] whose status is a
    client error other than 429. *)
Definition is_client_error (error : js_error) : bool :=
  match error with
  | ApiError e =>
      (400 <=? CloudflareApiError.statusCode e)
      && (CloudflareApiError.statusCode e <? 500)
      && negb (CloudflareApiError.statusCode e =? 429)
  | Error _ => false
  end.

(** [s.includes(sub)] *)
Fixpoint includes (sub s : string) : bool :=
  String.prefix sub s
  || match s with
     | EmptyString => false
     | String _ s' => includes sub s'
     end.

(** The waits of [k] consecutive retries, the first of them after the
    attempt numbered [attempt]. *)
Fixpoint backoff_delays (baseDelay maxDelay : Z) (k : nat) (attempt : Z) : list Z :=
  match k with
  | O => []
  | S k => backoff_delay baseDelay maxDelay attempt
           :: backoff_delays baseDelay maxDelay k (attempt + 1)
  end.

(* ===================================================================== *)
(** ** Regular expressions and the validators of names                    *)
(* ===================================================================== *)

(** Character literals. *)
Import Stdlib.Strings.Ascii.

(** The regular expressions of the source, as terms. Each of them stands
    between [^] and [$] and has no flag, so [test] asks whether the whole
    string is in the language of the expression; it is computed here by
    derivatives. *)
Module Regex.
Inductive t : Type :=
| Never                               (* no string at all *)
| Empty                               (* the empty string *)
| Class (accepts : Ascii.ascii -> bool)     (* [ ... ] *)
| Seq (r1 r2 : t)                     (* r1 r2 *)
| Alt (r1 r2 : t)                     (* r1 | r2 *)
| Star (r : t).                       (* r* *)

(** [r+] *)
Definition Plus (r : t) : t := Seq r (Star r).

Fixpoint nullable (r : t) : bool :=
  match r with
  | Never => false
  | Empty => true
  | Class _ => false
  | Seq r1 r2 => nullable r1 && nullable r2
  | Alt r1 r2 => nullable r1 || nullable r2
  | Star _ => true
  end.

Fixpoint derive (c : Ascii.ascii) (r : t) : t :=
  match r with
  | Never => Never
  | Empty => Never
  | Class accepts => if accepts c then Empty else Never
  | Seq r1 r2 =>
      if nullable r1 then Alt (Seq (derive c r1) r2) (derive c r2)
      else Seq (derive c r1) r2
  | Alt r1 r2 => Alt (derive c r1) (derive c r2)
  | Star r => Seq (derive c r) (Star r)
  end.

(** [/^r$/.test(s)] *)
Fixpoint test (r : t) (s : string) : bool :=
  match s with
  | EmptyString => nullable r
  | String c s => test (derive c r) s
  end.

(** The language of an expression. *)
Inductive lang : t -> string -> Prop :=
| lang_empty : lang Empty EmptyString
| lang_class accepts c :
    accepts c = true -> lang (Class accepts) (String c EmptyString)
| lang_seq r1 r2 s1 s2 :
    lang r1 s1 -> lang r2 s2 -> lang (Seq r1 r2) (s1 +:+ s2)
| lang_alt_l r1 r2 s : lang r1 s -> lang (Alt r1 r2) s
| lang_alt_r r1 r2 s : lang r2 s -> lang (Alt r1 r2) s
| lang_star_nil r : lang (Star r) EmptyString
| lang_star_app r s1 s2 :
    lang r s1 -> lang (Star r) s2 -> lang (Star r) (s1 +:+ s2).
End Regex.

(** [lo-hi] inside a class. *)
Definition between (lo hi c : Ascii.ascii) : bool :=
  (Ascii.nat_of_ascii lo <=? Ascii.nat_of_ascii c)%nat
  && (Ascii.nat_of_ascii c <=? Ascii.nat_of_ascii hi)%nat.

(** [[a-zA-Z0-9_-]] *)
Definition name_char (c : Ascii.ascii) : bool :=
  between "a"%char "z"%char c || between "A"%char "Z"%char c || between "0"%char "9"%char c
  || Ascii.eqb c "_"%char || Ascii.eqb c "-"%char.

(** [[a-z0-9]] and [[a-z0-9-]] *)
Definition bucket_end_char (c : Ascii.ascii) : bool :=
  between "a"%char "z"%char c || between "0"%char "9"%char c.
Definition bucket_char (c : Ascii.ascii) : bool :=
  between "a"%char "z"%char c || between "0"%char "9"%char c || Ascii.eqb c "-"%char.

(** [[A-Za-z_]] and [[A-Za-z0-9_]] *)
Definition secret_start_char (c : Ascii.ascii) : bool :=
  between "A"%char "Z"%char c || between "a"%char "z"%char c || Ascii.eqb c "_"%char.
Definition secret_char (c : Ascii.ascii) : bool :=
  between "A"%char "Z"%char c || between "a"%char "z"%char c || between "0"%char "9"%char c || Ascii.eqb c "_"%char.

(** [/^[a-zA-Z0-9_-]+$/] (secrets.js 658 and 671) *)
Definition name_pattern : Regex.t := Regex.Plus (Regex.Class name_char).

(** [/^[a-z0-9][a-z0-9-]*[a-z0-9]$/] (secrets.js 684) *)
Definition bucket_pattern : Regex.t :=
  Regex.Seq (Regex.Class bucket_end_char)
    (Regex.Seq (Regex.Star (Regex.Class bucket_char)) (Regex.Class bucket_end_char)).

(** [/^[A-Za-z_][A-Za-z0-9_]*$/] (secrets.js 219) *)
Definition secret_pattern : Regex.t :=
  Regex.Seq (Regex.Class secret_start_char) (Regex.Star (Regex.Class secret_char)).

(** [validateWorkerName(name)] (secrets.js 657-665) *)
Definition validateWorkerName (name : string) : outcome unit :=
  if negb (Regex.test name_pattern name) then
    Thrown (Error (
      "Invalid worker name: " +:+ dq +:+ name +:+ dq +:+ nl +:+ nl +:+
      "Worker names must contain only alphanumeric characters, hyphens, and underscores." +:+ nl +:+
      "Example: " +:+ dq +:+ "my-worker" +:+ dq +:+ " or " +:+ dq +:+ "api_handler_v2" +:+ dq))
  else Returned tt.

(** [validateNamespaceName(name)] (secrets.js 670-678) *)
Definition validateNamespaceName (name : string) : outcome unit :=
  if negb (Regex.test name_pattern name) then
    Thrown (Error (
      "Invalid namespace name: " +:+ dq +:+ name +:+ dq +:+ nl +:+ nl +:+
      "Namespace names must contain only alphanumeric characters, hyphens, and underscores." +:+ nl +:+
      "Example: " +:+ dq +:+ "user-sessions" +:+ dq +:+ " or " +:+ dq +:+ "cache_store" +:+ dq))
  else Returned tt.

(** [validateBucketName(name)] (secrets.js 683-694). [name.length] counts
    UTF-16 units; it is read only when the pattern matched, and then the
    name is ASCII and has one unit per character. *)
Definition validateBucketName (name : string) : outcome unit :=
  if negb (Regex.test bucket_pattern name)
     || (String.length name <? 3)%nat
     || (63 <? String.length name)%nat then
    Thrown (Error (
      "Invalid bucket name: " +:+ dq +:+ name +:+ dq +:+ nl +:+ nl +:+
      "Bucket names must:" +:+ nl +:+
      "- Be 3-63 characters long" +:+ nl +:+
      "- Contain only lowercase letters, numbers, and hyphens" +:+ nl +:+
      "- Start and end with a letter or number" +:+ nl +:+
      "Example: " +:+ dq +:+ "my-bucket" +:+ dq +:+ " or " +:+ dq +:+ "media-assets-2024" +:+ dq))
  else Returned tt.

(** [validateSecretName(name)] (secrets.js 217-228) *)
Definition validateSecretName (name : string) : outcome unit :=
  if negb (Regex.test secret_pattern name) then
    Thrown (Error (
      "Invalid secret name: " +:+ dq +:+ name +:+ dq +:+ nl +:+ nl +:+
      "Secret names must:" +:+ nl +:+
      "- Start with a letter or underscore" +:+ nl +:+
      "- Contain only letters, numbers, and underscores" +:+ nl +:+
      "Example: " +:+ dq +:+ "API_KEY" +:+ dq +:+ " or " +:+ dq +:+ "DATABASE_URL" +:+ dq))
  else Returned tt.

(** Every character of a string passes a test. *)
Fixpoint all_chars (accepts : Ascii.ascii -> bool) (s : string) : bool :=
  match s with
  | EmptyString => true
  | String c s => accepts c && all_chars accepts s
  end.

(* ===================================================================== *)
(** ** The arguments of the command line                                  *)
(* ===================================================================== *)

(** What [parseArgs] stores for a flag: [true], or the argument after it. *)
Inductive flag_value : Type :=
| FlagOn
| FlagValue (value : string).

(** [s.slice(n)] for [n] within the string. *)
Fixpoint slice_from (n : nat) (s : string) : string :=
  match n, s with
  | O, _ => s
  | S n, String _ s => slice_from n s
  | S _, EmptyString => EmptyString
  end.

(** [flags[flagName] = value] on the object [{}]: it makes a property of the
    object, but for the name [__proto__], which is the accessor of
    [Object.prototype]: given a string or [true], the accessor does
    nothing. *)
Definition set_flag (flagName : string) (value : flag_value)
    (flags : gmap string flag_value) : gmap string flag_value :=
  if String.eqb flagName "__proto__" then flags else <[flagName := value]> flags.

(** The loop of secrets.js 704-726 on the arguments from [argv[i]] on. The
    entries of [process.argv] are strings. *)
Fixpoint parse_rest (rest : list string) (args : list string)
    (flags : gmap string flag_value) : list string * gmap string flag_value :=
  match rest with
  | [] => (args, flags)
  | arg :: rest =>
      if String.prefix "--" arg then
        (* Long flag *)
        let flagName := slice_from 2 arg in
        match rest with
        | nextArg :: rest' =>
            if negb (String.eqb nextArg EmptyString)
               && negb (String.prefix "-" nextArg) then
              parse_rest rest' args (set_flag flagName (FlagValue nextArg) flags)
            else parse_rest rest args (set_flag flagName FlagOn flags)
        | [] => parse_rest rest args (set_flag flagName FlagOn flags)
        end
      else if String.prefix "-" arg then
        (* Short flag *)
        let flagName := slice_from 1 arg in
        parse_rest rest args (set_flag flagName FlagOn flags)
      else
        (* Positional argument *)
        parse_rest rest (args ++ [arg]) flags
  end.

(** The name an argument that starts with a dash gives its flag. *)
Definition flag_name_of (arg : string) : string :=
  if String.prefix "--" arg then slice_from 2 arg else slice_from 1 arg.

Module ParsedArgs.
Record t : Type := {
  command : option string;
  args : list string;
  flags : gmap string flag_value
}.
End ParsedArgs.

(** [parseArgs(argv)] (secrets.js 699-729) *)
Definition parseArgs (argv : list string) : ParsedArgs.t :=
  let command := argv !! 2%nat in
  let parsed := parse_rest (drop 3 argv) [] ∅ in
  {| ParsedArgs.command := command;
     ParsedArgs.args := fst parsed;
     ParsedArgs.flags := snd parsed |}.

(* ===================================================================== *)
(** ** The environment file                                               *)
(* ===================================================================== *)

(** Text is held as its UTF-8 bytes. The functions below cut a string only
    next to ASCII characters (a line feed, [=], [#], a quote) and compare
    only with ASCII, so they cut and compare the bytes as JavaScript cuts
    and compares the UTF-16 units; [trim] is the one that knows characters
    outside ASCII, the white space of ECMAScript, and takes them by their
    UTF-8 form. The files read are taken to be valid UTF-8 with no NUL. *)

(** TAB, LF, VT, FF, CR and the space. *)
Definition ascii_space (c : ascii) : bool :=
  let n := nat_of_ascii c in
  ((9 <=? n) && (n <=? 13))%nat || (n =? 32)%nat.


(** U+00A0 in two bytes. *)
Definition space_of_two (c1 c2 : ascii) : bool :=
  (nat_of_ascii c1 =? 194)%nat && (nat_of_ascii c2 =? 160)%nat.

(** U+1680, U+2000 to U+200A, U+2028, U+2029, U+202F, U+205F, U+3000 and
    U+FEFF in three bytes. *)
Definition space_of_three (c1 c2 c3 : ascii) : bool :=
  let n1 := nat_of_ascii c1 in
  let n2 := nat_of_ascii c2 in
  let n3 := nat_of_ascii c3 in
  ((n1 =? 225) && (n2 =? 154) && (n3 =? 128)
   || (n1 =? 226) && (n2 =? 128)
      && ((128 <=? n3) && (n3 <=? 138) || (n3 =? 168) || (n3 =? 169) || (n3 =? 175))
   || (n1 =? 226) && (n2 =? 129) && (n3 =? 159)
   || (n1 =? 227) && (n2 =? 128) && (n3 =? 128)
   || (n1 =? 239) && (n2 =? 187) && (n3 =? 191))%nat.

(** [s.trimStart()] *)
Fixpoint trimStart (s : string) : string :=
  match s with
  | EmptyString => s
  | String c1 s1 =>
      if ascii_space c1 then trimStart s1
      else
        match s1 with
        | EmptyString => s
        | String c2 s2 =>
            if space_of_two c1 c2 then trimStart s2
            else
              match s2 with
              | EmptyString => s
              | String c3 s3 =>
                  if space_of_three c1 c2 c3 then trimStart s3 else s
              end
        end
  end.

(** The same from the end, on the characters in reverse. *)
Fixpoint trimStart_reversed (s : list ascii) : list ascii :=
  match s with
  | [] => s
  | c1 :: s1 =>
      if ascii_space c1 then trimStart_reversed s1
      else
        match s1 with
        | [] => s
        | c2 :: s2 =>
            if space_of_two c2 c1 then trimStart_reversed s2
            else
              match s2 with
              | [] => s
              | c3 :: s3 =>
                  if space_of_three c3 c2 c1 then trimStart_reversed s3 else s
              end
        end
  end.

(** [s.trimEnd()] *)
Definition trimEnd (s : string) : string :=
  String.string_of_list_ascii
    (rev (trimStart_reversed (rev (String.list_ascii_of_string s)))).

(** [s.trim()] *)
Definition trim (s : string) : string := trimEnd (trimStart s).

(** [content.split('\n')] *)
Fixpoint split_lines (content : string) : list string :=
  match content with
  | EmptyString => [EmptyString]
  | String c content =>
      if Ascii.eqb c "010"%char then EmptyString :: split_lines content
      else
        match split_lines content with
        | line :: lines => String c line :: lines
        | [] => [String c EmptyString]
        end
  end.

(** [s.indexOf(c)], [None] for -1. *)
Fixpoint indexOf (c : ascii) (s : string) : option nat :=
  match s with
  | EmptyString => None
  | String c' s => if Ascii.eqb c' c then Some O else S <$> indexOf c s
  end.

(** [s.slice(0, n)] for [n] within the string. *)
Fixpoint slice_to (n : nat) (s : string) : string :=
  match n, s with
  | S n, String c s => String c (slice_to n s)
  | _, _ => EmptyString
  end.

(** [s.endsWith(c)] *)
Fixpoint endsWith (c : ascii) (s : string) : bool :=
  match s with
  | EmptyString => false
  | String c' EmptyString => Ascii.eqb c' c
  | String _ s => endsWith c s
  end.

(** [s.slice(0, -1)] *)
Fixpoint without_last (s : string) : string :=
  match s with
  | EmptyString => EmptyString
  | String _ EmptyString => EmptyString
  | String c s => String c (without_last s)
  end.

(** The single quote. *)
Definition sq : string := String "039"%char EmptyString.

(** One turn of the loop of [loadEnvFile] up to the assignment (secrets.js
    352-370): the key and the value of a line, or [None] for a line the
    loop skips. *)
Definition parse_env_line (line : string) : option (string * string) :=
  (* Skip empty lines and comments *)
  let trimmed := trim line in
  if String.eqb trimmed EmptyString || String.prefix "#" trimmed then None
  else
    (* Find the first = sign *)
    match indexOf "="%char trimmed with
    | None => None
    | Some eqIndex =>
        let key := trim (slice_to eqIndex trimmed) in
        let value := trim (slice_from (S eqIndex) trimmed) in
        (* Remove surrounding quotes if present *)
        let value :=
          if String.prefix dq value && endsWith "034"%char value
             || String.prefix sq value && endsWith "039"%char value
          then without_last (slice_from 1 value)
          else value in
        Some (key, value)
    end.

(** [process.env[key] = value]: the name and the value go to [setenv],
    which refuses the empty name, and Node does not report the refusal. *)
Definition env_assign (key value : string) (env : gmap string string)
    : gmap string string :=
  if String.eqb key EmptyString then env else <[key := value]> env.

(** The whole turn (secrets.js 351-376): only set if not already defined. *)
Definition load_env_line (env : gmap string string) (line : string)
    : gmap string string :=
  match parse_env_line line with
  | None => env
  | Some (key, value) =>
      match env !! key with
      | None => env_assign key value env
      | Some _ => env
      end
  end.

(** The loop over the lines of a file that was read. *)
Definition load_env_content (content : string) (env : gmap string string)
    : gmap string string :=
  fold_left load_env_line (split_lines content) env.

(** [loadEnvFile(filePath)] (secrets.js 342-380). [read] is the file
    system: [None] for a path where [existsSync] is false or [readFileSync]
    throws, and both leave the environment as it was. *)
Definition loadEnvFile (read : string -> option string) (filePath : string)
    (env : gmap string string) : gmap string string :=
  match read filePath with
  | None => env
  | Some content => load_env_content content env
  end.


(** The value a file gives a name: that of the first line that sets it. *)
Fixpoint first_assignment (lines : list string) (name : string) : option string :=
  match lines with
  | [] => None
  | line :: lines =>
      match parse_env_line line with
      | Some (key, value) =>
          if String.eqb key name then Some value else first_assignment lines name
      | None => first_assignment lines name
      end
  end.

(* ===================================================================== *)
(** ** The callers of the client                                          *)
(* ===================================================================== *)

(** What a command acts on: the world of the client, and the lines it
    writes to the standard output with [console.log], oldest first. (The
    lines written with [console.error] are events of the trace; the order
    between the two streams is not kept.) *)
Record session : Type := {
  core : world;
  stdout : list string
}.

Definition initial_session : session := {| core := initial_world; stdout := [] |}.

(** [console.log(line)] *)
Definition console_log (line : string) (s : session) : session :=
  {| core := core s; stdout := stdout s ++ [line] |}.

(** [printInfo], [printSuccess] and [printError] (secrets.js 734-750). *)
Definition printInfo (message : string) (s : session) : session :=
  console_log (nl +:+ "ℹ️  " +:+ message +:+ nl) s.
Definition printSuccess (message : string) (s : session) : session :=
  console_log (nl +:+ "✅ " +:+ message +:+ nl) s.
Definition printError (message : string) (s : session) : session :=
  {| core := console_error (nl +:+ "❌ " +:+ message +:+ nl) (core s);
     stdout := stdout s |}.

(** [error.message] *)
Definition error_message (error : js_error) : string :=
  match error with
  | Error message => message
  | ApiError e => CloudflareApiError.message e
  end.

(** The property [key] of an object that [JSON.parse] made: the last member
    of that name. *)
Fixpoint member (key : string) (members : list (string * JSON)) : option JSON :=
  match members with
  | [] => None
  | (k, v) :: members =>
      match member key members with
      | Some later => Some later
      | None => if String.eqb k key then Some v else None
      end
  end.

(** [v.length === 0] for a truthy [v]: the length of an array or of a
    string, the member of that name of an object, [undefined] otherwise. *)
Definition length_is_zero (v : JSON) : bool :=
  match v with
  | JArray [] => true
  | JString EmptyString => true
  | JObject members =>
      match member "length" members with
      | Some (JNumber 0) => true
      | _ => false
      end
  | _ => false
  end.

(** [v[0]]: the first entry of an array, the first unit of a string (a
    string of its own, of which nothing is read below), the member [0] of
    an object, [undefined] otherwise. *)
Definition first_entry (v : JSON) : option JSON :=
  match v with
  | JArray items => items !! 0%nat
  | JString (String c _) => Some (JString (String c EmptyString))
  | JObject members => member "0" members
  | _ => None
  end.

(** [base.id] and [base.name]: a [TypeError] on [undefined] and on [null]
    (with the message of V8), the member of an object, and [undefined] on
    anything else, whose prototypes have neither name. *)
Definition read_property (base : option JSON) (key : string)
    : outcome (option JSON) :=
  match base with
  | None =>
      Thrown (Error ("Cannot read properties of undefined (reading '" +:+ key +:+ "')"))
  | Some JNull =>
      Thrown (Error ("Cannot read properties of null (reading '" +:+ key +:+ "')"))
  | Some (JObject members) => Returned (member key members)
  | Some _ => Returned None
  end.

(** The message of the error [getAccountId] throws (secrets.js 609-614). *)
Definition auto_detect_failure (message : string) : string :=
  "Failed to auto-detect account ID." +:+ nl +:+ nl +:+
  "Solution: Add CLOUDFLARE_ACCOUNT_ID to your .env file:" +:+ nl +:+
  "  CLOUDFLARE_ACCOUNT_ID=your_account_id_here" +:+ nl +:+ nl +:+
  "Error: " +:+ message.

(** A command of the tool: it acts on the session and returns or throws;
    [None] is a run cut short by the fuel of a retry loop. *)
Definition command (A : Type) : Type := session -> option (outcome A * session).

Definition cmd_ret {A} (a : A) : command A := fun s => Some (Returned a, s).

Definition cmd_bind {A B} (c : command A) (k : A -> command B) : command B :=
  fun s =>
    match c s with
    | None => None
    | Some (Returned a, s) => k a s
    | Some (Thrown error, s) => Some (Thrown error, s)
    end.

(** [try { body } catch (error) { handler }] *)
Definition cmd_catch {A} (body : command A) (handler : js_error -> command A)
    : command A :=
  fun s =>
    match body s with
    | None => None
    | Some (Returned a, s) => Some (Returned a, s)
    | Some (Thrown error, s) => handler error s
    end.

(** A computation that leaves the session alone. *)
Definition evaluate {A} (r : outcome A) : command A := fun s => Some (r, s).

(** A statement that only writes. *)
Definition say (print : session -> session) : command unit :=
  fun s => Some (Returned tt, print s).

(** A call of the client. *)
Definition on_core {A} (f : world -> option (outcome A * world)) : command A :=
  fun s =>
    match f (core s) with
    | None => None
    | Some (r, w) => Some (r, {| core := w; stdout := stdout s |})
    end.

(** A step that cannot be cut short. *)
Definition total {A} (f : session -> outcome A * session) : command A :=
  fun s => Some (f s).

#[global] Instance command_ret : MRet command := @cmd_ret.
#[global] Instance command_bind : MBind command := fun A B k c => cmd_bind c k.

(** [`/accounts/${accountId}/workers/scripts/${workerName}/secrets`] *)
Definition secrets_endpoint (accountId workerName : string) : string :=
  "/accounts/" +:+ accountId +:+ "/workers/scripts/" +:+ workerName +:+ "/secrets".

(** The body of the request that sets a secret (secrets.js 95-99, 178-182). *)
Definition secret_body (name text : string) : JSON :=
  JObject [("name", JString name); ("text", JString text);
           ("type", JString "secret_text")].

Definition put_options (name text : string) : Options.t :=
  {| Options.method := Some "PUT";
     Options.body := Some (secret_body name text);
     Options.headers := None;
     Options.queryParams := None |}.

Definition delete_options : Options.t :=
  {| Options.method := Some "DELETE";
     Options.body := None;
     Options.headers := None;
     Options.queryParams := None |}.

(** The [catch] block of [putSecret] (secrets.js 108-121). *)
Definition putSecret_failed (workerName : string) (error : js_error)
    (s : session) : session :=
  match error with
  | ApiError e =>
      if CloudflareApiError.statusCode e =? 404 then
        printInfo ("Deploy the worker first using " +:+ dq +:+
                   "node scripts/workers.js deploy" +:+ dq)
          (printError ("Worker " +:+ dq +:+ workerName +:+ dq +:+ " not found.") s)
      else
        printError (CloudflareApiError.getUserMessage e)
          (printError "Failed to set secret" s)
  | Error message => printError ("Error: " +:+ message) s
  end.

(** The [catch] block of [deleteSecret] (secrets.js 147-158). *)
Definition deleteSecret_failed (workerName secretName : string) (error : js_error)
    (s : session) : session :=
  match error with
  | ApiError e =>
      if CloudflareApiError.statusCode e =? 404 then
        printError ("Secret " +:+ dq +:+ secretName +:+ dq +:+ " not found in worker " +:+
                    dq +:+ workerName +:+ dq +:+ ".") s
      else
        printError (CloudflareApiError.getUserMessage e)
          (printError "Failed to delete secret" s)
  | Error message => printError ("Error: " +:+ message) s
  end.

(** The outer [catch] block of [bulkPutSecrets] (secrets.js 203-210). *)
Definition bulkPutSecrets_failed (error : js_error) (s : session) : session :=
  match error with
  | ApiError e =>
      printError (CloudflareApiError.getUserMessage e) (printError "Bulk set failed" s)
  | Error message => printError ("Error: " +:+ message) s
  end.

(** [{ successCount, failCount }] *)
Record BulkResult : Type := {
  successCount : Z;
  failCount : Z
}.

(** The time a list of waits adds up to, in milliseconds. *)
Definition total_wait (waits : list Z) : Z := foldr Z.add 0 waits.

(** The cost of a stretch of a run: at most [n] more calls of
    [makeApiRequest] and [ms] more milliseconds of waiting. *)
Definition within (n : nat) (ms : Z) (s s' : session) : Prop :=
  (calls (core s') <= calls (core s) + n)%nat
  /\ total_wait (sleeps (trace (core s')))
     <= total_wait (sleeps (trace (core s))) + ms.

(** A command that always ends, at that cost, in a way that [Q] holds of. *)
Definition ends {A} (n : nat) (ms : Z) (Q : outcome A -> Prop) (c : command A)
    : Prop :=
  forall s, exists r s', c s = Some (r, s') /\ Q r /\ within n ms s s'.

Definition returns {A} (r : outcome A) : Prop :=
  match r with
  | Returned _ => True
  | Thrown _ => False
  end.

(* ===================================================================== *)
(** ** Scenarios                                                          *)
(* ===================================================================== *)

(** Concrete environments, responses and networks for the examples at the
    end of the file. *)
Module Scenario.

(** An environment with the key set. *)
Definition env : gmap string string := {[ "CLOUDFLARE_API_KEY" := "token" ]}.

(** A network that gives the same answer to every call. *)
Definition always (answer : fetch_result)
    : nat -> string -> RequestInit.t -> fetch_result :=
  fun _ _ _ => answer.

(** A network that answers the [n]-th call with the [n]-th entry of the
    script, and refuses the connection once the script is over. *)
Definition script (answers : list fetch_result)
    : nat -> string -> RequestInit.t -> fetch_result :=
  fun n _ _ => default (Rejected "connect ECONNREFUSED") (answers !! n).

(** [URLSearchParams] on parameters that need no escaping: [k=v] joined by
    an ampersand. *)
Definition query_string (params : list (string * string)) : string :=
  String.concat "&" (map (fun p => fst p +:+ "=" +:+ snd p) params).

(** [JSON.stringify] on values whose strings need no escaping. *)
Fixpoint stringify (v : JSON) : string :=
  match v with
  | JNull => "null"
  | JBool true => "true"
  | JBool false => "false"
  | JNumber n => pretty n
  | JString s => dq +:+ s +:+ dq
  | JArray items => "[" +:+ String.concat "," (map stringify items) +:+ "]"
  | JObject members =>
      "{" +:+ String.concat ","
                (map (fun member =>
                        dq +:+ fst member +:+ dq +:+ ":" +:+ stringify (snd member))
                     members) +:+ "}"
  end.

Definition respond (status : Z) (statusText : string) (data : Envelope.t)
    : fetch_result :=
  Resolved {| Response.status := status;
              Response.statusText := statusText;
              Response.json := Parsed data |}.

(** [{success: true, result: [{id: 'z1'}]}] *)
Definition zones : Envelope.t :=
  {| Envelope.success := Some true;
     Envelope.errors := None;
     Envelope.result := Some (JArray [JObject [("id", JString "z1")]]);
     Envelope.others := [] |}.

(** [{success: true, result: []}] *)
Definition no_zones : Envelope.t :=
  {| Envelope.success := Some true;
     Envelope.errors := None;
     Envelope.result := Some (JArray []);
     Envelope.others := [] |}.

(** [{success: false, errors: [{code, message}]}] *)
Definition failure (code : Z) (message : string) : Envelope.t :=
  {| Envelope.success := Some false;
     Envelope.errors := Some [{| StructuredError.code := code;
                                 StructuredError.message := message |}];
     Envelope.result := None;
     Envelope.others := [] |}.

(** [{success: false}] and nothing else. *)
Definition bare_failure : Envelope.t :=
  {| Envelope.success := Some false;
     Envelope.errors := None;
     Envelope.result := None;
     Envelope.others := [] |}.

(** A gateway answers 502 with an HTML page: the body is not JSON. *)
Definition bad_gateway_page : Response.t :=
  {| Response.status := 502;
     Response.statusText := "Bad Gateway";
     Response.json := SyntaxError "Unexpected token < in JSON at position 0" |}.

End Scenario.

(** Concrete runs of the commands on secrets. *)
Module SecretsScenario.

(** An environment with the key and the account set. *)
Definition env : gmap string string :=
  <["CLOUDFLARE_ACCOUNT_ID" := "acc1"]> Scenario.env.

(** [ToString] on parsed data: an array joins its members with commas,
    [null] among them as the empty string; an object without a member
    [toString] is [[object Object]], and one with it cannot be converted. *)
Fixpoint to_string (v : JSON) : outcome string :=
  match v with
  | JNull => Returned "null"
  | JBool b => Returned (if b then "true" else "false")
  | JNumber n => Returned (pretty n)
  | JString text => Returned text
  | JArray items =>
      (fix join (items : list JSON) : outcome string :=
         match items with
         | [] => Returned EmptyString
         | item :: items =>
             match (match item with
                    | JNull => Returned EmptyString
                    | _ => to_string item
                    end) with
             | Thrown error => Thrown error
             | Returned head =>
                 match items with
                 | [] => Returned head
                 | _ :: _ =>
                     match join items with
                     | Thrown error => Thrown error
                     | Returned tail => Returned (head +:+ "," +:+ tail)
                     end
                 end
             end
         end) items
  | JObject members =>
      match member "toString" members with
      | Some _ => Thrown (Error "Cannot convert object to primitive value")
      | None => Returned "[object Object]"
      end
  end.

Definition ToString (v : option JSON) : outcome string :=
  match v with
  | None => Returned "undefined"
  | Some v => to_string v
  end.

(** [{success: true, result: [{id: 'a1', name: 'Main'}, {id: 'a2', name: 'Other'}]}] *)
Definition accounts : Envelope.t :=
  {| Envelope.success := Some true;
     Envelope.errors := None;
     Envelope.result :=
       Some (JArray [JObject [("id", JString "a1"); ("name", JString "Main")];
                     JObject [("id", JString "a2"); ("name", JString "Other")]]);
     Envelope.others := [] |}.

End SecretsScenario.

Section Client.

(** The process environment, read by [loadConfig] on every request. *)
Context (env : gmap string string).

(** The network: what the [fetch] issued by the [n]-th invocation of
    [makeApiRequest] (counting from 0) answers to the given request. *)
Context (network : nat -> string -> RequestInit.t -> fetch_result).

(** [new URLSearchParams(queryParams).toString()] and [JSON.stringify],
    as the runtime computes them. *)
Context (URLSearchParams_toString : list (string * string) -> string).
Context (JSON_stringify : JSON -> string).

(** The URL built at secrets.js 487-491. *)
Definition request_url (endpoint : string) (options : Options.t) : string :=
  let queryParams := default [] (Options.queryParams options) in
  let url := CLOUDFLARE_API_BASE +:+ endpoint in
  let params := URLSearchParams_toString queryParams in
  if negb (String.eqb params EmptyString) then url +:+ "?" +:+ params else url.

(** [{ Authorization, 'Content-Type', ...headers }] (secrets.js 494-498):
    a member of [headers] replaces the default of the same name. *)
Definition request_headers (cfg : Config) (options : Options.t) : gmap string string :=
  let headers := default ∅ (Options.headers options) in
  headers ∪ <["Authorization" := "Bearer " +:+ apiKey cfg]>
              (<["Content-Type" := "application/json"]> ∅).

(** The [requestOptions] built at secrets.js 501-512. *)
Definition request_options (cfg : Config) (options : Options.t) : RequestInit.t :=
  let method := default "GET" (Options.method options) in
  let body := Options.body options in
  {| RequestInit.method := method;
     RequestInit.headers := request_headers cfg options;
     RequestInit.body :=
       if truthy body && negb (String.eqb method "GET") then
         match body with
         | Some (JString s) => Some s              (* typeof body === 'string' *)
         | Some v => Some (JSON_stringify v)
         | None => None
         end
       else None |}.

(** [makeApiRequest(endpoint, options)] (secrets.js 482-541). [loadConfig]
    runs outside the [try]: its error is thrown as it is.  Inside the
    [try], a [CloudflareApiError] is rethrown and anything else thrown (the
    rejection of [fetch], the [SyntaxError] of [response.json()]) becomes
    [new Error(`Network error: ${error.message}`)]. *)
Definition makeApiRequest (endpoint : string) (options : Options.t)
    (w : world) : outcome Envelope.t * world :=
  let n := calls w in
  let w := {| calls := S n; trace := trace w |} in
  match loadConfig env with
  | Thrown error => (Thrown error, w)
  | Returned cfg =>
      let url := request_url endpoint options in
      let requestOptions := request_options cfg options in
      let w := emit (Fetch url requestOptions) w in
      match network n url requestOptions with
      | Rejected message => (Thrown (Error ("Network error: " +:+ message)), w)
      | Resolved response =>
          match Response.json response with
          | SyntaxError message => (Thrown (Error ("Network error: " +:+ message)), w)
          | Parsed data =>
              if negb (Response.ok response) then
                (Thrown (ApiError (CloudflareApiError.new
                   ("API request failed: " +:+ Response.statusText response)
                   (Response.status response)
                   (Some (default [] (Envelope.errors data))))), w)
              else if negb (default false (Envelope.success data)) then
                (Thrown (ApiError (CloudflareApiError.new
                   "API returned success: false"
                   (Response.status response)
                   (Some (default [] (Envelope.errors data))))), w)
              else (Returned data, w)
          end
      end
  end.

(** [throw lastError || new Error('All retry attempts failed')]
    (secrets.js 583); an error object is truthy. *)
Definition throw_lastError (lastError : option js_error) : outcome Envelope.t :=
  Thrown (default (Error "All retry attempts failed") lastError).

(** The [for] loop of secrets.js 558-581 from the test of its condition
    with the given [attempt] on, and the [throw] after it.  Each
    iteration takes one unit of [fuel]; [None] is a run cut short by it. *)
Fixpoint retry_loop (maxAttempts baseDelay maxDelay : Z)
    (endpoint : string) (options : Options.t)
    (fuel : nat) (attempt : Z) (lastError : option js_error)
    (w : world) : option (outcome Envelope.t * world) :=
  match fuel with
  | O => None
  | S fuel =>
      if attempt <=? maxAttempts then
        match makeApiRequest endpoint options w with
        | (Returned data, w) => Some (Returned data, w)
        | (Thrown error, w) =>
            let lastError := Some error in
            if is_client_error error then Some (Thrown error, w)
            else if attempt =? maxAttempts then Some (throw_lastError lastError, w)
            else
              let delay := backoff_delay baseDelay maxDelay attempt in
              let w := console_error (retry_notice attempt maxAttempts delay) w in
              let w := sleep delay w in
              retry_loop maxAttempts baseDelay maxDelay endpoint options
                fuel (attempt + 1) lastError w
        end
      else Some (throw_lastError lastError, w)
  end.

(** [makeApiRequestWithRetry(endpoint, options, retryOptions)]
    (secrets.js 553-584).  The loop runs at most [maxAttempts] iterations
    and tests its condition once more when it leaves by it, so
    [maxAttempts + 1] units of fuel are enough
    ([makeApiRequestWithRetry_total]). *)
Definition makeApiRequestWithRetry (endpoint : string) (options : Options.t)
    (retryOptions : RetryOptions.t) (w : world)
    : option (outcome Envelope.t * world) :=
  let maxAttempts := default 3 (RetryOptions.maxAttempts retryOptions) in
  let baseDelay := default 1000 (RetryOptions.baseDelay retryOptions) in
  let maxDelay := default 10000 (RetryOptions.maxDelay retryOptions) in
  retry_loop maxAttempts baseDelay maxDelay endpoint options
    (S (Z.to_nat maxAttempts)) 1 None w.

(** *** Vocabulary of the statements below *)

(** The world right after one invocation of [makeApiRequest]: what the
    invocation adds to the trace is the same every time (the request does
    not change between attempts). *)
Definition request_events (endpoint : string) (options : Options.t) : list event :=
  match loadConfig env with
  | Thrown _ => []
  | Returned cfg => [Fetch (request_url endpoint options) (request_options cfg options)]
  end.

Definition after_request (endpoint : string) (options : Options.t) (w : world) : world :=
  {| calls := S (calls w); trace := trace w ++ request_events endpoint options |}.

(** How the [n]-th invocation of [makeApiRequest] (counting from 0) ends. *)
Definition request_outcome (n : nat) (endpoint : string) (options : Options.t)
    : outcome Envelope.t :=
  fst (makeApiRequest endpoint options {| calls := n; trace := [] |}).

(** The world after the notice and the wait that follow a failed attempt
    which is retried. *)
Definition after_backoff (maxAttempts baseDelay maxDelay attempt : Z)
    (w : world) : world :=
  let delay := backoff_delay baseDelay maxDelay attempt in
  sleep delay (console_error (retry_notice attempt maxAttempts delay) w).

(** The world after [k] failed attempts in a row, each followed by its
    wait, the first of them numbered [attempt]. *)
Fixpoint after_retries (maxAttempts baseDelay maxDelay : Z)
    (endpoint : string) (options : Options.t)
    (k : nat) (attempt : Z) (w : world) : world :=
  match k with
  | O => w
  | S k =>
      after_retries maxAttempts baseDelay maxDelay endpoint options k (attempt + 1)
        (after_backoff maxAttempts baseDelay maxDelay attempt
           (after_request endpoint options w))
  end.

(* =================================================================== *)
(** *** [getAccountId]                                                 *)
(* =================================================================== *)

(** A value inside a template literal, as the runtime converts it to a
    string. The conversion of an object calls its [toString], which a
    member of that name in the parsed answer hides: it can throw. *)
Context (ToString : option JSON -> outcome string).

(** [`${v}`] and [String(v)]: a string as it is. *)
Definition template (v : option JSON) : outcome string :=
  match v with
  | Some (JString text) => Returned text
  | _ => ToString v
  end.

(** The [try] block of [getAccountId] (secrets.js 598-607). *)
Definition auto_detect (s : session) : outcome (option JSON) * session :=
  let (r, w) := makeApiRequest "/accounts" Options.empty (core s) in
  let s := {| core := w; stdout := stdout s |} in
  match r with
  | Thrown error => (Thrown error, s)
  | Returned response =>
      let result := Envelope.result response in
      if negb (truthy result)
         || match result with Some v => length_is_zero v | None => false end
      then (Thrown (Error "No Cloudflare accounts found for this API key"), s)
      else
        (* Return first account ID *)
        let first := result ≫= first_entry in
        match read_property first "id" with
        | Thrown error => (Thrown error, s)
        | Returned accountId =>
            match template accountId with
            | Thrown error => (Thrown error, s)
            | Returned id_text =>
                match read_property first "name" with
                | Thrown error => (Thrown error, s)
                | Returned name =>
                    match template name with
                    | Thrown error => (Thrown error, s)
                    | Returned name_text =>
                        (Returned accountId,
                         console_log ("Auto-detected Account ID: " +:+ id_text +:+
                                      " (" +:+ name_text +:+ ")") s)
                    end
                end
            end
        end
  end.

(** [getAccountId()] (secrets.js 589-616). [loadConfig] runs outside the
    [try]; whatever the [try] block throws is thrown again as a plain
    [Error]. *)
Definition getAccountId (s : session) : outcome (option JSON) * session :=
  match loadConfig env with
  | Thrown error => (Thrown error, s)
  | Returned cfg =>
      if truthy (JString <$> accountId cfg) then
        (Returned (JString <$> accountId cfg), s)
      else
        (* Auto-detect account ID *)
        match auto_detect s with
        | (Returned accountId, s) => (Returned accountId, s)
        | (Thrown error, s) =>
            (Thrown (Error (auto_detect_failure (error_message error))), s)
        end
  end.

(* =================================================================== *)
(** *** The commands on secrets                                        *)
(* =================================================================== *)

(** [putSecret(workerName, secretName, secretValue)] (secrets.js 82-123). *)
Definition putSecret (workerName secretName secretValue : string) : command bool :=
  cmd_catch
    (evaluate (validateWorkerName workerName);;
     evaluate (validateSecretName secretName);;
     accountId ← total getAccountId;
     say (printInfo ("Setting secret " +:+ dq +:+ secretName +:+ dq +:+
                     " for worker: " +:+ workerName));;
     id ← evaluate (template accountId);
     on_core (makeApiRequestWithRetry (secrets_endpoint id workerName)
                (put_options secretName secretValue) RetryOptions.empty);;
     say (printSuccess ("Secret " +:+ dq +:+ secretName +:+ dq +:+ " set successfully!"));;
     say (console_log (nl +:+ "🔐 Worker: " +:+ workerName));;
     say (console_log ("🔑 Secret: " +:+ secretName));;
     say (console_log (nl +:+ "⚠️  Note: A new version of the worker has been deployed with this secret." +:+ nl));;
     cmd_ret true)
    (fun error =>
       say (putSecret_failed workerName error);;
       cmd_ret false).

(** [deleteSecret(workerName, secretName)] (secrets.js 128-159). *)
Definition deleteSecret (workerName secretName : string) : command bool :=
  cmd_catch
    (evaluate (validateWorkerName workerName);;
     evaluate (validateSecretName secretName);;
     accountId ← total getAccountId;
     say (printInfo ("Deleting secret " +:+ dq +:+ secretName +:+ dq +:+
                     " from worker: " +:+ workerName));;
     id ← evaluate (template accountId);
     on_core (makeApiRequestWithRetry
                (secrets_endpoint id workerName +:+ "/" +:+ secretName)
                delete_options RetryOptions.empty);;
     say (printSuccess ("Secret " +:+ dq +:+ secretName +:+ dq +:+ " deleted successfully!"));;
     say (console_log (nl +:+ "⚠️  Note: A new version of the worker has been deployed without this secret." +:+ nl));;
     cmd_ret true)
    (fun error =>
       say (deleteSecret_failed workerName secretName error);;
       cmd_ret false).

(** One turn of the loop of [bulkPutSecrets] (secrets.js 174-193): [true]
    when the secret was set. *)
Definition bulk_put_entry (accountId : option JSON) (workerName : string)
    (entry : string * option JSON) : command bool :=
  let (name, value) := entry in
  cmd_catch
    (evaluate (validateSecretName name);;
     id ← evaluate (template accountId);
     text ← evaluate (template value);
     on_core (makeApiRequestWithRetry (secrets_endpoint id workerName)
                (put_options name text) RetryOptions.empty);;
     say (console_log ("  ✅ " +:+ name));;
     cmd_ret true)
    (fun error =>
       say (console_log ("  ❌ " +:+ name +:+ ": " +:+ error_message error));;
       cmd_ret false).

(** The loop of [bulkPutSecrets] with its two counters. *)
Fixpoint bulk_put_loop (accountId : option JSON) (workerName : string)
    (secretEntries : list (string * option JSON)) (counts : BulkResult)
    : command BulkResult :=
  match secretEntries with
  | [] => cmd_ret counts
  | entry :: secretEntries =>
      set ← bulk_put_entry accountId workerName entry;
      bulk_put_loop accountId workerName secretEntries
        (if set : bool
         then {| successCount := successCount counts + 1; failCount := failCount counts |}
         else {| successCount := successCount counts; failCount := failCount counts + 1 |})
  end.

(** [bulkPutSecrets(workerName, secrets)] (secrets.js 164-212);
    [secretEntries] is [Object.entries(secrets)], a member that holds
    [undefined] included. *)
Definition bulkPutSecrets (workerName : string)
    (secretEntries : list (string * option JSON)) : command BulkResult :=
  cmd_catch
    (evaluate (validateWorkerName workerName);;
     accountId ← total getAccountId;
     say (printInfo ("Setting " +:+ pretty (Z.of_nat (length secretEntries)) +:+
                     " secrets for worker: " +:+ workerName));;
     counts ← bulk_put_loop accountId workerName secretEntries
                 {| successCount := 0; failCount := 0 |};
     say (console_log EmptyString);;
     say (printSuccess ("Bulk set complete: " +:+ pretty (successCount counts) +:+
                        " succeeded, " +:+ pretty (failCount counts) +:+ " failed"));;
     cmd_ret counts)
    (fun error =>
       say (bulkPutSecrets_failed error);;
       cmd_ret {| successCount := 0; failCount := Z.of_nat (length secretEntries) |}).

(* =================================================================== *)
(** *** [makeApiRequest]                                               *)
(* =================================================================== *)

(** An invocation adds its events to the trace and one to the count of
    calls, however it ends. *)
Lemma makeApiRequest_world endpoint options w :
  snd (makeApiRequest endpoint options w) = after_request endpoint options w.
Proof.
  unfold makeApiRequest, after_request,
    request_events, emit.
  destruct (loadConfig env) as [cfg|error]; simpl.
  - destruct (network _ _ _) as [response|message]; simpl; [|done].
    destruct (Response.json response) as [data|message]; simpl; [|done].
    destruct (negb (Response.ok response)); simpl; [done|].
    by destruct (negb (default false (Envelope.success data))).
  - by rewrite app_nil_r.
Qed.

(** How an invocation ends depends on the world only through the count of
    calls before it. *)
Lemma makeApiRequest_outcome endpoint options w :
  fst (makeApiRequest endpoint options w)
  = request_outcome (calls w) endpoint options.
Proof.
  unfold request_outcome, makeApiRequest. simpl.
  destruct (loadConfig env) as [cfg|error]; simpl; [|done].
  destruct (network _ _ _) as [response|message]; simpl; [|done].
  destruct (Response.json response) as [data|message]; simpl; [|done].
  destruct (negb (Response.ok response)); simpl; [done|].
  by destruct (negb (default false (Envelope.success data))).
Qed.

Lemma makeApiRequest_eq endpoint options w :
  makeApiRequest endpoint options w
  = (request_outcome (calls w) endpoint options,
     after_request endpoint options w).
Proof.
  rewrite <- makeApiRequest_outcome, <- makeApiRequest_world.
  by destruct (makeApiRequest endpoint options w).
Qed.

(** With a configuration and an answer of the network, the outcome is
    decided by the answer alone. *)
Lemma request_outcome_resolved n endpoint options cfg response :
  loadConfig env = Returned cfg ->
  network n (request_url endpoint options) (request_options cfg options)
    = Resolved response ->
  request_outcome n endpoint options =
    match Response.json response with
    | SyntaxError message => Thrown (Error ("Network error: " +:+ message))
    | Parsed data =>
        if negb (Response.ok response) then
          Thrown (ApiError
            {| CloudflareApiError.message :=
                 "API request failed: " +:+ Response.statusText response;
               CloudflareApiError.statusCode := Response.status response;
               CloudflareApiError.errors := default [] (Envelope.errors data) |})
        else if negb (default false (Envelope.success data)) then
          Thrown (ApiError
            {| CloudflareApiError.message := "API returned success: false";
               CloudflareApiError.statusCode := Response.status response;
               CloudflareApiError.errors := default [] (Envelope.errors data) |})
        else Returned data
    end.
Proof.
  intros Hcfg Hnet.
  unfold request_outcome, makeApiRequest. simpl.
  rewrite Hcfg. simpl. rewrite Hnet.
  destruct (Response.json response) as [data|message]; [|done].
  destruct (negb (Response.ok response)); [done|].
  by destruct (negb (default false (Envelope.success data))).
Qed.

(** [response.ok] in terms of the status. *)
Lemma ok_status response :
  Response.ok response = true <-> 200 <= Response.status response <= 299.
Proof.
  unfold Response.ok. rewrite andb_true_iff, !Z.leb_le. done.
Qed.

(** The [n]-th invocation, answered with a status in 200..299 and an
    envelope whose [success] is not true. *)
Lemma request_outcome_success_false n endpoint options cfg response data :
  loadConfig env = Returned cfg ->
  network n (request_url endpoint options) (request_options cfg options)
    = Resolved response ->
  200 <= Response.status response <= 299 ->
  Response.json response = Parsed data ->
  Envelope.success data <> Some true ->
  request_outcome n endpoint options =
    Thrown (ApiError
      {| CloudflareApiError.message := "API returned success: false";
         CloudflareApiError.statusCode := Response.status response;
         CloudflareApiError.errors := default [] (Envelope.errors data) |}).
Proof.
  intros Hcfg Hnet Hstatus Hjson Hflag.
  rewrite (request_outcome_resolved _ _ _ cfg response) by done.
  rewrite Hjson. apply ok_status in Hstatus. rewrite Hstatus. cbn [negb].
  by destruct (Envelope.success data) as [[|]|].
Qed.

(* =================================================================== *)
(** *** The retry loop, one iteration at a time                        *)
(* =================================================================== *)

Section Loop.

Context (maxAttempts baseDelay maxDelay : Z).
Context (endpoint : string) (options : Options.t).

Local Abbreviation loop :=
  (retry_loop maxAttempts baseDelay maxDelay endpoint options).
Local Abbreviation retried :=
  (after_retries maxAttempts baseDelay maxDelay endpoint options).

(** The condition of the loop fails: the [throw] after the loop runs. *)
Lemma loop_exit fuel attempt lastError w :
  maxAttempts < attempt ->
  loop (S fuel) attempt lastError w = Some (throw_lastError lastError, w).
Proof.
  intros Hgt. simpl. by destruct (Z.leb_spec attempt maxAttempts); [lia|].
Qed.

(** The attempt succeeds: its result is returned at once. *)
Lemma loop_success fuel attempt lastError w data :
  attempt <= maxAttempts ->
  request_outcome (calls w) endpoint options = Returned data ->
  loop (S fuel) attempt lastError w
  = Some (Returned data, after_request endpoint options w).
Proof.
  intros Hle Hout. simpl.
  destruct (Z.leb_spec attempt maxAttempts); [|lia].
  by rewrite makeApiRequest_eq, Hout.
Qed.

(** The attempt fails with a client error: the error is thrown at once. *)
Lemma loop_client_error fuel attempt lastError w error :
  attempt <= maxAttempts ->
  request_outcome (calls w) endpoint options = Thrown error ->
  is_client_error error = true ->
  loop (S fuel) attempt lastError w
  = Some (Thrown error, after_request endpoint options w).
Proof.
  intros Hle Hout Hclient. simpl.
  destruct (Z.leb_spec attempt maxAttempts); [|lia].
  by rewrite makeApiRequest_eq, Hout, Hclient.
Qed.

(** The last attempt fails: the loop is left and the error is thrown. *)
Lemma loop_last fuel lastError w error :
  request_outcome (calls w) endpoint options = Thrown error ->
  is_client_error error = false ->
  loop (S fuel) maxAttempts lastError w
  = Some (Thrown error, after_request endpoint options w).
Proof.
  intros Hout Hclient. simpl.
  destruct (Z.leb_spec maxAttempts maxAttempts); [|lia].
  by rewrite makeApiRequest_eq, Hout, Hclient, Z.eqb_refl.
Qed.

(** An earlier attempt fails with another error: notice, wait, next
    attempt. *)
Lemma loop_retry fuel attempt lastError w error :
  attempt < maxAttempts ->
  request_outcome (calls w) endpoint options = Thrown error ->
  is_client_error error = false ->
  loop (S fuel) attempt lastError w
  = loop fuel (attempt + 1) (Some error)
      (after_backoff maxAttempts baseDelay maxDelay attempt
         (after_request endpoint options w)).
Proof.
  intros Hlt Hout Hclient. simpl.
  destruct (Z.leb_spec attempt maxAttempts); [|lia].
  rewrite makeApiRequest_eq, Hout, Hclient.
  by destruct (Z.eqb_spec attempt maxAttempts); [lia|].
Qed.

(** [k] attempts in a row fail and are retried. *)
Lemma loop_retries k : forall fuel attempt lastError w,
  attempt + Z.of_nat k <= maxAttempts ->
  (forall i, (i < k)%nat -> exists error,
      request_outcome (calls w + i) endpoint options = Thrown error
      /\ is_client_error error = false) ->
  exists lastError',
    loop (k + fuel) attempt lastError w
    = loop fuel (attempt + Z.of_nat k) lastError' (retried k attempt w).
Proof.
  induction k as [|k IH]; intros fuel attempt lastError w Hle Hfail.
  - exists lastError. simpl. by rewrite Z.add_0_r.
  - destruct (Hfail 0%nat) as (error & Hout & Hclient); [lia|].
    rewrite Nat.add_0_r in Hout.
    change (S k + fuel)%nat with (S (k + fuel)).
    rewrite (loop_retry _ _ _ _ error) by (done || lia).
    destruct (IH fuel (attempt + 1) (Some error)
                (after_backoff maxAttempts baseDelay maxDelay attempt
                   (after_request endpoint options w)))
      as [lastError' Heq].
    + lia.
    + intros i Hi. destruct (Hfail (S i)) as (e & He & Hc); [lia|].
      exists e. split; [|done].
      simpl. by rewrite <- He, Nat.add_succ_r.
    + exists lastError'. rewrite Heq. simpl.
      by replace (attempt + 1 + Z.of_nat k) with (attempt + Z.of_nat (S k)) by lia.
Qed.

Lemma calls_after_retries k : forall attempt w,
  calls (retried k attempt w) = (calls w + k)%nat.
Proof.
  induction k as [|k IH]; intros attempt w; simpl; [lia|].
  rewrite IH. simpl. lia.
Qed.

Lemma sleeps_request_events : sleeps (request_events endpoint options) = [].
Proof. unfold request_events. by destruct (loadConfig env). Qed.

Lemma sleeps_after_request w :
  sleeps (trace (after_request endpoint options w)) = sleeps (trace w).
Proof.
  unfold sleeps, after_request. simpl. rewrite omap_app.
  fold (sleeps (request_events endpoint options)).
  by rewrite sleeps_request_events, app_nil_r.
Qed.

Lemma sleeps_after_retries k : forall attempt w,
  sleeps (trace (retried k attempt w))
  = sleeps (trace w) ++ backoff_delays baseDelay maxDelay k attempt.
Proof.
  induction k as [|k IH]; intros attempt w; simpl.
  - by rewrite app_nil_r.
  - rewrite IH. unfold after_backoff, sleep, console_error, emit. simpl.
    unfold sleeps at 1. rewrite !omap_app. simpl.
    fold (sleeps (trace w)). fold (sleeps (request_events endpoint options)).
    rewrite sleeps_request_events, !app_nil_r.
    by rewrite <- app_assoc.
Qed.

Lemma fetches_after_request w :
  fetches (trace (after_request endpoint options w))
  = fetches (trace w) ++ fetches (request_events endpoint options).
Proof. unfold fetches, after_request. simpl. by rewrite omap_app. Qed.

Lemma fetches_after_retries k : forall attempt w,
  length (fetches (trace (retried k attempt w)))
  = (length (fetches (trace w))
     + k * length (fetches (request_events endpoint options)))%nat.
Proof.
  induction k as [|k IH]; intros attempt w; simpl; [lia|].
  rewrite IH. unfold after_backoff, sleep, console_error, emit. simpl.
  unfold fetches at 1. rewrite !omap_app. simpl.
  fold (fetches (trace w)). fold (fetches (request_events endpoint options)).
  rewrite !app_nil_r, length_app. lia.
Qed.

(** With more fuel than iterations left, the loop ends, and it ends as the
    last call it made did; when it made none, its condition failed at
    once and the [throw] after it ran. *)
Lemma loop_last_outcome fuel : forall attempt lastError w,
  (Z.to_nat (maxAttempts + 1 - attempt) < fuel)%nat ->
  exists r w',
    loop fuel attempt lastError w = Some (r, w')
    /\ (calls w <= calls w')%nat
    /\ Z.of_nat (calls w' - calls w) <= Z.max 0 (maxAttempts + 1 - attempt)
    /\ (calls w' = calls w ->
          maxAttempts < attempt /\ r = throw_lastError lastError /\ w' = w)
    /\ ((calls w < calls w')%nat ->
          r = request_outcome (calls w' - 1) endpoint options).
Proof.
  induction fuel as [|fuel IH]; intros attempt lastError w Hfuel; [lia|].
  destruct (Z.le_gt_cases attempt maxAttempts) as [Hle|Hgt].
  - destruct (request_outcome (calls w) endpoint options) as [data|error] eqn:Hout.
    { exists (Returned data), (after_request endpoint options w).
      rewrite (loop_success _ _ _ _ data) by done. simpl.
      replace (calls w - 0)%nat with (calls w) by lia.
      repeat split; try lia. by intros _. }
    destruct (is_client_error error) eqn:Hclient.
    { exists (Thrown error), (after_request endpoint options w).
      rewrite (loop_client_error _ _ _ _ error) by done. simpl.
      replace (calls w - 0)%nat with (calls w) by lia.
      repeat split; try lia. by intros _. }
    destruct (Z.eq_dec attempt maxAttempts) as [->|Hne].
    { exists (Thrown error), (after_request endpoint options w).
      rewrite (loop_last _ _ _ error) by done. simpl.
      replace (calls w - 0)%nat with (calls w) by lia.
      repeat split; try lia. by intros _. }
    rewrite (loop_retry _ _ _ _ error) by (done || lia).
    destruct (IH (attempt + 1) (Some error)
                (after_backoff maxAttempts baseDelay maxDelay attempt
                   (after_request endpoint options w)))
      as (r & w' & Heq & Hcalls & Hbound & Hnone & Hsome); [lia|].
    simpl in Hcalls, Hbound, Hnone, Hsome.
    exists r, w'. split; [done|].
    split; [lia|]. split; [lia|]. split.
    + intros Hsame. lia.
    + intros _. apply Hsome.
      destruct (decide (calls w' = S (calls w))) as [Hsame|]; [|lia].
      destruct (Hnone Hsame) as [? _]. lia.
  - exists (throw_lastError lastError), w.
    rewrite loop_exit by done.
    repeat split; try lia.
Qed.

End Loop.

(* =================================================================== *)
(** *** [makeApiRequest]: the request sent and the response judged     *)
(* =================================================================== *)

(** C10. The request carries a body only when the body given is truthy
    and the method is not GET: a falsy body (absent, [null], [false], [0]
    or the empty string) is sent as no body at all whatever the method, a
    truthy string goes as it is and any other truthy value goes through
    [JSON.stringify]. The request so built is the one handed to [fetch]. *)
Theorem request_body_attachment endpoint options cfg w :
  let method := default "GET" (Options.method options) in
  let body := Options.body options in
  let sent := RequestInit.body (request_options cfg options) in
  (loadConfig env = Returned cfg ->
     fetches (trace (snd (makeApiRequest endpoint options w)))
     = fetches (trace w)
       ++ [(request_url endpoint options, request_options cfg options)])
  /\ (is_Some sent <-> truthy body = true /\ method <> "GET")
  /\ (truthy body = false -> sent = None)
  /\ (body = Some (JString EmptyString) -> sent = None)
  /\ (method = "GET" -> sent = None)
  /\ (forall s, body = Some (JString s) -> s <> EmptyString -> method <> "GET" ->
        sent = Some s)
  /\ (forall v, body = Some v -> truthy body = true ->
        (forall s, v <> JString s) -> method <> "GET" ->
        sent = Some (JSON_stringify v)).
Proof.
  intros method body sent. subst method body sent.
  unfold request_options. cbn [RequestInit.body].
  split.
  { intros Hcfg. rewrite makeApiRequest_world, fetches_after_request.
    unfold request_events. by rewrite Hcfg. }
  destruct (String.eqb_spec (default "GET" (Options.method options)) "GET")
    as [Hget|Hget]; cbn [negb andb].
  - rewrite andb_false_r.
    split; [|by repeat split].
    split; [by intros [? ?] | by intros [_ ?]].
  - rewrite andb_true_r.
    destruct (Options.body options) as [v|] eqn:Hbody.
    + destruct (truthy (Some v)) eqn:Htruthy.
      * split; [split; [done|]|].
        { intros _. destruct v; eauto. }
        split; [done|]. split; [by intros [= ->]|]. split; [done|].
        split.
        { by intros s [= ->] _ _. }
        intros v' [= <-] _ Hnot _. destruct v; try done. by destruct (Hnot s).
      * split; [split; [by intros [? ?] | by intros [? _]]|].
        split; [done|]. split; [done|]. split; [done|].
        split; [|done].
        intros s [= ->] Hne _. simpl in Htruthy.
        by destruct (String.eqb_spec s EmptyString).
    + simpl.
      split; [split; [by intros [? ?] | by intros [? _]]|].
      by repeat split.
Qed.

(** C4, as amended. A response with a status outside 200..299 whose body
    parses as a JSON object, the envelope, makes [makeApiRequest] throw a
    [CloudflareApiError] with that status and the [errors] of the body, the
    empty list when the body has none. *)
Theorem error_status_is_classified endpoint options w cfg response data :
  loadConfig env = Returned cfg ->
  network (calls w) (request_url endpoint options) (request_options cfg options)
    = Resolved response ->
  ~ (200 <= Response.status response <= 299) ->
  Response.json response = Parsed data ->
  exists e,
    fst (makeApiRequest endpoint options w) = Thrown (ApiError e)
    /\ CloudflareApiError.statusCode e = Response.status response
    /\ CloudflareApiError.message e
       = "API request failed: " +:+ Response.statusText response
    /\ (forall errors, Envelope.errors data = Some errors ->
          CloudflareApiError.errors e = errors)
    /\ (Envelope.errors data = None -> CloudflareApiError.errors e = []).
Proof.
  intros Hcfg Hnet Hstatus Hjson.
  rewrite makeApiRequest_outcome.
  rewrite (request_outcome_resolved _ _ _ cfg response) by done.
  rewrite Hjson.
  assert (Response.ok response = false) as ->.
  { apply not_true_is_false. by rewrite ok_status. }
  eexists. split; [reflexivity|]. simpl.
  repeat split.
  - by intros errors ->.
  - by intros ->.
Qed.

(** What the code does where C4 as stated fails: a body that does not
    parse makes [makeApiRequest] throw a plain network error, whatever the
    status. *)
Lemma unparsable_body_is_a_network_error endpoint options w cfg response message :
  loadConfig env = Returned cfg ->
  network (calls w) (request_url endpoint options) (request_options cfg options)
    = Resolved response ->
  Response.json response = SyntaxError message ->
  fst (makeApiRequest endpoint options w)
  = Thrown (Error ("Network error: " +:+ message)).
Proof.
  intros Hcfg Hnet Hjson.
  rewrite makeApiRequest_outcome.
  rewrite (request_outcome_resolved _ _ _ cfg response) by done.
  by rewrite Hjson.
Qed.

(** C5. A response with a status in 200..299 whose envelope does not have
    [success] true makes [makeApiRequest] throw a [CloudflareApiError]
    with that status and the [errors] of the envelope; with [success]
    true, the envelope is returned as it was parsed. *)
Theorem success_flag_is_checked endpoint options w cfg response data :
  loadConfig env = Returned cfg ->
  network (calls w) (request_url endpoint options) (request_options cfg options)
    = Resolved response ->
  200 <= Response.status response <= 299 ->
  Response.json response = Parsed data ->
  (Envelope.success data <> Some true ->
     exists e,
       fst (makeApiRequest endpoint options w) = Thrown (ApiError e)
       /\ CloudflareApiError.statusCode e = Response.status response
       /\ 200 <= CloudflareApiError.statusCode e <= 299
       /\ CloudflareApiError.message e = "API returned success: false"
       /\ CloudflareApiError.errors e = default [] (Envelope.errors data))
  /\ (Envelope.success data = Some true ->
        fst (makeApiRequest endpoint options w) = Returned data).
Proof.
  intros Hcfg Hnet Hstatus Hjson.
  rewrite makeApiRequest_outcome. split.
  - intros Hflag.
    rewrite (request_outcome_success_false _ _ _ cfg response data) by done.
    eexists. split; [reflexivity|]. simpl. repeat split; lia.
  - intros Hflag.
    rewrite (request_outcome_resolved _ _ _ cfg response) by done.
    rewrite Hjson. apply ok_status in Hstatus. by rewrite Hstatus, Hflag.
Qed.

(* =================================================================== *)
(** *** [makeApiRequestWithRetry]                                      *)
(* =================================================================== *)

(** The fuel [makeApiRequestWithRetry] gives its loop is enough: every run
    ends. *)
Lemma makeApiRequestWithRetry_total endpoint options retryOptions w :
  is_Some (makeApiRequestWithRetry endpoint options retryOptions w).
Proof.
  unfold makeApiRequestWithRetry.
  destruct (loop_last_outcome
              (default 3 (RetryOptions.maxAttempts retryOptions))
              (default 1000 (RetryOptions.baseDelay retryOptions))
              (default 10000 (RetryOptions.maxDelay retryOptions))
              endpoint options
              (S (Z.to_nat (default 3 (RetryOptions.maxAttempts retryOptions))))
              1 None w) as (r & w' & Heq & _); [lia|].
  rewrite Heq. eauto.
Qed.

(** C1. When the call fails with a [CloudflareApiError] whose status is in
    [400,500) and is not 429, [makeApiRequestWithRetry] throws that error
    after this one call: the count of calls grows by one, the trace grows
    by the events of the one request, with no notice and no wait, whatever
    the number of attempts allowed (a number below one allows no call, so
    no failure either). *)
Theorem client_error_is_not_retried endpoint options retryOptions w e :
  1 <= default 3 (RetryOptions.maxAttempts retryOptions) ->
  request_outcome (calls w) endpoint options = Thrown (ApiError e) ->
  400 <= CloudflareApiError.statusCode e < 500 ->
  CloudflareApiError.statusCode e <> 429 ->
  exists w',
    makeApiRequestWithRetry endpoint options retryOptions w
    = Some (Thrown (ApiError e), w')
    /\ calls w' = S (calls w)
    /\ trace w' = trace w ++ request_events endpoint options
    /\ sleeps (trace w') = sleeps (trace w)
    /\ (length (fetches (trace w')) <= S (length (fetches (trace w))))%nat.
Proof.
  intros Hmax Hout Hrange Hne.
  exists (after_request endpoint options w).
  unfold makeApiRequestWithRetry.
  rewrite (loop_client_error _ _ _ _ _ _ _ _ _ (ApiError e)); try done.
  - split; [done|]. split; [done|]. split; [done|].
    split; [apply sleeps_after_request|].
    rewrite fetches_after_request, length_app.
    unfold request_events. destruct (loadConfig env); simpl; lia.
  - simpl. apply andb_true_iff. split; [apply andb_true_iff; split|].
    + apply Z.leb_le. lia.
    + apply Z.ltb_lt. lia.
    + apply negb_true_iff, Z.eqb_neq. done.
Qed.

(** C2. With three attempts allowed, when each of the three calls fails
    with a status 429, a status of 500 or more, or an error that is not a
    [CloudflareApiError], [makeApiRequestWithRetry] makes exactly three
    calls and then throws the error of the third. It waits twice:
    [min(baseDelay, maxDelay)] between the first and the second call and
    [min(baseDelay * 2, maxDelay)] between the second and the third; each
    is [min(baseDelay * 2^(attempt-1), maxDelay)] for the attempt that
    failed. *)
Theorem transient_failures_take_three_attempts endpoint options retryOptions w :
  default 3 (RetryOptions.maxAttempts retryOptions) = 3 ->
  (forall i, (i < 3)%nat -> exists error,
      request_outcome (calls w + i) endpoint options = Thrown error
      /\ match error with
         | Error _ => True
         | ApiError e =>
             CloudflareApiError.statusCode e = 429
             \/ 500 <= CloudflareApiError.statusCode e
         end) ->
  let baseDelay := default 1000 (RetryOptions.baseDelay retryOptions) in
  let maxDelay := default 10000 (RetryOptions.maxDelay retryOptions) in
  let wait1 := Z.min baseDelay maxDelay in
  let wait2 := Z.min (baseDelay * 2) maxDelay in
  exists error w',
    makeApiRequestWithRetry endpoint options retryOptions w
    = Some (Thrown error, w')
    /\ request_outcome (calls w + 2) endpoint options = Thrown error
    /\ calls w' = (calls w + 3)%nat
    /\ sleeps (trace w') = sleeps (trace w) ++ [wait1; wait2]
    /\ trace w' =
         trace w
         ++ request_events endpoint options
         ++ [ConsoleError (retry_notice 1 3 wait1); Sleep wait1]
         ++ request_events endpoint options
         ++ [ConsoleError (retry_notice 2 3 wait2); Sleep wait2]
         ++ request_events endpoint options
    /\ wait1 = Z.min (baseDelay * 2 ^ (1 - 1)) maxDelay
    /\ wait2 = Z.min (baseDelay * 2 ^ (2 - 1)) maxDelay.
Proof.
  intros Hmax Hfail baseDelay maxDelay wait1 wait2.
  assert (forall i, (i < 3)%nat -> exists error,
             request_outcome (calls w + i) endpoint options = Thrown error
             /\ is_client_error error = false) as Hretry.
  { intros i Hi. destruct (Hfail i Hi) as (error & Hout & Hkind).
    exists error. split; [done|].
    destruct error as [message|e]; [done|]. simpl.
    destruct Hkind as [->|Hge]; [done|].
    apply andb_false_iff. left. apply andb_false_iff. right.
    apply Z.ltb_ge. lia. }
  destruct (Hretry 0%nat) as (e1 & H1 & C1); [lia|].
  destruct (Hretry 1%nat) as (e2 & H2 & C2); [lia|].
  destruct (Hretry 2%nat) as (e3 & H3 & C3); [lia|].
  rewrite Nat.add_0_r in H1.
  unfold makeApiRequestWithRetry. rewrite Hmax.
  fold baseDelay maxDelay.
  change (Z.to_nat 3) with 3%nat.
  rewrite (loop_retry _ _ _ _ _ _ _ _ _ e1); [|lia|done|done].
  rewrite (loop_retry _ _ _ _ _ _ _ _ _ e2); [|lia| |done]; cycle 1.
  { simpl. by replace (S (calls w)) with (calls w + 1)%nat by lia. }
  change (1 + 1 + 1) with 3.
  rewrite (loop_last _ _ _ _ _ _ _ _ e3); [| |done]; cycle 1.
  { simpl. by replace (S (S (calls w))) with (calls w + 2)%nat by lia. }
  exists e3. eexists. split; [reflexivity|].
  assert (backoff_delay baseDelay maxDelay 1 = wait1) as Hw1.
  { unfold backoff_delay, wait1. f_equal. change (2 ^ (1 - 1)) with 1. lia. }
  assert (backoff_delay baseDelay maxDelay (1 + 1) = wait2) as Hw2.
  { unfold backoff_delay, wait2. f_equal. }
  split; [done|]. split; [simpl; lia|].
  unfold after_backoff, sleep, console_error, emit, after_request. simpl.
  rewrite Hw1, Hw2.
  split.
  { unfold sleeps. rewrite !omap_app. simpl.
    fold (sleeps (trace w)). fold (sleeps (request_events endpoint options)).
    rewrite sleeps_request_events. simpl. by rewrite !app_nil_r, <- !app_assoc. }
  split.
  { by rewrite <- !app_assoc. }
  split.
  - unfold wait1. f_equal. change (2 ^ (1 - 1)) with 1. lia.
  - reflexivity.
Qed.

(** The waits of [k] retries in a row: the one after the attempt numbered
    [attempt + i] is [min(baseDelay * 2^(attempt + i - 1), maxDelay)]. *)
Lemma backoff_delays_lookup baseDelay maxDelay k : forall attempt i,
  (i < k)%nat ->
  backoff_delays baseDelay maxDelay k attempt !! i
  = Some (Z.min (baseDelay * 2 ^ (attempt + Z.of_nat i - 1)) maxDelay).
Proof.
  induction k as [|k IH]; intros attempt i Hi; [lia|].
  destruct i as [|i].
  - simpl. unfold backoff_delay. by rewrite Z.add_0_r.
  - rewrite Nat2Z.inj_succ. simpl. rewrite IH by lia.
    by replace (attempt + 1 + Z.of_nat i - 1)
      with (attempt + Z.succ (Z.of_nat i) - 1) by lia.
Qed.

Lemma backoff_delays_length baseDelay maxDelay k : forall attempt,
  length (backoff_delays baseDelay maxDelay k attempt) = k.
Proof. induction k as [|k IH]; intros attempt; simpl; [done|by rewrite IH]. Qed.

(** C3. When the first [k] calls fail and are retried and the next call,
    still within the attempts allowed, succeeds, [makeApiRequestWithRetry]
    returns the result of that call and the run ends with it: [k + 1]
    calls in all, the [k] waits that came before it and nothing after it.
    With [k = 0], a request that succeeds at once is called once and
    nothing waits. *)
Theorem success_ends_the_run endpoint options retryOptions w k data :
  Z.of_nat k < default 3 (RetryOptions.maxAttempts retryOptions) ->
  (forall i, (i < k)%nat -> exists error,
      request_outcome (calls w + i) endpoint options = Thrown error
      /\ is_client_error error = false) ->
  request_outcome (calls w + k) endpoint options = Returned data ->
  let maxAttempts := default 3 (RetryOptions.maxAttempts retryOptions) in
  let baseDelay := default 1000 (RetryOptions.baseDelay retryOptions) in
  let maxDelay := default 10000 (RetryOptions.maxDelay retryOptions) in
  exists w',
    makeApiRequestWithRetry endpoint options retryOptions w
    = Some (Returned data, w')
    /\ calls w' = (calls w + S k)%nat
    /\ sleeps (trace w')
       = sleeps (trace w) ++ backoff_delays baseDelay maxDelay k 1
    /\ length (sleeps (trace w')) = (length (sleeps (trace w)) + k)%nat
    /\ w' = after_request endpoint options
              (after_retries maxAttempts baseDelay maxDelay endpoint options k 1 w)
    /\ (k = 0%nat ->
          calls w' = S (calls w)
          /\ trace w' = trace w ++ request_events endpoint options
          /\ sleeps (trace w') = sleeps (trace w)).
Proof.
  intros Hk Hfail Hout maxAttempts baseDelay maxDelay.
  unfold makeApiRequestWithRetry. fold maxAttempts baseDelay maxDelay.
  replace (S (Z.to_nat maxAttempts))
    with (k + S (Z.to_nat maxAttempts - k))%nat by lia.
  destruct (loop_retries maxAttempts baseDelay maxDelay endpoint options k
              (S (Z.to_nat maxAttempts - k)) 1 None w) as [lastError Heq];
    [lia|done|].
  rewrite Heq.
  rewrite (loop_success _ _ _ _ _ _ _ _ _ data); cycle 1.
  { lia. }
  { by rewrite calls_after_retries. }
  eexists. split; [reflexivity|].
  split; [simpl; rewrite calls_after_retries; lia|].
  split; [by rewrite sleeps_after_request, sleeps_after_retries|].
  split.
  { rewrite sleeps_after_request, sleeps_after_retries, length_app,
      backoff_delays_length. done. }
  split; [done|].
  intros ->. simpl. split; [done|]. split; [done|].
  apply sleeps_after_request.
Qed.

(** C8. Every run of [makeApiRequestWithRetry] ends, and it ends as the
    last call it made ended: a value is returned only when that call
    returned it. When each attempt allowed fails, the run throws, and
    what it throws is the error of the last call made; with no attempt
    allowed, it throws the error made for that case. *)
Theorem last_failure_is_thrown endpoint options retryOptions w :
  let maxAttempts := default 3 (RetryOptions.maxAttempts retryOptions) in
  exists r w',
    makeApiRequestWithRetry endpoint options retryOptions w = Some (r, w')
    /\ (calls w <= calls w')%nat
    /\ Z.of_nat (calls w' - calls w) <= Z.max 0 maxAttempts
    /\ (calls w' = calls w ->
          maxAttempts < 1 /\ r = Thrown (Error "All retry attempts failed"))
    /\ ((calls w < calls w')%nat ->
          r = request_outcome (calls w' - 1) endpoint options)
    /\ ((forall i, Z.of_nat i < maxAttempts -> exists error,
            request_outcome (calls w + i) endpoint options = Thrown error) ->
        exists error,
          r = Thrown error
          /\ ((calls w < calls w')%nat ->
                request_outcome (calls w' - 1) endpoint options = Thrown error)).
Proof.
  intros maxAttempts. unfold makeApiRequestWithRetry. fold maxAttempts.
  destruct (loop_last_outcome maxAttempts
              (default 1000 (RetryOptions.baseDelay retryOptions))
              (default 10000 (RetryOptions.maxDelay retryOptions))
              endpoint options (S (Z.to_nat maxAttempts)) 1 None w)
    as (r & w' & Heq & Hcalls & Hbound & Hnone & Hsome); [lia|].
  exists r, w'. split; [done|]. split; [done|].
  split; [by replace (maxAttempts + 1 - 1) with maxAttempts in Hbound by lia|].
  split.
  { intros Hsame. destruct (Hnone Hsame) as (? & -> & _). split; [lia|done]. }
  split; [done|].
  intros Hfail.
  destruct (decide (calls w' = calls w)) as [Hsame|Hmore].
  - destruct (Hnone Hsame) as (_ & -> & _). eexists. split; [reflexivity|]. lia.
  - assert (calls w < calls w')%nat as Hlt by lia.
    destruct (Hfail (calls w' - 1 - calls w)%nat) as [error Herror]; [lia|].
    replace (calls w + (calls w' - 1 - calls w))%nat with (calls w' - 1)%nat
      in Herror by lia.
    exists error. rewrite (Hsome Hlt). done.
Qed.

(** C9. A response with a status in 200..299 whose envelope does not have
    [success] true gives a [CloudflareApiError] with that status, which is
    outside [400,500): the loop does not take it for a client error. When
    each attempt allowed ends so, [makeApiRequestWithRetry] makes every
    one of them, with the wait of the schedule after each but the last,
    and only then throws the error. *)
Theorem application_failure_is_retried endpoint options retryOptions w cfg :
  1 <= default 3 (RetryOptions.maxAttempts retryOptions) ->
  loadConfig env = Returned cfg ->
  (forall i, Z.of_nat i < default 3 (RetryOptions.maxAttempts retryOptions) ->
     exists response data,
       network (calls w + i) (request_url endpoint options)
         (request_options cfg options) = Resolved response
       /\ 200 <= Response.status response <= 299
       /\ Response.json response = Parsed data
       /\ Envelope.success data <> Some true) ->
  let maxAttempts := default 3 (RetryOptions.maxAttempts retryOptions) in
  let baseDelay := default 1000 (RetryOptions.baseDelay retryOptions) in
  let maxDelay := default 10000 (RetryOptions.maxDelay retryOptions) in
  exists e w',
    makeApiRequestWithRetry endpoint options retryOptions w
    = Some (Thrown (ApiError e), w')
    /\ CloudflareApiError.message e = "API returned success: false"
    /\ 200 <= CloudflareApiError.statusCode e <= 299
    /\ is_client_error (ApiError e) = false
    /\ calls w' = (calls w + Z.to_nat maxAttempts)%nat
    /\ length (fetches (trace w'))
       = (length (fetches (trace w)) + Z.to_nat maxAttempts)%nat
    /\ sleeps (trace w')
       = sleeps (trace w)
         ++ backoff_delays baseDelay maxDelay (Z.to_nat maxAttempts - 1) 1.
Proof.
  intros Hmax Hcfg Hnet maxAttempts baseDelay maxDelay.
  assert (forall i, Z.of_nat i < maxAttempts -> exists e,
             request_outcome (calls w + i) endpoint options = Thrown (ApiError e)
             /\ CloudflareApiError.message e = "API returned success: false"
             /\ 200 <= CloudflareApiError.statusCode e <= 299
             /\ is_client_error (ApiError e) = false) as Hfail.
  { intros i Hi.
    destruct (Hnet i Hi) as (response & data & Hresp & Hstatus & Hjson & Hflag).
    eexists. split.
    { by apply (request_outcome_success_false _ _ _ cfg response data). }
    simpl. split; [done|]. split; [done|].
    apply andb_false_iff. left. apply andb_false_iff. left.
    apply Z.leb_gt. lia. }
  set (k := (Z.to_nat maxAttempts - 1)%nat).
  unfold makeApiRequestWithRetry. fold maxAttempts baseDelay maxDelay.
  replace (S (Z.to_nat maxAttempts)) with (k + 2)%nat by lia.
  destruct (loop_retries maxAttempts baseDelay maxDelay endpoint options k
              2 1 None w) as [lastError Heq].
  { lia. }
  { intros i Hi. destruct (Hfail i) as (e & Hout & _ & _ & Hclient); [lia|].
    by exists (ApiError e). }
  rewrite Heq.
  destruct (Hfail k) as (e & Hout & Hmsg & Hrange & Hclient); [lia|].
  replace (1 + Z.of_nat k) with maxAttempts by lia.
  rewrite (loop_last _ _ _ _ _ _ _ _ (ApiError e)); [| |done]; cycle 1.
  { by rewrite calls_after_retries. }
  exists e. eexists. split; [reflexivity|].
  split; [done|]. split; [done|]. split; [done|].
  split; [simpl; rewrite calls_after_retries; lia|].
  split.
  - rewrite fetches_after_request, length_app, fetches_after_retries.
    unfold request_events. rewrite Hcfg. simpl. lia.
  - by rewrite sleeps_after_request, sleeps_after_retries.
Qed.

(* =================================================================== *)
(** *** Every run of the loop                                          *)
(* =================================================================== *)

Section Runs.

Context (maxAttempts baseDelay maxDelay : Z).
Context (endpoint : string) (options : Options.t).

Local Abbreviation run_loop :=
  (retry_loop maxAttempts baseDelay maxDelay endpoint options).
Local Abbreviation run_retried :=
  (after_retries maxAttempts baseDelay maxDelay endpoint options).

(** A run either makes no call (the condition of the loop fails at once) or
    makes [k] calls that are retried and one more that ends it. *)
Lemma loop_shape fuel : forall attempt lastError w,
  (Z.to_nat (maxAttempts + 1 - attempt) < fuel)%nat ->
  exists r w',
    run_loop fuel attempt lastError w = Some (r, w')
    /\ ((maxAttempts < attempt /\ w' = w)
        \/ exists k, attempt + Z.of_nat k <= maxAttempts
                     /\ w' = after_request endpoint options (run_retried k attempt w)).
Proof.
  induction fuel as [|fuel IH]; intros attempt lastError w Hfuel; [lia|].
  destruct (Z.le_gt_cases attempt maxAttempts) as [Hle|Hgt].
  - assert (forall r : outcome Envelope.t, exists r' w',
               Some (r, after_request endpoint options w) = Some (r', w')
               /\ ((maxAttempts < attempt /\ w' = w)
                   \/ exists k, attempt + Z.of_nat k <= maxAttempts
                        /\ w' = after_request endpoint options
                                  (run_retried k attempt w))) as Hone.
    { intros r. exists r, (after_request endpoint options w).
      split; [done|]. right. exists 0%nat. split; [lia|done]. }
    destruct (request_outcome (calls w) endpoint options) as [data|error] eqn:Hout.
    { rewrite (loop_success _ _ _ _ _ _ _ _ _ data) by done. apply Hone. }
    destruct (is_client_error error) eqn:Hclient.
    { rewrite (loop_client_error _ _ _ _ _ _ _ _ _ error) by done. apply Hone. }
    destruct (Z.eq_dec attempt maxAttempts) as [->|Hne].
    { rewrite (loop_last _ _ _ _ _ _ _ _ error) by done. apply Hone. }
    rewrite (loop_retry _ _ _ _ _ _ _ _ _ error) by (done || lia).
    destruct (IH (attempt + 1) (Some error)
                (after_backoff maxAttempts baseDelay maxDelay attempt
                   (after_request endpoint options w)))
      as (r & w' & Heq & [[Hgt _]|(k & Hk & Hw')]); [lia|lia|].
    exists r, w'. split; [done|]. right. exists (S k). split; [lia|done].
  - rewrite loop_exit by done.
    exists (throw_lastError lastError), w. split; [done|]. by left.
Qed.

End Runs.

(** The schedule of waits: each is at most [maxDelay]. *)
Lemma backoff_delays_capped baseDelay maxDelay k : forall attempt,
  Forall (fun delay => delay <= maxDelay)
    (backoff_delays baseDelay maxDelay k attempt).
Proof.
  induction k as [|k IH]; intros attempt; simpl; constructor; [|apply IH].
  unfold backoff_delay. lia.
Qed.

(** The identical request of every attempt. *)
Lemma fetches_after_retries_eq maxAttempts baseDelay maxDelay endpoint options k :
  forall attempt w,
  fetches (trace (after_retries maxAttempts baseDelay maxDelay endpoint options
                    k attempt w))
  = fetches (trace w)
    ++ mjoin (replicate k (fetches (request_events endpoint options))).
Proof.
  induction k as [|k IH]; intros attempt w; simpl.
  - by rewrite app_nil_r.
  - rewrite IH. unfold after_backoff, sleep, console_error, emit. simpl.
    unfold fetches at 1. rewrite !omap_app. simpl.
    fold (fetches (trace w)). fold (fetches (request_events endpoint options)).
    by rewrite !app_nil_r, <- app_assoc.
Qed.

(** A retried failure is any failure that is not a client error; when the
    first [maxAttempts] calls all fail so, the loop makes every one of them
    and throws the error of the last. *)
Lemma exhaust_all_attempts endpoint options retryOptions w :
  1 <= default 3 (RetryOptions.maxAttempts retryOptions) ->
  (forall i, Z.of_nat i < default 3 (RetryOptions.maxAttempts retryOptions) ->
     exists error,
       request_outcome (calls w + i) endpoint options = Thrown error
       /\ is_client_error error = false) ->
  exists error,
    request_outcome
      (calls w + (Z.to_nat (default 3 (RetryOptions.maxAttempts retryOptions)) - 1))
      endpoint options = Thrown error
    /\ makeApiRequestWithRetry endpoint options retryOptions w
       = Some (Thrown error,
               after_request endpoint options
                 (after_retries
                    (default 3 (RetryOptions.maxAttempts retryOptions))
                    (default 1000 (RetryOptions.baseDelay retryOptions))
                    (default 10000 (RetryOptions.maxDelay retryOptions))
                    endpoint options
                    (Z.to_nat (default 3 (RetryOptions.maxAttempts retryOptions)) - 1)
                    1 w)).
Proof.
  intros Hmax Hfail.
  set (maxAttempts := default 3 (RetryOptions.maxAttempts retryOptions)) in *.
  set (k := (Z.to_nat maxAttempts - 1)%nat).
  unfold makeApiRequestWithRetry. fold maxAttempts.
  replace (S (Z.to_nat maxAttempts)) with (k + 2)%nat by lia.
  destruct (loop_retries maxAttempts
              (default 1000 (RetryOptions.baseDelay retryOptions))
              (default 10000 (RetryOptions.maxDelay retryOptions))
              endpoint options k 2 1 None w) as [lastError Heq].
  { lia. }
  { intros i Hi. apply Hfail. lia. }
  rewrite Heq.
  destruct (Hfail k) as (error & Hout & Hclient); [lia|].
  exists error. split; [done|].
  replace (1 + Z.of_nat k) with maxAttempts by lia.
  rewrite (loop_last _ _ _ _ _ _ _ _ error); [done| |done].
  by rewrite calls_after_retries.
Qed.

(** The world after [k] retried failures and one more call. *)
Lemma after_run_calls maxAttempts baseDelay maxDelay endpoint options k attempt w :
  calls (after_request endpoint options
           (after_retries maxAttempts baseDelay maxDelay endpoint options k attempt w))
  = (calls w + S k)%nat.
Proof. simpl. rewrite calls_after_retries. lia. Qed.

Lemma after_run_sleeps maxAttempts baseDelay maxDelay endpoint options k attempt w :
  sleeps (trace (after_request endpoint options
                   (after_retries maxAttempts baseDelay maxDelay endpoint options
                      k attempt w)))
  = sleeps (trace w) ++ backoff_delays baseDelay maxDelay k attempt.
Proof. by rewrite sleeps_after_request, sleeps_after_retries. Qed.

Lemma join_replicate_snoc {A : Type} (l : list A) (k : nat) :
  mjoin (replicate k l) ++ l = l ++ mjoin (replicate k l).
Proof.
  induction k as [|k IH]; simpl; [by rewrite app_nil_r|].
  by rewrite <- app_assoc, IH.
Qed.

Lemma join_replicate_singleton {A : Type} (x : A) (n : nat) :
  mjoin (replicate n [x]) = replicate n x.
Proof.
  induction n as [|n IH]; [done|].
  change (x :: mjoin (replicate n [x]) = x :: replicate n x). by rewrite IH.
Qed.

Lemma join_replicate_nil {A : Type} (n : nat) :
  mjoin (replicate n (@nil A)) = [].
Proof. induction n as [|n IH]; [done|]. exact IH. Qed.

Lemma after_run_fetches maxAttempts baseDelay maxDelay endpoint options k attempt w :
  fetches (trace (after_request endpoint options
                    (after_retries maxAttempts baseDelay maxDelay endpoint options
                       k attempt w)))
  = fetches (trace w)
    ++ mjoin (replicate (S k) (fetches (request_events endpoint options))).
Proof.
  rewrite fetches_after_request, fetches_after_retries_eq, <- app_assoc.
  f_equal. simpl. apply join_replicate_snoc.
Qed.

(** X1. With any number of attempts allowed, when each of them fails with
    an error the loop retries (anything but a [CloudflareApiError] with a
    status in [400,500) other than 429), [makeApiRequestWithRetry] makes
    exactly that number of calls, waits after each but the last as the
    schedule has it, and throws the error of the last call. *)
Theorem retried_failures_take_every_attempt endpoint options retryOptions w :
  1 <= default 3 (RetryOptions.maxAttempts retryOptions) ->
  (forall i, Z.of_nat i < default 3 (RetryOptions.maxAttempts retryOptions) ->
     exists error,
       request_outcome (calls w + i) endpoint options = Thrown error
       /\ is_client_error error = false) ->
  let maxAttempts := default 3 (RetryOptions.maxAttempts retryOptions) in
  let baseDelay := default 1000 (RetryOptions.baseDelay retryOptions) in
  let maxDelay := default 10000 (RetryOptions.maxDelay retryOptions) in
  exists error w',
    makeApiRequestWithRetry endpoint options retryOptions w
    = Some (Thrown error, w')
    /\ request_outcome (calls w + (Z.to_nat maxAttempts - 1)) endpoint options
       = Thrown error
    /\ calls w' = (calls w + Z.to_nat maxAttempts)%nat
    /\ sleeps (trace w')
       = sleeps (trace w)
         ++ backoff_delays baseDelay maxDelay (Z.to_nat maxAttempts - 1) 1
    /\ length (sleeps (trace w'))
       = (length (sleeps (trace w)) + (Z.to_nat maxAttempts - 1))%nat.
Proof.
  intros Hmax Hfail maxAttempts baseDelay maxDelay.
  destruct (exhaust_all_attempts endpoint options retryOptions w Hmax Hfail)
    as (error & Hout & Hrun).
  exists error. eexists. split; [exact Hrun|]. split; [exact Hout|].
  rewrite after_run_calls, after_run_sleeps, length_app, backoff_delays_length.
  fold maxAttempts. repeat split; lia.
Qed.

(** A wait never shrinks from one attempt to the next when the base delay
    is not negative. *)
Lemma backoff_delay_mono baseDelay maxDelay attempt :
  0 <= baseDelay -> 1 <= attempt ->
  backoff_delay baseDelay maxDelay attempt
  <= backoff_delay baseDelay maxDelay (attempt + 1).
Proof.
  intros Hbase Hattempt. unfold backoff_delay.
  replace (attempt + 1 - 1) with (Z.succ (attempt - 1)) by lia.
  rewrite Z.pow_succ_r by lia.
  assert (0 < 2 ^ (attempt - 1)) by (apply Z.pow_pos_nonneg; lia).
  nia.
Qed.

Lemma backoff_delays_total baseDelay maxDelay k : forall attempt,
  total_wait (backoff_delays baseDelay maxDelay k attempt) <= Z.of_nat k * maxDelay.
Proof.
  induction k as [|k IH]; intros attempt; [simpl; lia|].
  change (backoff_delay baseDelay maxDelay attempt
          + total_wait (backoff_delays baseDelay maxDelay k (attempt + 1))
          <= Z.of_nat (S k) * maxDelay).
  specialize (IH (attempt + 1)). unfold backoff_delay at 1. nia.
Qed.

(** Every run, in terms of the calls it made. *)
Lemma run_shape endpoint options retryOptions w :
  exists r w',
    makeApiRequestWithRetry endpoint options retryOptions w = Some (r, w')
    /\ ((default 3 (RetryOptions.maxAttempts retryOptions) < 1 /\ w' = w)
        \/ exists k,
             Z.of_nat (S k) <= default 3 (RetryOptions.maxAttempts retryOptions)
             /\ w' = after_request endpoint options
                       (after_retries
                          (default 3 (RetryOptions.maxAttempts retryOptions))
                          (default 1000 (RetryOptions.baseDelay retryOptions))
                          (default 10000 (RetryOptions.maxDelay retryOptions))
                          endpoint options k 1 w)).
Proof.
  unfold makeApiRequestWithRetry.
  destruct (loop_shape
              (default 3 (RetryOptions.maxAttempts retryOptions))
              (default 1000 (RetryOptions.baseDelay retryOptions))
              (default 10000 (RetryOptions.maxDelay retryOptions))
              endpoint options
              (S (Z.to_nat (default 3 (RetryOptions.maxAttempts retryOptions))))
              1 None w) as (r & w' & Heq & Hshape); [lia|].
  exists r, w'. split; [done|].
  destruct Hshape as [[Hlt ->]|(k & Hk & ->)].
  - left. split; [lia|done].
  - right. exists k. split; [lia|done].
Qed.

(** X2. Whatever the network answers, a run waits exactly once between two
    calls and nowhere else: a run of [n] calls has [n - 1] waits, and they
    are the first entries of the schedule [min(baseDelay * 2^i, maxDelay)],
    [i = 0, 1, ...]; a run with no call has no wait. *)
Theorem one_wait_between_calls endpoint options retryOptions w :
  let baseDelay := default 1000 (RetryOptions.baseDelay retryOptions) in
  let maxDelay := default 10000 (RetryOptions.maxDelay retryOptions) in
  exists r w' waits,
    makeApiRequestWithRetry endpoint options retryOptions w = Some (r, w')
    /\ sleeps (trace w') = sleeps (trace w) ++ waits
    /\ (calls w' = calls w -> waits = [])
    /\ length waits = (calls w' - calls w - 1)%nat
    /\ (forall i, (i < length waits)%nat ->
          waits !! i = Some (Z.min (baseDelay * 2 ^ Z.of_nat i) maxDelay)).
Proof.
  intros baseDelay maxDelay.
  destruct (run_shape endpoint options retryOptions w)
    as (r & w' & Hrun & [[_ ->]|(k & Hk & ->)]).
  - exists r, w, []. split; [done|]. rewrite app_nil_r.
    split; [done|]. split; [done|]. split; [simpl; lia|]. simpl. lia.
  - exists r. eexists. exists (backoff_delays baseDelay maxDelay k 1).
    split; [exact Hrun|]. rewrite after_run_calls, after_run_sleeps.
    split; [done|]. split; [lia|].
    rewrite backoff_delays_length. split; [lia|].
    intros i Hi. rewrite backoff_delays_lookup by done.
    do 4 f_equal. lia.
Qed.

(** X3. Whatever the network answers, no wait of a run is longer than
    [maxDelay]; the waits of a run add up to at most [maxAttempts - 1] times
    [maxDelay] (when that is not negative); and with a base delay that is
    not negative, no wait is shorter than the one before it. *)
Theorem waits_are_capped endpoint options retryOptions w :
  let maxAttempts := default 3 (RetryOptions.maxAttempts retryOptions) in
  let baseDelay := default 1000 (RetryOptions.baseDelay retryOptions) in
  let maxDelay := default 10000 (RetryOptions.maxDelay retryOptions) in
  exists r w' waits,
    makeApiRequestWithRetry endpoint options retryOptions w = Some (r, w')
    /\ sleeps (trace w') = sleeps (trace w) ++ waits
    /\ Forall (fun delay => delay <= maxDelay) waits
    /\ (0 <= maxDelay ->
          total_wait waits <= Z.max 0 (maxAttempts - 1) * maxDelay)
    /\ (0 <= baseDelay ->
          forall i earlier later,
            waits !! i = Some earlier -> waits !! S i = Some later ->
            earlier <= later).
Proof.
  intros maxAttempts baseDelay maxDelay.
  destruct (run_shape endpoint options retryOptions w)
    as (r & w' & Hrun & [[_ ->]|(k & Hk & ->)]).
  - exists r, w, []. split; [done|]. rewrite app_nil_r.
    split; [done|]. split; [constructor|]. split; [simpl; nia|]. done.
  - exists r. eexists. exists (backoff_delays baseDelay maxDelay k 1).
    split; [exact Hrun|]. rewrite after_run_sleeps.
    split; [done|]. split; [apply backoff_delays_capped|]. split.
    + intros Hcap. pose proof (backoff_delays_total baseDelay maxDelay k 1).
      fold maxAttempts in Hk. nia.
    + intros Hbase i earlier later Hearlier Hlater.
      assert (S i < k)%nat as Hi.
      { apply lookup_lt_Some in Hlater. by rewrite backoff_delays_length in Hlater. }
      rewrite backoff_delays_lookup in Hearlier, Hlater by lia.
      injection Hearlier as <-. injection Hlater as <-.
      pose proof (backoff_delay_mono baseDelay maxDelay (1 + Z.of_nat i)) as Hmono.
      unfold backoff_delay in Hmono.
      replace (1 + Z.of_nat (S i) - 1) with (1 + Z.of_nat i + 1 - 1) by lia.
      apply Hmono; lia.
Qed.

(** X4. Every attempt of a run sends the same request: with the key in the
    environment, the HTTP calls of a run are as many as its invocations of
    [makeApiRequest] and each has the URL and the options built from the
    arguments; without the key, a run issues no HTTP call at all. *)
Theorem every_attempt_sends_the_same_request endpoint options retryOptions w :
  exists r w',
    makeApiRequestWithRetry endpoint options retryOptions w = Some (r, w')
    /\ match loadConfig env with
       | Returned cfg =>
           fetches (trace w')
           = fetches (trace w)
             ++ replicate (calls w' - calls w)
                  (request_url endpoint options, request_options cfg options)
       | Thrown _ => fetches (trace w') = fetches (trace w)
       end.
Proof.
  destruct (run_shape endpoint options retryOptions w)
    as (r & w' & Hrun & [[_ ->]|(k & Hk & ->)]).
  - exists r, w. split; [done|].
    destruct (loadConfig env); [|done].
    replace (calls w - calls w)%nat with 0%nat by lia. simpl. by rewrite app_nil_r.
  - exists r. eexists. split; [exact Hrun|].
    rewrite after_run_calls, after_run_fetches. unfold request_events.
    destruct (loadConfig env) as [cfg|error].
    + replace (calls w + S k - calls w)%nat with (S k) by lia.
      assert (fetches [Fetch (request_url endpoint options)
                         (request_options cfg options)]
              = [(request_url endpoint options, request_options cfg options)])
        as -> by done.
      by rewrite join_replicate_singleton.
    + assert (fetches [] = []) as -> by done.
      by rewrite join_replicate_nil, app_nil_r.
Qed.

(** Without a configuration, an invocation throws what [loadConfig] threw. *)
Lemma request_outcome_no_config n endpoint options error :
  loadConfig env = Thrown error ->
  request_outcome n endpoint options = Thrown error.
Proof.
  intros Hcfg. unfold request_outcome, makeApiRequest. simpl. by rewrite Hcfg.
Qed.

(** An invocation returns only an envelope with [success] true that came
    with a status in 200..299. *)
Lemma request_outcome_returned n endpoint options data :
  request_outcome n endpoint options = Returned data ->
  exists cfg response,
    loadConfig env = Returned cfg
    /\ network n (request_url endpoint options) (request_options cfg options)
       = Resolved response
    /\ 200 <= Response.status response <= 299
    /\ Response.json response = Parsed data
    /\ Envelope.success data = Some true.
Proof.
  unfold request_outcome, makeApiRequest. simpl.
  destruct (loadConfig env) as [cfg|error]; simpl; [|done].
  destruct (network _ _ _) as [response|message] eqn:Hnet; simpl; [|done].
  destruct (Response.json response) as [data'|message] eqn:Hjson; simpl; [|done].
  destruct (Response.ok response) eqn:Hok; simpl; [|done].
  destruct (Envelope.success data') as [[|]|] eqn:Hflag; simpl; try done.
  intros [= <-]. exists cfg, response.
  split; [done|]. split; [done|]. split; [by apply ok_status|]. done.
Qed.

(** X5. Without the key in the environment, [makeApiRequestWithRetry] never
    reaches the network, and still goes through every attempt allowed and
    every wait between them before it throws the error of [loadConfig]. *)
Theorem missing_key_is_retried endpoint options retryOptions w :
  1 <= default 3 (RetryOptions.maxAttempts retryOptions) ->
  (env !! "CLOUDFLARE_API_KEY" = None
   \/ env !! "CLOUDFLARE_API_KEY" = Some EmptyString) ->
  let maxAttempts := default 3 (RetryOptions.maxAttempts retryOptions) in
  let baseDelay := default 1000 (RetryOptions.baseDelay retryOptions) in
  let maxDelay := default 10000 (RetryOptions.maxDelay retryOptions) in
  exists w',
    makeApiRequestWithRetry endpoint options retryOptions w
    = Some (Thrown (Error missing_key_message), w')
    /\ calls w' = (calls w + Z.to_nat maxAttempts)%nat
    /\ fetches (trace w') = fetches (trace w)
    /\ sleeps (trace w')
       = sleeps (trace w)
         ++ backoff_delays baseDelay maxDelay (Z.to_nat maxAttempts - 1) 1.
Proof.
  intros Hmax Hkey maxAttempts baseDelay maxDelay.
  assert (loadConfig env = Thrown (Error missing_key_message)) as Hcfg.
  { unfold loadConfig. by destruct Hkey as [->| ->]. }
  destruct (exhaust_all_attempts endpoint options retryOptions w Hmax)
    as (error & Hout & Hrun).
  { intros i _. exists (Error missing_key_message).
    split; [by apply request_outcome_no_config|done]. }
  rewrite (request_outcome_no_config _ _ _ _ Hcfg) in Hout.
  injection Hout as <-.
  eexists. split; [exact Hrun|].
  rewrite after_run_calls, after_run_sleeps, after_run_fetches.
  fold maxAttempts. split; [lia|]. split; [|done].
  unfold request_events. rewrite Hcfg.
  assert (fetches [] = []) as -> by done.
  by rewrite join_replicate_nil, app_nil_r.
Qed.

(** X6. A response whose body is not JSON is retried like a connection that
    fails, whatever its status, a 404 as much as a 502: when each attempt
    allowed ends in one or the other, [makeApiRequestWithRetry] makes every
    call and every wait, and throws a plain [Error] whose message starts
    with [Network error: ]. *)
Theorem unreadable_answers_are_retried endpoint options retryOptions w cfg :
  1 <= default 3 (RetryOptions.maxAttempts retryOptions) ->
  loadConfig env = Returned cfg ->
  (forall i, Z.of_nat i < default 3 (RetryOptions.maxAttempts retryOptions) ->
     exists message,
       network (calls w + i) (request_url endpoint options)
         (request_options cfg options) = Rejected message
       \/ exists response,
            network (calls w + i) (request_url endpoint options)
              (request_options cfg options) = Resolved response
            /\ Response.json response = SyntaxError message) ->
  let maxAttempts := default 3 (RetryOptions.maxAttempts retryOptions) in
  let baseDelay := default 1000 (RetryOptions.baseDelay retryOptions) in
  let maxDelay := default 10000 (RetryOptions.maxDelay retryOptions) in
  exists message w',
    makeApiRequestWithRetry endpoint options retryOptions w
    = Some (Thrown (Error ("Network error: " +:+ message)), w')
    /\ calls w' = (calls w + Z.to_nat maxAttempts)%nat
    /\ length (fetches (trace w'))
       = (length (fetches (trace w)) + Z.to_nat maxAttempts)%nat
    /\ sleeps (trace w')
       = sleeps (trace w)
         ++ backoff_delays baseDelay maxDelay (Z.to_nat maxAttempts - 1) 1.
Proof.
  intros Hmax Hcfg Hnet maxAttempts baseDelay maxDelay.
  assert (forall i, Z.of_nat i < maxAttempts -> exists message,
             request_outcome (calls w + i) endpoint options
             = Thrown (Error ("Network error: " +:+ message))) as Hfail.
  { intros i Hi. destruct (Hnet i Hi) as (message & [Hrej|(response & Hres & Hjson)]);
      exists message.
    - unfold request_outcome, makeApiRequest. simpl. rewrite Hcfg. simpl.
      by rewrite Hrej.
    - rewrite (request_outcome_resolved _ _ _ cfg response) by done.
      by rewrite Hjson. }
  destruct (exhaust_all_attempts endpoint options retryOptions w Hmax)
    as (error & Hout & Hrun).
  { intros i Hi. destruct (Hfail i Hi) as [message Hmessage]. eauto. }
  destruct (Hfail (Z.to_nat maxAttempts - 1)%nat) as [message Hmessage]; [lia|].
  fold maxAttempts in Hout. rewrite Hmessage in Hout. injection Hout as <-.
  exists message. eexists. split; [exact Hrun|].
  rewrite after_run_calls, after_run_sleeps, after_run_fetches.
  fold maxAttempts. split; [lia|]. split; [|done].
  unfold request_events. rewrite Hcfg.
  assert (fetches [Fetch (request_url endpoint options)
                     (request_options cfg options)]
          = [(request_url endpoint options, request_options cfg options)])
    as -> by done.
  rewrite join_replicate_singleton, length_app, length_replicate. lia.
Qed.

(** X7. A client error ends the run at whatever attempt it comes: after [k]
    failures that were retried, a [CloudflareApiError] with a status in
    [400,500) other than 429 is thrown at once, with [k + 1] calls made and
    the [k] waits before it, however many attempts were left. *)
Theorem client_error_ends_the_run endpoint options retryOptions w k e :
  Z.of_nat k < default 3 (RetryOptions.maxAttempts retryOptions) ->
  (forall i, (i < k)%nat -> exists error,
      request_outcome (calls w + i) endpoint options = Thrown error
      /\ is_client_error error = false) ->
  request_outcome (calls w + k) endpoint options = Thrown (ApiError e) ->
  400 <= CloudflareApiError.statusCode e < 500 ->
  CloudflareApiError.statusCode e <> 429 ->
  let baseDelay := default 1000 (RetryOptions.baseDelay retryOptions) in
  let maxDelay := default 10000 (RetryOptions.maxDelay retryOptions) in
  exists w',
    makeApiRequestWithRetry endpoint options retryOptions w
    = Some (Thrown (ApiError e), w')
    /\ calls w' = (calls w + S k)%nat
    /\ sleeps (trace w')
       = sleeps (trace w) ++ backoff_delays baseDelay maxDelay k 1.
Proof.
  intros Hk Hfail Hout Hrange Hne baseDelay maxDelay.
  set (maxAttempts := default 3 (RetryOptions.maxAttempts retryOptions)) in *.
  unfold makeApiRequestWithRetry. fold maxAttempts baseDelay maxDelay.
  replace (S (Z.to_nat maxAttempts))
    with (k + S (Z.to_nat maxAttempts - k))%nat by lia.
  destruct (loop_retries maxAttempts baseDelay maxDelay endpoint options k
              (S (Z.to_nat maxAttempts - k)) 1 None w) as [lastError Heq];
    [lia|done|].
  rewrite Heq.
  rewrite (loop_client_error _ _ _ _ _ _ _ _ _ (ApiError e)); cycle 1.
  { lia. }
  { by rewrite calls_after_retries. }
  { simpl. apply andb_true_iff. split; [apply andb_true_iff; split|].
    - apply Z.leb_le. lia.
    - apply Z.ltb_lt. lia.
    - by apply negb_true_iff, Z.eqb_neq. }
  eexists. split; [reflexivity|].
  by rewrite after_run_calls, after_run_sleeps.
Qed.

(** X8. What [makeApiRequestWithRetry] returns is an envelope with
    [success] true that the last call of the run received with a status in
    200..299: nothing else is ever returned. *)
Theorem only_success_is_returned endpoint options retryOptions w data w' :
  makeApiRequestWithRetry endpoint options retryOptions w
  = Some (Returned data, w') ->
  Envelope.success data = Some true
  /\ (calls w < calls w')%nat
  /\ exists cfg response,
       loadConfig env = Returned cfg
       /\ network (calls w' - 1) (request_url endpoint options)
            (request_options cfg options) = Resolved response
       /\ 200 <= Response.status response <= 299
       /\ Response.json response = Parsed data.
Proof.
  unfold makeApiRequestWithRetry. intros Hrun.
  destruct (loop_last_outcome
              (default 3 (RetryOptions.maxAttempts retryOptions))
              (default 1000 (RetryOptions.baseDelay retryOptions))
              (default 10000 (RetryOptions.maxDelay retryOptions))
              endpoint options
              (S (Z.to_nat (default 3 (RetryOptions.maxAttempts retryOptions))))
              1 None w) as (r & w'' & Heq & Hcalls & _ & Hnone & Hsome); [lia|].
  rewrite Hrun in Heq. injection Heq as <- <-.
  destruct (decide (calls w' = calls w)) as [Hsame|Hmore].
  { by destruct (Hnone Hsame) as (_ & ? & _). }
  assert (calls w < calls w')%nat as Hlt by lia.
  specialize (Hsome Hlt). symmetry in Hsome.
  destruct (request_outcome_returned _ _ _ _ Hsome)
    as (cfg & response & Hcfg & Hnet & Hstatus & Hjson & Hflag).
  split; [done|]. split; [done|]. by exists cfg, response.
Qed.

(** X9. The headers of a request: every header the caller gives is sent as
    given, also in place of a default of the same name; Authorization is
    always sent, as the bearer key when the caller gives none, and
    Content-Type is JSON when the caller gives none; no other header is
    added. *)
Theorem caller_headers_replace_defaults cfg options name :
  let sent := request_headers cfg options in
  let given := default ∅ (Options.headers options) in
  (forall value, given !! name = Some value -> sent !! name = Some value)
  /\ (given !! "Authorization" = None ->
        sent !! "Authorization" = Some ("Bearer " +:+ apiKey cfg))
  /\ (given !! "Content-Type" = None ->
        sent !! "Content-Type" = Some "application/json")
  /\ (given !! name = None -> name <> "Authorization" -> name <> "Content-Type" ->
        sent !! name = None)
  /\ is_Some (sent !! "Authorization").
Proof.
  intros sent given. subst sent given. unfold request_headers.
  split; [|split; [|split; [|split]]].
  - intros value Hgiven. by apply lookup_union_Some_l.
  - intros Hnone. rewrite lookup_union_r by done. by rewrite lookup_insert_eq.
  - intros Hnone. rewrite lookup_union_r by done.
    rewrite lookup_insert_ne by done. by rewrite lookup_insert_eq.
  - intros Hnone Hauth Htype. rewrite lookup_union_r by done.
    by rewrite !lookup_insert_ne.
  - destruct (default ∅ (Options.headers options) !! "Authorization")
      as [value|] eqn:Hgiven.
    + exists value. by apply lookup_union_Some_l.
    + rewrite lookup_union_r by done. rewrite lookup_insert_eq. eauto.
Qed.

(* =================================================================== *)
(** *** [getAccountId]: one call, never retried                        *)
(* =================================================================== *)

Lemma loadConfig_present key :
  env !! "CLOUDFLARE_API_KEY" = Some key -> key <> EmptyString ->
  loadConfig env
  = Returned {| apiKey := key;
                accountId := env !! "CLOUDFLARE_ACCOUNT_ID";
                email := env !! "CLOUDFLARE_EMAIL" |}.
Proof.
  intros Hkey Hne. unfold loadConfig. rewrite Hkey.
  destruct (String.eqb key EmptyString) eqn:Heq; [|done].
  by apply String.eqb_eq in Heq.
Qed.


(** The [try] block makes one call, whatever comes of it. *)
Lemma auto_detect_core s :
  core (snd (auto_detect s)) = after_request "/accounts" Options.empty (core s).
Proof.
  unfold auto_detect. rewrite makeApiRequest_eq.
  destruct (request_outcome _ _ _) as [response|error]; [|done].
  repeat case_match; done.
Qed.

(** It writes a line only when it returns. *)
Lemma auto_detect_stdout s :
  (forall cause, fst (auto_detect s) = Thrown cause ->
     stdout (snd (auto_detect s)) = stdout s)
  /\ (length (stdout (snd (auto_detect s))) <= S (length (stdout s)))%nat.
Proof.
  unfold auto_detect. rewrite makeApiRequest_eq.
  destruct (request_outcome _ _ _) as [response|error]; [|simpl; split; [done|lia]].
  repeat case_match; simpl; (split; [done|]); rewrite ?length_app; simpl; lia.
Qed.

Lemma auto_detect_failed s cause :
  request_outcome (calls (core s)) "/accounts" Options.empty = Thrown cause ->
  auto_detect s
  = (Thrown cause,
     {| core := after_request "/accounts" Options.empty (core s);
        stdout := stdout s |}).
Proof.
  intros Hfail. unfold auto_detect. rewrite makeApiRequest_eq, Hfail. done.
Qed.

(** X21. With an API key and a non-empty CLOUDFLARE_ACCOUNT_ID in the
    environment, [getAccountId] returns that identifier and leaves the
    session as it was: no call is made and nothing is written. *)
Theorem configured_account_needs_no_call key id s :
  env !! "CLOUDFLARE_API_KEY" = Some key -> key <> EmptyString ->
  env !! "CLOUDFLARE_ACCOUNT_ID" = Some id -> id <> EmptyString ->
  getAccountId s = (Returned (Some (JString id)), s).
Proof.
  intros Hkey Hne Hid Hid_ne. unfold getAccountId.
  rewrite (loadConfig_present key) by done. simpl. rewrite Hid. simpl.
  destruct (String.eqb id EmptyString) eqn:Heq; [|done].
  by apply String.eqb_eq in Heq.
Qed.



(** The session after [getAccountId]: at most one call. *)
Lemma getAccountId_core s :
  core (snd (getAccountId s)) = core s
  \/ core (snd (getAccountId s)) = after_request "/accounts" Options.empty (core s).
Proof.
  unfold getAccountId.
  destruct (loadConfig env) as [cfg|e]; [|by left].
  destruct (truthy (JString <$> accountId cfg)); [by left|].
  pose proof (auto_detect_core s) as Hcore.
  destruct (auto_detect s) as [[a|cause] s'']; by right.
Qed.

(** X23. Without a configured account, [getAccountId] makes exactly one
    call, to [/accounts] with the default options, and never waits: the
    auto-detection is not retried.  It writes at most one line. *)
Theorem auto_detection_is_one_call key s :
  env !! "CLOUDFLARE_API_KEY" = Some key -> key <> EmptyString ->
  env !! "CLOUDFLARE_ACCOUNT_ID" = None
  \/ env !! "CLOUDFLARE_ACCOUNT_ID" = Some EmptyString ->
  let s' := snd (getAccountId s) in
  core s' = after_request "/accounts" Options.empty (core s)
  /\ calls (core s') = S (calls (core s))
  /\ sleeps (trace (core s')) = sleeps (trace (core s))
  /\ (length (stdout s') <= S (length (stdout s)))%nat.
Proof.
  intros Hkey Hne Hid s'. subst s'. unfold getAccountId.
  rewrite (loadConfig_present key) by done. simpl.
  assert (truthy (JString <$> env !! "CLOUDFLARE_ACCOUNT_ID") = false) as ->
    by (by destruct Hid as [-> | ->]).
  pose proof (auto_detect_core s) as Hcore.
  pose proof (auto_detect_stdout s) as [Hout Hlen].
  assert (core (snd (auto_detect s)) = core (snd (
    let (r, s0) := auto_detect s in
    match r with
    | Returned accountId => (Returned accountId, s0)
    | Thrown error =>
        (@Thrown (option JSON) (Error (auto_detect_failure (error_message error))), s0)
    end))
    /\ stdout (snd (auto_detect s)) = stdout (snd (
    let (r, s0) := auto_detect s in
    match r with
    | Returned accountId => (Returned accountId, s0)
    | Thrown error =>
        (@Thrown (option JSON) (Error (auto_detect_failure (error_message error))), s0)
    end))) as [Hc Ho]
    by (by destruct (auto_detect s) as [[a|cause] s'']).
  rewrite <- Hc, <- Ho, Hcore.
  split; [done|]. split; [done|]. split; [|lia].
  apply sleeps_after_request.
Qed.

(** X24. Without a configured account, when the call to [/accounts] comes
    back with an envelope whose [result] is an array that starts with an
    object, [getAccountId] returns the [id] member of that first entry
    (undefined when it has none) and writes one line that names it; the
    other entries are not looked at. *)
Theorem first_account_is_chosen key s data members others id_text name_text :
  env !! "CLOUDFLARE_API_KEY" = Some key -> key <> EmptyString ->
  env !! "CLOUDFLARE_ACCOUNT_ID" = None
  \/ env !! "CLOUDFLARE_ACCOUNT_ID" = Some EmptyString ->
  request_outcome (calls (core s)) "/accounts" Options.empty = Returned data ->
  Envelope.result data = Some (JArray (JObject members :: others)) ->
  template (member "id" members) = Returned id_text ->
  template (member "name" members) = Returned name_text ->
  getAccountId s
  = (Returned (member "id" members),
     {| core := after_request "/accounts" Options.empty (core s);
        stdout := stdout s ++ ["Auto-detected Account ID: " +:+ id_text +:+
                               " (" +:+ name_text +:+ ")"] |}).
Proof.
  intros Hkey Hne Hid Hcall Hresult Hid_text Hname_text. unfold getAccountId.
  rewrite (loadConfig_present key) by done. simpl.
  assert (truthy (JString <$> env !! "CLOUDFLARE_ACCOUNT_ID") = false) as ->
    by (by destruct Hid as [-> | ->]).
  unfold auto_detect. rewrite makeApiRequest_eq, Hcall. cbn beta iota.
  rewrite Hresult. simpl. rewrite Hid_text, Hname_text. done.
Qed.

(* =================================================================== *)
(** *** The commands on secrets: what a run costs                      *)
(* =================================================================== *)

Lemma within_refl s : within 0 0 s s.
Proof. unfold within. lia. Qed.

Lemma within_trans n1 ms1 n2 ms2 s1 s2 s3 :
  within n1 ms1 s1 s2 -> within n2 ms2 s2 s3 ->
  within (n1 + n2) (ms1 + ms2) s1 s3.
Proof. unfold within. lia. Qed.

Lemma within_weaken n ms n' ms' s s' :
  (n <= n')%nat -> ms <= ms' -> within n ms s s' -> within n' ms' s s'.
Proof. unfold within. lia. Qed.

Lemma total_wait_app waits waits' :
  total_wait (waits ++ waits') = total_wait waits + total_wait waits'.
Proof.
  unfold total_wait. induction waits as [|ms waits IH]; simpl; [done|].
  rewrite IH. lia.
Qed.

Lemma console_log_within line s : within 0 0 s (console_log line s).
Proof. unfold within. simpl. lia. Qed.

Lemma printError_within message s : within 0 0 s (printError message s).
Proof.
  unfold within, printError, console_error, emit, sleeps. simpl.
  rewrite omap_app. simpl. rewrite app_nil_r. lia.
Qed.

Lemma putSecret_failed_within workerName error s :
  within 0 0 s (putSecret_failed workerName error s).
Proof.
  unfold putSecret_failed. destruct error as [message|e].
  - apply printError_within.
  - destruct (CloudflareApiError.statusCode e =? 404).
    + unfold printInfo.
      eapply (within_trans 0 0 0 0); [apply printError_within|apply console_log_within].
    + eapply (within_trans 0 0 0 0); apply printError_within.
Qed.

Lemma deleteSecret_failed_within workerName secretName error s :
  within 0 0 s (deleteSecret_failed workerName secretName error s).
Proof.
  unfold deleteSecret_failed. destruct error as [message|e].
  - apply printError_within.
  - destruct (CloudflareApiError.statusCode e =? 404).
    + apply printError_within.
    + eapply (within_trans 0 0 0 0); apply printError_within.
Qed.

Lemma bulkPutSecrets_failed_within error s :
  within 0 0 s (bulkPutSecrets_failed error s).
Proof.
  unfold bulkPutSecrets_failed. destruct error as [message|e].
  - apply printError_within.
  - eapply (within_trans 0 0 0 0); apply printError_within.
Qed.

Lemma ends_weaken {A} n ms n' ms' (Q Q' : outcome A -> Prop) c :
  (n <= n')%nat -> ms <= ms' -> (forall r, Q r -> Q' r) ->
  ends n ms Q c -> ends n' ms' Q' c.
Proof.
  intros Hn Hms HQ Hc s. destruct (Hc s) as (r & s' & Hrun & Hr & Hcost).
  exists r, s'. split; [done|]. split; [by apply HQ|].
  by apply (within_weaken n ms).
Qed.

Lemma ends_ret {A} (a : A) (Q : outcome A -> Prop) :
  Q (Returned a) -> ends 0 0 Q (cmd_ret a).
Proof.
  intros HQ s. exists (Returned a), s.
  split; [done|]. split; [done|]. apply within_refl.
Qed.

Lemma ends_evaluate {A} (r : outcome A) : ends 0 0 (fun _ => True) (evaluate r).
Proof.
  intros s. exists r, s. split; [done|]. split; [done|]. apply within_refl.
Qed.

Lemma ends_say print :
  (forall s, within 0 0 s (print s)) -> ends 0 0 returns (say print).
Proof.
  intros Hprint s. exists (Returned tt), (print s).
  split; [done|]. split; [done|]. apply Hprint.
Qed.

(** Sequence: the costs add up; what the first step throws is thrown. *)
Lemma ends_bind {A B} n1 ms1 n2 ms2 (Q1 : outcome A -> Prop)
    (Q : outcome B -> Prop) (c : command A) (k : A -> command B) :
  0 <= ms2 ->
  ends n1 ms1 Q1 c ->
  (forall a, Q1 (Returned a) -> ends n2 ms2 Q (k a)) ->
  (forall error, Q1 (Thrown error) -> Q (Thrown error)) ->
  ends (n1 + n2) (ms1 + ms2) Q (c ≫= k).
Proof.
  intros Hms Hc Hk Hthrown s. unfold mbind, command_bind, cmd_bind.
  destruct (Hc s) as ([a|error] & s1 & -> & Hr & Hcost).
  - destruct (Hk a Hr s1) as (r & s2 & Hrun & HQ & Hcost2).
    exists r, s2. split; [done|]. split; [done|]. by eapply within_trans.
  - exists (Thrown error), s1. split; [done|]. split; [by apply Hthrown|].
    apply (within_weaken n1 ms1); [lia|lia|done].
Qed.

(** [try]/[catch]: what the block returns is returned, what it throws goes
    to the handler. *)
Lemma ends_catch {A} n1 ms1 n2 ms2 (Q1 Q : outcome A -> Prop)
    (body : command A) (handler : js_error -> command A) :
  0 <= ms2 ->
  ends n1 ms1 Q1 body ->
  (forall a, Q1 (Returned a) -> Q (Returned a)) ->
  (forall error, Q1 (Thrown error) -> ends n2 ms2 Q (handler error)) ->
  ends (n1 + n2) (ms1 + ms2) Q (cmd_catch body handler).
Proof.
  intros Hms Hbody Hreturned Hhandler s. unfold cmd_catch.
  destruct (Hbody s) as ([a|error] & s1 & -> & Hr & Hcost).
  - exists (Returned a), s1. split; [done|]. split; [by apply Hreturned|].
    apply (within_weaken n1 ms1); [lia|lia|done].
  - destruct (Hhandler error Hr s1) as (r & s2 & Hrun & HQ & Hcost2).
    exists r, s2. split; [done|]. split; [done|]. by eapply within_trans.
Qed.

(** [getAccountId]: at most one call and no wait. *)
Lemma ends_getAccountId : ends 1 0 (fun _ => True) (total getAccountId).
Proof.
  intros s. unfold total. exists (fst (getAccountId s)), (snd (getAccountId s)).
  split; [by destruct (getAccountId s)|]. split; [done|].
  unfold within.
  destruct (getAccountId_core s) as [-> | ->]; [lia|].
  rewrite sleeps_after_request. simpl. lia.
Qed.

(** A request with the default retry options: at most three calls, and
    waits of one and of two seconds between them. *)
Lemma ends_request endpoint options :
  ends 3 3000 (fun _ => True)
    (on_core (makeApiRequestWithRetry endpoint options RetryOptions.empty)).
Proof.
  intros s. unfold on_core.
  destruct (run_shape endpoint options RetryOptions.empty (core s))
    as (r & w' & -> & Hshape).
  exists r, {| core := w'; stdout := stdout s |}.
  split; [done|]. split; [done|]. unfold within. simpl in *.
  destruct Hshape as [[Hlt _]|(k & Hk & ->)]; [lia|].
  rewrite after_run_calls, after_run_sleeps, total_wait_app.
  destruct k as [|[|[|k]]]; [| | |lia]; vm_compute total_wait at 2; lia.
Qed.

Local Ltac then_step n1 ms1 n2 ms2 :=
  apply (ends_bind n1 ms1 n2 ms2 (fun _ => True));
  [lia| |intros ? _|done].

Local Ltac then_say n ms :=
  apply (ends_bind 0 0 n ms returns);
  [lia|apply ends_say; intros; apply console_log_within|intros _ _|done].

Lemma putSecret_ends workerName secretName secretValue :
  ends 4 3000 returns (putSecret workerName secretName secretValue).
Proof.
  unfold putSecret.
  apply (ends_catch 4 3000 0 0 (fun _ => True) returns); [lia| |done|].
  - then_step 0%nat 0 4%nat 3000; [apply ends_evaluate|].
    then_step 0%nat 0 4%nat 3000; [apply ends_evaluate|].
    then_step 1%nat 0 3%nat 3000; [apply ends_getAccountId|].
    then_say 3%nat 3000.
    then_step 0%nat 0 3%nat 3000; [apply ends_evaluate|].
    then_step 3%nat 3000 0%nat 0; [apply ends_request|].
    do 4 then_say 0%nat 0.
    by apply ends_ret.
  - intros error _.
    apply (ends_bind 0 0 0 0 returns); [lia| |intros _ _|done].
    + apply ends_say. intros. apply putSecret_failed_within.
    + by apply ends_ret.
Qed.

Lemma deleteSecret_ends workerName secretName :
  ends 4 3000 returns (deleteSecret workerName secretName).
Proof.
  unfold deleteSecret.
  apply (ends_catch 4 3000 0 0 (fun _ => True) returns); [lia| |done|].
  - then_step 0%nat 0 4%nat 3000; [apply ends_evaluate|].
    then_step 0%nat 0 4%nat 3000; [apply ends_evaluate|].
    then_step 1%nat 0 3%nat 3000; [apply ends_getAccountId|].
    then_say 3%nat 3000.
    then_step 0%nat 0 3%nat 3000; [apply ends_evaluate|].
    then_step 3%nat 3000 0%nat 0; [apply ends_request|].
    do 2 then_say 0%nat 0.
    by apply ends_ret.
  - intros error _.
    apply (ends_bind 0 0 0 0 returns); [lia| |intros _ _|done].
    + apply ends_say. intros. apply deleteSecret_failed_within.
    + by apply ends_ret.
Qed.

(** X25. A worker name or a secret name that its pattern refuses ends
    [putSecret] and [deleteSecret] at once: both return false after one
    line on the standard error that starts with [Error: ], the same for
    the two; no call is made and nothing else is written. *)
Theorem invalid_names_cost_no_request workerName secretName secretValue s :
  Regex.test name_pattern workerName = false
  \/ Regex.test secret_pattern secretName = false ->
  exists message,
    putSecret workerName secretName secretValue s
    = Some (Returned false, printError ("Error: " +:+ message) s)
    /\ deleteSecret workerName secretName s
       = Some (Returned false, printError ("Error: " +:+ message) s).
Proof.
  intros Hinvalid.
  unfold putSecret, deleteSecret, cmd_catch, mbind, command_bind, cmd_bind,
    evaluate, say, cmd_ret, validateWorkerName, validateSecretName.
  destruct (Regex.test name_pattern workerName) eqn:Hworker; simpl.
  - destruct Hinvalid as [Hw | Hs]; [done|]. rewrite Hs. simpl. eauto.
  - eauto.
Qed.

(** X26. [putSecret] and [deleteSecret] always end, and return a boolean
    whatever happens: nothing is thrown to the caller.  A run makes at
    most four calls (one to detect the account, three attempts of the
    request) and waits at most three seconds in all. *)
Theorem secret_commands_end_within_four_calls workerName secretName secretValue s :
  (exists was_set s',
     putSecret workerName secretName secretValue s = Some (Returned was_set, s')
     /\ within 4 3000 s s')
  /\ (exists deleted s',
        deleteSecret workerName secretName s = Some (Returned deleted, s')
        /\ within 4 3000 s s').
Proof.
  split.
  - destruct (putSecret_ends workerName secretName secretValue s)
      as ([was_set|error] & s' & Hrun & Hreturns & Hcost); [eauto|done].
  - destruct (deleteSecret_ends workerName secretName s)
      as ([deleted|error] & s' & Hrun & Hreturns & Hcost); [eauto|done].
Qed.

Lemma bulk_put_entry_ends accountId workerName entry :
  ends 3 3000 returns (bulk_put_entry accountId workerName entry).
Proof.
  unfold bulk_put_entry. destruct entry as [name value].
  apply (ends_catch 3 3000 0 0 (fun _ => True) returns); [lia| |done|].
  - then_step 0%nat 0 3%nat 3000; [apply ends_evaluate|].
    then_step 0%nat 0 3%nat 3000; [apply ends_evaluate|].
    then_step 0%nat 0 3%nat 3000; [apply ends_evaluate|].
    then_step 3%nat 3000 0%nat 0; [apply ends_request|].
    then_say 0%nat 0.
    by apply ends_ret.
  - intros error _.
    apply (ends_bind 0 0 0 0 returns); [lia| |intros _ _|done].
    + apply ends_say. intros. apply console_log_within.
    + by apply ends_ret.
Qed.

(** Every turn of the loop adds one to one of the two counters. *)
Lemma bulk_put_loop_ends accountId workerName secretEntries : forall counts,
  ends (3 * length secretEntries) (3000 * Z.of_nat (length secretEntries))
    (fun r => exists counts',
       r = Returned counts'
       /\ successCount counts' + failCount counts'
          = successCount counts + failCount counts + Z.of_nat (length secretEntries)
       /\ successCount counts <= successCount counts'
       /\ failCount counts <= failCount counts')
    (bulk_put_loop accountId workerName secretEntries counts).
Proof.
  induction secretEntries as [|entry secretEntries IH]; intros counts.
  - simpl bulk_put_loop. apply ends_ret. exists counts. split; [done|]. simpl. lia.
  - simpl bulk_put_loop.
    eapply (ends_weaken (3 + 3 * length secretEntries)
              (3000 + 3000 * Z.of_nat (length secretEntries)));
      [simpl; lia|simpl length; lia|intros r Hr; exact Hr|].
    apply (ends_bind 3 3000 _ _ returns); [lia|apply bulk_put_entry_ends| |done].
    intros was_set _.
    eapply ends_weaken; [reflexivity|reflexivity| |apply IH].
    intros r (counts' & -> & Hsum & Hsuccess & Hfail). exists counts'.
    split; [done|]. destruct was_set; simpl in *; simpl length; lia.
Qed.

(** X27. [bulkPutSecrets] always ends and returns its two counters,
    whatever happens; neither is negative and together they count every
    entry of [secrets], each as set or as failed.  A run makes at most one
    call to detect the account and three for each entry. *)
Theorem bulk_counts_add_up workerName secretEntries s :
  exists counts s',
    bulkPutSecrets workerName secretEntries s = Some (Returned counts, s')
    /\ successCount counts + failCount counts = Z.of_nat (length secretEntries)
    /\ 0 <= successCount counts /\ 0 <= failCount counts
    /\ within (1 + 3 * length secretEntries)
         (3000 * Z.of_nat (length secretEntries)) s s'.
Proof.
  pose (ok := fun r : outcome BulkResult =>
    exists counts,
      r = Returned counts
      /\ successCount counts + failCount counts = Z.of_nat (length secretEntries)
      /\ 0 <= successCount counts /\ 0 <= failCount counts).
  assert (ends (1 + 3 * length secretEntries)
            (3000 * Z.of_nat (length secretEntries)) ok
            (bulkPutSecrets workerName secretEntries)) as Hends.
  { unfold bulkPutSecrets.
    eapply (ends_weaken ((1 + 3 * length secretEntries) + 0)
              (3000 * Z.of_nat (length secretEntries) + 0));
      [lia|lia|intros r Hr; exact Hr|].
    apply (ends_catch _ _ 0 0
             (fun r => match r with Returned _ => ok r | Thrown _ => True end) ok);
      [lia| |done|].
    - eapply (ends_weaken (0 + (1 + (0 + (3 * length secretEntries + 0))))
                (0 + (0 + (0 + (3000 * Z.of_nat (length secretEntries) + 0)))));
        [lia|lia|intros r Hr; exact Hr|].
      apply (ends_bind _ _ _ _ (fun _ => True)); [lia|apply ends_evaluate| |done].
      intros _ _.
      apply (ends_bind _ _ _ _ (fun _ => True)); [lia|apply ends_getAccountId| |done].
      intros accountId _.
      apply (ends_bind _ _ _ _ returns);
        [lia|apply ends_say; intros; apply console_log_within| |done].
      intros _ _.
      eapply (ends_bind _ _ _ _ _); [|apply bulk_put_loop_ends| |]; [lia| |].
      + intros counts (counts' & [= <-] & Hsum & Hsuccess & Hfail). simpl in *.
        eapply (ends_weaken (0 + (0 + 0)) (0 + (0 + 0))); [lia|lia|intros r Hr; exact Hr|].
        apply (ends_bind _ _ _ _ returns);
          [lia|apply ends_say; intros; apply console_log_within| |done].
        intros _ _.
        apply (ends_bind _ _ _ _ returns);
          [lia|apply ends_say; intros; apply console_log_within| |done].
        intros _ _.
        apply ends_ret. exists counts. split; [done|]. lia.
      + intros error (counts' & Hr & _). done.
    - intros error _.
      apply (ends_bind 0 0 0 0 returns); [lia| |intros _ _|done].
      + apply ends_say. intros. apply bulkPutSecrets_failed_within.
      + apply ends_ret. eexists. split; [done|]. simpl. lia. }
  destruct (Hends s) as (r & s' & Hrun & (counts & -> & Hsum & Hsuccess & Hfail) & Hcost).
  exists counts, s'. done.
Qed.

(** X28. With valid names and no configured account, a failed detection
    of the account ends [putSecret] and [deleteSecret] after that one
    call: both return false and the standard error gets one line, [Error: ]
    and the auto-detection text with the message of the cause.  The
    request for the secret is never made, and a classified cause gets none
    of the guidance of [getUserMessage], nor the hint for a 404. *)
Theorem failed_detection_ends_the_command
    workerName secretName secretValue key s cause :
  Regex.test name_pattern workerName = true ->
  Regex.test secret_pattern secretName = true ->
  env !! "CLOUDFLARE_API_KEY" = Some key -> key <> EmptyString ->
  env !! "CLOUDFLARE_ACCOUNT_ID" = None
  \/ env !! "CLOUDFLARE_ACCOUNT_ID" = Some EmptyString ->
  request_outcome (calls (core s)) "/accounts" Options.empty = Thrown cause ->
  let s' :=
    printError ("Error: " +:+ auto_detect_failure (error_message cause))
      {| core := after_request "/accounts" Options.empty (core s);
         stdout := stdout s |} in
  putSecret workerName secretName secretValue s = Some (Returned false, s')
  /\ deleteSecret workerName secretName s = Some (Returned false, s').
Proof.
  intros Hworker Hsecret Hkey Hne Hid Hcall s'. subst s'.
  assert (getAccountId s
          = (Thrown (Error (auto_detect_failure (error_message cause))),
             {| core := after_request "/accounts" Options.empty (core s);
                stdout := stdout s |})) as Haccount.
  { unfold getAccountId. rewrite (loadConfig_present key) by done. simpl.
    assert (truthy (JString <$> env !! "CLOUDFLARE_ACCOUNT_ID") = false) as ->
      by (by destruct Hid as [-> | ->]).
    by rewrite (auto_detect_failed s cause). }
  unfold putSecret, deleteSecret, cmd_catch, mbind, command_bind, cmd_bind,
    evaluate, say, cmd_ret, total, validateWorkerName, validateSecretName.
  rewrite Hworker, Hsecret, Haccount. simpl. done.
Qed.


End Client.

(* ===================================================================== *)
(** ** Strings                                                            *)
(* ===================================================================== *)

Lemma append_assoc (s1 s2 s3 : string) :
  (s1 +:+ s2) +:+ s3 = s1 +:+ (s2 +:+ s3).
Proof.
  induction s1 as [|c s1 IH]; [reflexivity|].
  change (String c ((s1 +:+ s2) +:+ s3) = String c (s1 +:+ (s2 +:+ s3))).
  by rewrite IH.
Qed.

Lemma append_empty_r (s : string) : s +:+ EmptyString = s.
Proof.
  induction s as [|c s IH]; [reflexivity|].
  change (String c (s +:+ EmptyString) = String c s). by rewrite IH.
Qed.

(* ===================================================================== *)
(** ** [getUserMessage]                                                   *)
(* ===================================================================== *)

(** The lines the default branch appends, one per structured error. *)
Lemma listing_fold (errors : list StructuredError.t) (msg : string) :
  fold_left
    (fun msg error => msg +:+ nl +:+ "  - " +:+ StructuredError.message error)
    errors msg
  = msg +:+ foldr (fun error rest =>
                     nl +:+ "  - " +:+ StructuredError.message error +:+ rest)
                  EmptyString errors.
Proof.
  revert msg. induction errors as [|error errors IH]; intros msg; simpl.
  - by rewrite append_empty_r.
  - rewrite IH. by rewrite !append_assoc.
Qed.

Lemma listing_mentions (errors : list StructuredError.t) (error : StructuredError.t) :
  error ∈ errors ->
  exists before after,
    foldr (fun error rest => nl +:+ "  - " +:+ StructuredError.message error +:+ rest)
          EmptyString errors
    = before +:+ StructuredError.message error +:+ after.
Proof.
  induction 1 as [error errors|error other errors _ (before & after & IH)]; simpl.
  - exists (nl +:+ "  - "). eexists. by rewrite !append_assoc.
  - exists (nl +:+ "  - " +:+ StructuredError.message other +:+ before), after.
    rewrite IH. by rewrite !append_assoc.
Qed.

(** C6. [getUserMessage] depends on the error alone, and its cases are:
    status 401 or 403, the authentication text, which names the credential;
    status 429, the rate-limit text; status 404, the not-found text; status
    500 and above, the server-error text, which calls the failure temporary;
    any other status, the message of the error as it is, followed (when the
    error carries structured errors) by a heading and one line per structured
    error with its message. The first four cases exclude one another, so the
    order of the tests decides nothing more. *)
Theorem getUserMessage_mapping (e : CloudflareApiError.t) :
  let status := CloudflareApiError.statusCode e in
  let text := CloudflareApiError.getUserMessage e in
  (status = 401 \/ status = 403 ->
     text = CloudflareApiError.authentication_guidance
     /\ includes "API key" text = true
     /\ includes "CLOUDFLARE_API_KEY" text = true)
  /\ (status = 429 ->
     text = CloudflareApiError.rate_limit_guidance
     /\ includes "Rate limit" text = true)
  /\ (status = 404 ->
     text = CloudflareApiError.not_found_guidance
     /\ includes "not found" text = true)
  /\ (500 <= status ->
     text = CloudflareApiError.server_error_guidance
     /\ includes "server error" text = true
     /\ includes "temporary" text = true)
  /\ (status <> 401 -> status <> 403 -> status <> 429 -> status <> 404 ->
      status < 500 ->
      text = CloudflareApiError.message e +:+
             match CloudflareApiError.errors e with
             | [] => EmptyString
             | errors =>
                 nl +:+ nl +:+ "API Errors:" +:+
                 foldr (fun error rest =>
                          nl +:+ "  - " +:+ StructuredError.message error +:+ rest)
                       EmptyString errors
             end
      /\ (exists rest, text = CloudflareApiError.message e +:+ rest)
      /\ (forall error, error ∈ CloudflareApiError.errors e ->
            exists before after,
              text = before +:+ StructuredError.message error +:+ after)).
Proof.
  intros status text. subst status text.
  unfold CloudflareApiError.getUserMessage.
  split; [|split; [|split; [|split]]].
  - intros [H|H]; rewrite H; repeat split; vm_compute; reflexivity.
  - intros H; rewrite H; repeat split; vm_compute; reflexivity.
  - intros H; rewrite H; repeat split; vm_compute; reflexivity.
  - intros H.
    destruct (Z.eqb_spec (CloudflareApiError.statusCode e) 401); [lia|].
    destruct (Z.eqb_spec (CloudflareApiError.statusCode e) 403); [lia|].
    destruct (Z.eqb_spec (CloudflareApiError.statusCode e) 429); [lia|].
    destruct (Z.eqb_spec (CloudflareApiError.statusCode e) 404); [lia|].
    destruct (Z.leb_spec 500 (CloudflareApiError.statusCode e)); [|lia].
    repeat split; vm_compute; reflexivity.
  - intros H401 H403 H429 H404 H500.
    destruct (Z.eqb_spec (CloudflareApiError.statusCode e) 401); [lia|].
    destruct (Z.eqb_spec (CloudflareApiError.statusCode e) 403); [lia|].
    destruct (Z.eqb_spec (CloudflareApiError.statusCode e) 429); [lia|].
    destruct (Z.eqb_spec (CloudflareApiError.statusCode e) 404); [lia|].
    destruct (Z.leb_spec 500 (CloudflareApiError.statusCode e)); [lia|].
    cbn [orb].
    destruct (CloudflareApiError.errors e) as [|first errors] eqn:Herrors.
    + cbn [length Nat.ltb Nat.leb]. rewrite append_empty_r.
      split; [reflexivity|]. split.
      * exists EmptyString. by rewrite append_empty_r.
      * intros error Hin. by apply elem_of_nil in Hin.
    + change (0 <? length (first :: errors))%nat with true. cbv iota.
      rewrite listing_fold, !append_assoc.
      split; [reflexivity|]. split.
      * eexists. reflexivity.
      * intros error Hin.
        destruct (listing_mentions (first :: errors) error Hin)
          as (before & after & Hlist).
        rewrite Hlist.
        exists (CloudflareApiError.message e +:+ nl +:+ nl +:+ "API Errors:" +:+ before),
               after.
        by rewrite !append_assoc.
Qed.

(* ===================================================================== *)
(** ** [loadConfig]                                                       *)
(* ===================================================================== *)

(** C7. [loadConfig] throws exactly when CLOUDFLARE_API_KEY is unset or
    empty in the environment; what it throws is the error that tells where
    to put the key; otherwise it returns the key as it is, with the account
    identifier and the email as the environment has them (or not). *)
Theorem loadConfig_spec (env : gmap string string) :
  ((exists error, loadConfig env = Thrown error) <->
     (env !! "CLOUDFLARE_API_KEY" = None
      \/ env !! "CLOUDFLARE_API_KEY" = Some EmptyString))
  /\ (forall error, loadConfig env = Thrown error ->
        error = Error missing_key_message)
  /\ (forall key, env !! "CLOUDFLARE_API_KEY" = Some key -> key <> EmptyString ->
        loadConfig env =
          Returned {| apiKey := key;
                      accountId := env !! "CLOUDFLARE_ACCOUNT_ID";
                      email := env !! "CLOUDFLARE_EMAIL" |}).
Proof.
  unfold loadConfig.
  destruct (env !! "CLOUDFLARE_API_KEY") as [key|] eqn:Hkey.
  - destruct (String.eqb_spec key EmptyString) as [->|Hne].
    + split; [|split].
      * split; [auto | eauto].
      * by intros error [= <-].
      * by intros key [= <-] Hne.
    + split; [|split].
      * split; [by intros [error ?] | by intros [?|[= ?]]].
      * by intros error ?.
      * by intros key' [= <-] _.
  - split; [|split].
    + split; [auto | eauto].
    + by intros error [= <-].
    + by intros key ?.
Qed.


(* ===================================================================== *)
(** ** The scenarios of the specification, run                            *)
(* ===================================================================== *)

(** GET /zones answered 200 with a successful envelope: returned on the
    first attempt. *)
Example zones_at_once :
  summary (makeApiRequestWithRetry Scenario.env
             (Scenario.always (Scenario.respond 200 "OK" Scenario.zones))
             Scenario.query_string Scenario.stringify
             "/zones" Options.empty RetryOptions.empty initial_world)
  = Some (Returned Scenario.zones, 1%nat, [], 1%nat).
Proof. vm_compute. reflexivity. Qed.

(** Status 429 twice, then 200: three calls, two waits of 1000 and 2000
    milliseconds, the last envelope returned. *)
Example rate_limited_twice :
  summary (makeApiRequestWithRetry Scenario.env
             (Scenario.script
                [Scenario.respond 429 "Too Many Requests" Scenario.bare_failure;
                 Scenario.respond 429 "Too Many Requests" Scenario.bare_failure;
                 Scenario.respond 200 "OK" Scenario.no_zones])
             Scenario.query_string Scenario.stringify
             "/zones" Options.empty RetryOptions.empty initial_world)
  = Some (Returned Scenario.no_zones, 3%nat, [1000; 2000], 3%nat).
Proof. vm_compute. reflexivity. Qed.

(** Status 404 on the first call: one call, no wait, and the text shown to
    the user is the not-found one. *)
Example not_found_at_once :
  exists e,
    summary (makeApiRequestWithRetry Scenario.env
               (Scenario.always
                  (Scenario.respond 404 "Not Found" (Scenario.failure 7003 "No route")))
               Scenario.query_string Scenario.stringify
               "/zones" Options.empty RetryOptions.empty initial_world)
    = Some (Thrown (ApiError e), 1%nat, [], 1%nat)
    /\ CloudflareApiError.getUserMessage e = CloudflareApiError.not_found_guidance.
Proof. eexists. split; vm_compute; reflexivity. Qed.

(** Status 200 with [{success: false, errors: [{code: 1003, message:
    'Invalid zone'}]}]: a failure with status 200 whose text names the
    error. *)
Example invalid_zone :
  exists e,
    fst (makeApiRequest Scenario.env
           (Scenario.always
              (Scenario.respond 200 "OK" (Scenario.failure 1003 "Invalid zone")))
           Scenario.query_string Scenario.stringify
           "/zones" Options.empty initial_world)
    = Thrown (ApiError e)
    /\ CloudflareApiError.statusCode e = 200
    /\ includes "Invalid zone" (CloudflareApiError.getUserMessage e) = true.
Proof. eexists. repeat split; vm_compute; reflexivity. Qed.

(** No attempt allowed: no call, and the error made for that case. *)
Example no_attempt_allowed :
  summary (makeApiRequestWithRetry Scenario.env
             (Scenario.always (Scenario.respond 200 "OK" Scenario.zones))
             Scenario.query_string Scenario.stringify
             "/zones" Options.empty
             {| RetryOptions.maxAttempts := Some 0;
                RetryOptions.baseDelay := None;
                RetryOptions.maxDelay := None |}
             initial_world)
  = Some (Thrown (Error "All retry attempts failed"), 0%nat, [], 0%nat).
Proof. vm_compute. reflexivity. Qed.

(** A POST with the empty string for a body is sent with no body; with an
    empty array, the body is its serialisation. *)
Example empty_string_body_is_dropped :
  RequestInit.body
    (request_options Scenario.stringify
       {| apiKey := "token"; accountId := None; email := None |}
       {| Options.method := Some "PUT";
          Options.body := Some (JString EmptyString);
          Options.headers := None;
          Options.queryParams := None |})
  = None
  /\ RequestInit.body
       (request_options Scenario.stringify
          {| apiKey := "token"; accountId := None; email := None |}
          {| Options.method := Some "PUT";
             Options.body := Some (JArray []);
             Options.headers := None;
             Options.queryParams := None |})
     = Some "[]".
Proof. split; reflexivity. Qed.

(* ===================================================================== *)
(** ** The theorems above at concrete inputs                              *)
(* ===================================================================== *)

(** C1 at a 404 with five attempts allowed. *)
Lemma client_error_is_not_retried_witness :
  exists w',
    makeApiRequestWithRetry Scenario.env
      (Scenario.always
         (Scenario.respond 404 "Not Found" (Scenario.failure 7003 "No route")))
      Scenario.query_string Scenario.stringify "/zones" Options.empty
      {| RetryOptions.maxAttempts := Some 5;
         RetryOptions.baseDelay := None;
         RetryOptions.maxDelay := None |}
      initial_world
    = Some (Thrown (ApiError
              {| CloudflareApiError.message := "API request failed: Not Found";
                 CloudflareApiError.statusCode := 404;
                 CloudflareApiError.errors :=
                   [{| StructuredError.code := 7003;
                       StructuredError.message := "No route" |}] |}), w')
    /\ calls w' = 1%nat
    /\ trace w'
       = [] ++ request_events Scenario.env Scenario.query_string Scenario.stringify
                 "/zones" Options.empty
    /\ sleeps (trace w') = []
    /\ (length (fetches (trace w')) <= 1)%nat.
Proof.
  apply (client_error_is_not_retried Scenario.env
           (Scenario.always
              (Scenario.respond 404 "Not Found" (Scenario.failure 7003 "No route")))
           Scenario.query_string Scenario.stringify "/zones" Options.empty
           {| RetryOptions.maxAttempts := Some 5;
              RetryOptions.baseDelay := None;
              RetryOptions.maxDelay := None |}
           initial_world).
  - simpl. lia.
  - vm_compute. reflexivity.
  - simpl. lia.
  - simpl. lia.
Defined.

(** C2 at a run whose three calls end with a 429, a 503 and a refused
    connection. *)
Lemma transient_failures_take_three_attempts_witness :
  exists error w',
    makeApiRequestWithRetry Scenario.env
      (Scenario.script
         [Scenario.respond 429 "Too Many Requests" Scenario.bare_failure;
          Scenario.respond 503 "Service Unavailable" Scenario.bare_failure;
          Rejected "socket hang up"])
      Scenario.query_string Scenario.stringify "/zones" Options.empty
      RetryOptions.empty initial_world
    = Some (Thrown error, w')
    /\ error = Error "Network error: socket hang up"
    /\ calls w' = 3%nat
    /\ sleeps (trace w') = [1000; 2000].
Proof.
  destruct (transient_failures_take_three_attempts Scenario.env
              (Scenario.script
                 [Scenario.respond 429 "Too Many Requests" Scenario.bare_failure;
                  Scenario.respond 503 "Service Unavailable" Scenario.bare_failure;
                  Rejected "socket hang up"])
              Scenario.query_string Scenario.stringify "/zones" Options.empty
              RetryOptions.empty initial_world)
    as (error & w' & Hrun & Hlast & Hcalls & Hsleeps & _).
  - reflexivity.
  - intros i Hi. destruct i as [|[|[|i]]]; [| | |lia].
    + eexists. split; [vm_compute; reflexivity|]. simpl. left. reflexivity.
    + eexists. split; [vm_compute; reflexivity|]. simpl. right. lia.
    + eexists. split; [vm_compute; reflexivity|]. exact I.
  - exists error, w'. split; [exact Hrun|].
    split; [|split; [exact Hcalls | exact Hsleeps]].
    vm_compute in Hlast. congruence.
Defined.

(** C3 at a run that is rate limited twice and then succeeds. *)
Lemma success_ends_the_run_witness :
  exists w',
    makeApiRequestWithRetry Scenario.env
      (Scenario.script
         [Scenario.respond 429 "Too Many Requests" Scenario.bare_failure;
          Scenario.respond 429 "Too Many Requests" Scenario.bare_failure;
          Scenario.respond 200 "OK" Scenario.no_zones])
      Scenario.query_string Scenario.stringify "/zones" Options.empty
      RetryOptions.empty initial_world
    = Some (Returned Scenario.no_zones, w')
    /\ calls w' = 3%nat
    /\ sleeps (trace w') = [1000; 2000].
Proof.
  destruct (success_ends_the_run Scenario.env
              (Scenario.script
                 [Scenario.respond 429 "Too Many Requests" Scenario.bare_failure;
                  Scenario.respond 429 "Too Many Requests" Scenario.bare_failure;
                  Scenario.respond 200 "OK" Scenario.no_zones])
              Scenario.query_string Scenario.stringify "/zones" Options.empty
              RetryOptions.empty initial_world 2 Scenario.no_zones)
    as (w' & Hrun & Hcalls & Hsleeps & _).
  - simpl. lia.
  - intros i Hi. destruct i as [|[|i]]; [| |lia].
    + eexists. split; vm_compute; reflexivity.
    + eexists. split; vm_compute; reflexivity.
  - vm_compute. reflexivity.
  - exists w'. split; [exact Hrun|]. split; [exact Hcalls | exact Hsleeps].
Defined.

(** C4 as amended, at a 404 whose body is an envelope with one error. *)
Lemma error_status_is_classified_witness :
  exists e,
    fst (makeApiRequest Scenario.env
           (Scenario.always
              (Scenario.respond 404 "Not Found" (Scenario.failure 7003 "No route")))
           Scenario.query_string Scenario.stringify
           "/zones" Options.empty initial_world)
    = Thrown (ApiError e)
    /\ CloudflareApiError.statusCode e = 404
    /\ CloudflareApiError.message e = "API request failed: Not Found"
    /\ CloudflareApiError.errors e
       = [{| StructuredError.code := 7003; StructuredError.message := "No route" |}].
Proof.
  destruct (error_status_is_classified Scenario.env
              (Scenario.always
                 (Scenario.respond 404 "Not Found" (Scenario.failure 7003 "No route")))
              Scenario.query_string Scenario.stringify
              "/zones" Options.empty initial_world
              {| apiKey := "token"; accountId := None; email := None |}
              {| Response.status := 404;
                 Response.statusText := "Not Found";
                 Response.json := Parsed (Scenario.failure 7003 "No route") |}
              (Scenario.failure 7003 "No route"))
    as (e & Hrun & Hcode & Hmsg & Herrors & _).
  - vm_compute. reflexivity.
  - reflexivity.
  - simpl. lia.
  - reflexivity.
  - exists e. split; [exact Hrun|]. split; [exact Hcode|]. split; [exact Hmsg|].
    apply Herrors. reflexivity.
Defined.

(** C4 as stated fails: a 502 whose body is an HTML page is a response
    with a status outside 200..299, and [makeApiRequest] throws a plain
    [Error] for it, with no status, where the claim has a
    [CloudflareApiError] with status 502 and no errors. *)
Lemma unparsable_error_body_counterexample :
  Response.status Scenario.bad_gateway_page = 502
  /\ Response.ok Scenario.bad_gateway_page = false
  /\ fst (makeApiRequest Scenario.env
            (Scenario.always (Resolved Scenario.bad_gateway_page))
            Scenario.query_string Scenario.stringify
            "/zones" Options.empty initial_world)
     = Thrown (Error "Network error: Unexpected token < in JSON at position 0")
  /\ ~ (exists e,
          fst (makeApiRequest Scenario.env
                 (Scenario.always (Resolved Scenario.bad_gateway_page))
                 Scenario.query_string Scenario.stringify
                 "/zones" Options.empty initial_world)
          = Thrown (ApiError e)).
Proof.
  split; [reflexivity|]. split; [reflexivity|]. split; [vm_compute; reflexivity|].
  intros [e He]. vm_compute in He. discriminate He.
Qed.

(** C5 at the 200 that carries [{success: false}] and the error 1003. *)
Lemma success_flag_is_checked_witness :
  exists e,
    fst (makeApiRequest Scenario.env
           (Scenario.always
              (Scenario.respond 200 "OK" (Scenario.failure 1003 "Invalid zone")))
           Scenario.query_string Scenario.stringify
           "/zones" Options.empty initial_world)
    = Thrown (ApiError e)
    /\ CloudflareApiError.statusCode e = 200
    /\ CloudflareApiError.message e = "API returned success: false"
    /\ CloudflareApiError.errors e
       = [{| StructuredError.code := 1003;
             StructuredError.message := "Invalid zone" |}].
Proof.
  destruct (success_flag_is_checked Scenario.env
              (Scenario.always
                 (Scenario.respond 200 "OK" (Scenario.failure 1003 "Invalid zone")))
              Scenario.query_string Scenario.stringify
              "/zones" Options.empty initial_world
              {| apiKey := "token"; accountId := None; email := None |}
              {| Response.status := 200;
                 Response.statusText := "OK";
                 Response.json := Parsed (Scenario.failure 1003 "Invalid zone") |}
              (Scenario.failure 1003 "Invalid zone"))
    as [Hfailure _].
  - vm_compute. reflexivity.
  - reflexivity.
  - simpl. lia.
  - reflexivity.
  - destruct Hfailure as (e & Hrun & Hcode & _ & Hmsg & Herrors).
    + simpl. discriminate.
    + exists e. split; [exact Hrun|]. split; [exact Hcode|].
      split; [exact Hmsg | exact Herrors].
Defined.

(** C9 at a network that answers every call with that 200. *)
Lemma application_failure_is_retried_witness :
  exists e w',
    makeApiRequestWithRetry Scenario.env
      (Scenario.always
         (Scenario.respond 200 "OK" (Scenario.failure 1003 "Invalid zone")))
      Scenario.query_string Scenario.stringify "/zones" Options.empty
      RetryOptions.empty initial_world
    = Some (Thrown (ApiError e), w')
    /\ CloudflareApiError.statusCode e = 200
    /\ calls w' = 3%nat
    /\ length (fetches (trace w')) = 3%nat
    /\ sleeps (trace w') = [1000; 2000].
Proof.
  destruct (application_failure_is_retried Scenario.env
              (Scenario.always
                 (Scenario.respond 200 "OK" (Scenario.failure 1003 "Invalid zone")))
              Scenario.query_string Scenario.stringify "/zones" Options.empty
              RetryOptions.empty initial_world
              {| apiKey := "token"; accountId := None; email := None |})
    as (e & w' & Hrun & _ & _ & _ & Hcalls & Hfetches & Hsleeps).
  - simpl. lia.
  - vm_compute. reflexivity.
  - intros i _. eexists. eexists.
    split; [reflexivity|]. split; [simpl; lia|]. split; [reflexivity|].
    simpl. discriminate.
  - exists e, w'. split; [exact Hrun|].
    assert (CloudflareApiError.statusCode e = 200) as Hcode.
    { vm_compute in Hrun. injection Hrun as <- _. reflexivity. }
    split; [exact Hcode|]. split; [exact Hcalls|].
    split; [exact Hfetches | exact Hsleeps].
Defined.

(** X1 at five attempts, a base delay of 100 and a cap of 500 milliseconds,
    on a network that answers every call with a 503. *)
Lemma retried_failures_take_every_attempt_witness :
  exists error w',
    makeApiRequestWithRetry Scenario.env
      (Scenario.always
         (Scenario.respond 503 "Service Unavailable" Scenario.bare_failure))
      Scenario.query_string Scenario.stringify "/zones" Options.empty
      {| RetryOptions.maxAttempts := Some 5;
         RetryOptions.baseDelay := Some 100;
         RetryOptions.maxDelay := Some 500 |}
      initial_world
    = Some (Thrown error, w')
    /\ calls w' = 5%nat
    /\ sleeps (trace w') = [100; 200; 400; 500].
Proof.
  destruct (retried_failures_take_every_attempt Scenario.env
              (Scenario.always
                 (Scenario.respond 503 "Service Unavailable" Scenario.bare_failure))
              Scenario.query_string Scenario.stringify "/zones" Options.empty
              {| RetryOptions.maxAttempts := Some 5;
                 RetryOptions.baseDelay := Some 100;
                 RetryOptions.maxDelay := Some 500 |}
              initial_world)
    as (error & w' & Hrun & _ & Hcalls & Hsleeps & _).
  - simpl. lia.
  - intros i _. eexists. split; [vm_compute; reflexivity|]. reflexivity.
  - exists error, w'. split; [exact Hrun|]. split; [exact Hcalls | exact Hsleeps].
Defined.

(** X5 at the empty environment. *)
Lemma missing_key_is_retried_witness :
  exists w',
    makeApiRequestWithRetry ∅
      (Scenario.always (Scenario.respond 200 "OK" Scenario.zones))
      Scenario.query_string Scenario.stringify "/zones" Options.empty
      RetryOptions.empty initial_world
    = Some (Thrown (Error missing_key_message), w')
    /\ calls w' = 3%nat
    /\ fetches (trace w') = []
    /\ sleeps (trace w') = [1000; 2000].
Proof.
  apply (missing_key_is_retried ∅
           (Scenario.always (Scenario.respond 200 "OK" Scenario.zones))
           Scenario.query_string Scenario.stringify "/zones" Options.empty
           RetryOptions.empty initial_world).
  - simpl. lia.
  - left. reflexivity.
Defined.

(** X6 at a 404 whose body is an HTML page, twice, and then a connection
    that is reset. *)
Lemma unreadable_answers_are_retried_witness :
  exists message w',
    makeApiRequestWithRetry Scenario.env
      (Scenario.script
         [Resolved {| Response.status := 404;
                      Response.statusText := "Not Found";
                      Response.json := SyntaxError "Unexpected token <" |};
          Resolved {| Response.status := 404;
                      Response.statusText := "Not Found";
                      Response.json := SyntaxError "Unexpected token <" |};
          Rejected "read ECONNRESET"])
      Scenario.query_string Scenario.stringify "/zones" Options.empty
      RetryOptions.empty initial_world
    = Some (Thrown (Error ("Network error: " +:+ message)), w')
    /\ calls w' = 3%nat
    /\ length (fetches (trace w')) = 3%nat
    /\ sleeps (trace w') = [1000; 2000].
Proof.
  apply (unreadable_answers_are_retried Scenario.env
           (Scenario.script
              [Resolved {| Response.status := 404;
                           Response.statusText := "Not Found";
                           Response.json := SyntaxError "Unexpected token <" |};
               Resolved {| Response.status := 404;
                           Response.statusText := "Not Found";
                           Response.json := SyntaxError "Unexpected token <" |};
               Rejected "read ECONNRESET"])
           Scenario.query_string Scenario.stringify "/zones" Options.empty
           RetryOptions.empty initial_world
           {| apiKey := "token"; accountId := None; email := None |}).
  - simpl. lia.
  - vm_compute. reflexivity.
  - intros i Hi. destruct i as [|[|[|i]]]; [| | |simpl in Hi; lia].
    + eexists. right. eexists. split; reflexivity.
    + eexists. right. eexists. split; reflexivity.
    + eexists. left. reflexivity.
Defined.

(** X7 at a 429 followed by a 403. *)
Lemma client_error_ends_the_run_witness :
  exists w',
    makeApiRequestWithRetry Scenario.env
      (Scenario.script
         [Scenario.respond 429 "Too Many Requests" Scenario.bare_failure;
          Scenario.respond 403 "Forbidden" Scenario.bare_failure])
      Scenario.query_string Scenario.stringify "/zones" Options.empty
      RetryOptions.empty initial_world
    = Some (Thrown (ApiError
              {| CloudflareApiError.message := "API request failed: Forbidden";
                 CloudflareApiError.statusCode := 403;
                 CloudflareApiError.errors := [] |}), w')
    /\ calls w' = 2%nat
    /\ sleeps (trace w') = [1000].
Proof.
  apply (client_error_ends_the_run Scenario.env
           (Scenario.script
              [Scenario.respond 429 "Too Many Requests" Scenario.bare_failure;
               Scenario.respond 403 "Forbidden" Scenario.bare_failure])
           Scenario.query_string Scenario.stringify "/zones" Options.empty
           RetryOptions.empty initial_world 1).
  - simpl. lia.
  - intros i Hi. destruct i as [|i]; [|lia].
    eexists. split; vm_compute; reflexivity.
  - vm_compute. reflexivity.
  - simpl. lia.
  - simpl. lia.
Defined.

(** X8 at the run that is rate limited twice and then succeeds. *)
Lemma only_success_is_returned_witness :
  Envelope.success Scenario.no_zones = Some true
  /\ (0 < 3)%nat
  /\ exists cfg response,
       loadConfig Scenario.env = Returned cfg
       /\ Scenario.script
            [Scenario.respond 429 "Too Many Requests" Scenario.bare_failure;
             Scenario.respond 429 "Too Many Requests" Scenario.bare_failure;
             Scenario.respond 200 "OK" Scenario.no_zones]
            (3 - 1)%nat
            (request_url Scenario.query_string "/zones" Options.empty)
            (request_options Scenario.stringify cfg Options.empty)
          = Resolved response
       /\ 200 <= Response.status response <= 299
       /\ Response.json response = Parsed Scenario.no_zones.
Proof.
  apply (only_success_is_returned Scenario.env
           (Scenario.script
              [Scenario.respond 429 "Too Many Requests" Scenario.bare_failure;
               Scenario.respond 429 "Too Many Requests" Scenario.bare_failure;
               Scenario.respond 200 "OK" Scenario.no_zones])
           Scenario.query_string Scenario.stringify "/zones" Options.empty
           RetryOptions.empty initial_world Scenario.no_zones
           (after_request Scenario.env Scenario.query_string Scenario.stringify
              "/zones" Options.empty
              (after_retries Scenario.env Scenario.query_string Scenario.stringify
                 3 1000 10000 "/zones" Options.empty 2 1 initial_world))).
  vm_compute. reflexivity.
Defined.

(* ===================================================================== *)
(** ** Regular expressions: [test] decides the language                   *)
(* ===================================================================== *)

Lemma append_nil_inv (s1 s2 : string) :
  s1 +:+ s2 = EmptyString -> s1 = EmptyString /\ s2 = EmptyString.
Proof.
  destruct s1 as [|c s1]; [|discriminate].
  intros H. change (s2 = EmptyString) in H. done.
Qed.

Lemma append_cons_inv (s1 s2 : string) c s :
  s1 +:+ s2 = String c s ->
  (s1 = EmptyString /\ s2 = String c s)
  \/ exists s1', s1 = String c s1' /\ s = s1' +:+ s2.
Proof.
  destruct s1 as [|c1 s1]; intros H.
  - change (s2 = String c s) in H. by left.
  - change (String c1 (s1 +:+ s2) = String c s) in H.
    injection H as -> <-. right. eauto.
Qed.

Lemma lang_nullable r s :
  Regex.lang r s -> s = EmptyString -> Regex.nullable r = true.
Proof.
  induction 1 as [ |accepts c Hc|r1 r2 s1 s2 _ IH1 _ IH2|r1 r2 s _ IH|r1 r2 s _ IH
                 |r|r s1 s2 _ _ _ _]; intros Hs; simpl; try done.
  - apply append_nil_inv in Hs as [-> ->]. by rewrite IH1, IH2.
  - by rewrite IH.
  - rewrite IH by done. apply orb_true_r.
Qed.

Lemma nullable_lang r :
  Regex.nullable r = true -> Regex.lang r EmptyString.
Proof.
  induction r as [ | |accepts|r1 IH1 r2 IH2|r1 IH1 r2 IH2|r IH]; simpl; try done.
  - intros _. constructor.
  - intros [H1 H2]%andb_true_iff.
    change EmptyString with (EmptyString +:+ EmptyString).
    constructor; auto.
  - intros [H|H]%orb_true_iff; [apply Regex.lang_alt_l|apply Regex.lang_alt_r]; auto.
  - intros _. constructor.
Qed.

Lemma derive_lang c r : forall s,
  Regex.lang (Regex.derive c r) s -> Regex.lang r (String c s).
Proof.
  induction r as [ | |accepts|r1 IH1 r2 IH2|r1 IH1 r2 IH2|r IH]; intros s; simpl.
  - inversion 1.
  - inversion 1.
  - destruct (accepts c) eqn:Hc; inversion 1; subst. by constructor.
  - assert (forall s, Regex.lang (Regex.Seq (Regex.derive c r1) r2) s ->
                      Regex.lang (Regex.Seq r1 r2) (String c s)) as Hseq.
    { intros s'. inversion 1 as [ | |? ? s1 s2 H1 H2| | | | ]; subst.
      change (String c (s1 +:+ s2)) with (String c s1 +:+ s2).
      constructor; auto. }
    destruct (Regex.nullable r1) eqn:Hnull; [|apply Hseq].
    inversion 1 as [ | | |? ? ? Hl|? ? ? Hr| | ]; subst; [by apply Hseq|].
    change (String c s) with (EmptyString +:+ String c s).
    constructor; [by apply nullable_lang|auto].
  - inversion 1; subst; [apply Regex.lang_alt_l|apply Regex.lang_alt_r]; auto.
  - inversion 1 as [ | |? ? s1 s2 H1 H2| | | | ]; subst.
    change (String c (s1 +:+ s2)) with (String c s1 +:+ s2).
    constructor; auto.
Qed.

Lemma lang_derive r s' :
  Regex.lang r s' -> forall c s, s' = String c s ->
  Regex.lang (Regex.derive c r) s.
Proof.
  induction 1 as [ |accepts c' Hc|r1 r2 s1 s2 H1 IH1 H2 IH2|r1 r2 s0 _ IH
                 |r1 r2 s0 _ IH|r|r s1 s2 H1 IH1 H2 IH2]; intros c s Hs; simpl.
  - discriminate.
  - injection Hs as -> <-. rewrite Hc. constructor.
  - apply append_cons_inv in Hs as [[-> ->]|(s1' & -> & ->)].
    + rewrite (lang_nullable r1 EmptyString H1 eq_refl).
      apply Regex.lang_alt_r. by apply IH2.
    + assert (Regex.lang (Regex.Seq (Regex.derive c r1) r2) (s1' +:+ s2)) as Hseq.
      { constructor; [by apply IH1|done]. }
      destruct (Regex.nullable r1); [by apply Regex.lang_alt_l|done].
  - apply Regex.lang_alt_l. by apply IH.
  - apply Regex.lang_alt_r. by apply IH.
  - discriminate.
  - apply append_cons_inv in Hs as [[-> ->]|(s1' & -> & ->)].
    + by apply IH2.
    + constructor; [by apply IH1|done].
Qed.

(** [test] is membership in the language. *)
Lemma test_lang r s : Regex.test r s = true <-> Regex.lang r s.
Proof.
  revert r. induction s as [|c s IH]; intros r; simpl.
  - split; [apply nullable_lang|]. intros H. by apply (lang_nullable r EmptyString).
  - rewrite IH. split; [apply derive_lang|]. intros H. by apply (lang_derive r (String c s)).
Qed.

(** The languages of the shapes the validators use. *)
Lemma lang_class_inv accepts s :
  Regex.lang (Regex.Class accepts) s <->
  exists c, s = String c EmptyString /\ accepts c = true.
Proof.
  split.
  - inversion 1; subst. eauto.
  - intros (c & -> & Hc). by constructor.
Qed.

Lemma lang_seq_inv r1 r2 s :
  Regex.lang (Regex.Seq r1 r2) s <->
  exists s1 s2, s = s1 +:+ s2 /\ Regex.lang r1 s1 /\ Regex.lang r2 s2.
Proof.
  split.
  - inversion 1; subst. eauto.
  - intros (s1 & s2 & -> & H1 & H2). by constructor.
Qed.

Lemma lang_star_class accepts s :
  Regex.lang (Regex.Star (Regex.Class accepts)) s <-> all_chars accepts s = true.
Proof.
  split.
  - intros H. remember (Regex.Star (Regex.Class accepts)) as r eqn:Hr.
    induction H as [ | | | | |r'|r' s1 s2 H1 _ H2 IH2]; try discriminate; [done|].
    injection Hr as ->. apply lang_class_inv in H1 as (c & -> & Hc).
    simpl. rewrite Hc. by apply IH2.
  - induction s as [|c s IH]; simpl; [constructor|].
    intros [Hc Hs]%andb_true_iff.
    change (String c s) with (String c EmptyString +:+ s).
    constructor; [by constructor|auto].
Qed.

Lemma all_chars_app accepts s1 s2 :
  all_chars accepts (s1 +:+ s2) = all_chars accepts s1 && all_chars accepts s2.
Proof.
  induction s1 as [|c s1 IH]; [done|].
  change (accepts c && all_chars accepts (s1 +:+ s2)
          = accepts c && all_chars accepts s1 && all_chars accepts s2).
  by rewrite IH, andb_assoc.
Qed.

Lemma all_chars_weaken (p q : ascii -> bool) s :
  (forall c, p c = true -> q c = true) ->
  all_chars p s = true -> all_chars q s = true.
Proof.
  intros Hpq. induction s as [|c s IH]; simpl; [done|].
  intros [Hc Hs]%andb_true_iff. by rewrite (Hpq c Hc), IH.
Qed.


(** [/^[a-zA-Z0-9_-]+$/] *)
Lemma name_pattern_test name :
  Regex.test name_pattern name = true
  <-> name <> EmptyString /\ all_chars name_char name = true.
Proof.
  rewrite test_lang. unfold name_pattern, Regex.Plus.
  rewrite lang_seq_inv. split.
  - intros (s1 & s2 & -> & (c & -> & Hc)%lang_class_inv & Hs%lang_star_class).
    change (String c EmptyString +:+ s2) with (String c s2).
    split; [done|]. simpl. by rewrite Hc, Hs.
  - intros [Hne Hall]. destruct name as [|c s]; [done|].
    simpl in Hall. apply andb_true_iff in Hall as [Hc Hs].
    exists (String c EmptyString), s. split; [done|].
    split; [by apply lang_class_inv; eauto|by apply lang_star_class].
Qed.

(** [/^[a-z0-9][a-z0-9-]*[a-z0-9]$/] *)
Lemma bucket_pattern_test name :
  Regex.test bucket_pattern name = true
  <-> exists first middle last,
        name = String first (middle +:+ String last EmptyString)
        /\ bucket_end_char first = true
        /\ all_chars bucket_char middle = true
        /\ bucket_end_char last = true.
Proof.
  rewrite test_lang. unfold bucket_pattern.
  rewrite lang_seq_inv. split.
  - intros (s1 & s2 & -> & (first & -> & Hfirst)%lang_class_inv
              & (middle & s3 & -> & Hmiddle%lang_star_class
                 & (last & -> & Hlast)%lang_class_inv)%lang_seq_inv).
    by exists first, middle, last.
  - intros (first & middle & last & -> & Hfirst & Hmiddle & Hlast).
    exists (String first EmptyString), (middle +:+ String last EmptyString).
    split; [done|]. split; [by apply lang_class_inv; eauto|].
    apply lang_seq_inv. exists middle, (String last EmptyString).
    split; [done|]. split; [by apply lang_star_class|by apply lang_class_inv; eauto].
Qed.

(** [/^[A-Za-z_][A-Za-z0-9_]*$/] *)
Lemma secret_pattern_test name :
  Regex.test secret_pattern name = true
  <-> exists first rest,
        name = String first rest
        /\ secret_start_char first = true
        /\ all_chars secret_char rest = true.
Proof.
  rewrite test_lang. unfold secret_pattern.
  rewrite lang_seq_inv. split.
  - intros (s1 & s2 & -> & (first & -> & Hfirst)%lang_class_inv & Hrest%lang_star_class).
    by exists first, s2.
  - intros (first & rest & -> & Hfirst & Hrest).
    exists (String first EmptyString), rest.
    split; [done|]. split; [by apply lang_class_inv; eauto|by apply lang_star_class].
Qed.

(* ===================================================================== *)
(** ** The validators of names                                            *)
(* ===================================================================== *)

Lemma validateWorkerName_test name :
  validateWorkerName name = Returned tt <-> Regex.test name_pattern name = true.
Proof.
  unfold validateWorkerName. by destruct (Regex.test name_pattern name).
Qed.

Lemma validateNamespaceName_test name :
  validateNamespaceName name = Returned tt <-> Regex.test name_pattern name = true.
Proof.
  unfold validateNamespaceName. by destruct (Regex.test name_pattern name).
Qed.

Lemma validateSecretName_test name :
  validateSecretName name = Returned tt <-> Regex.test secret_pattern name = true.
Proof.
  unfold validateSecretName. by destruct (Regex.test secret_pattern name).
Qed.

Lemma validateBucketName_test name :
  validateBucketName name = Returned tt
  <-> Regex.test bucket_pattern name = true
      /\ (3 <= String.length name <= 63)%nat.
Proof.
  unfold validateBucketName.
  destruct (Regex.test bucket_pattern name); simpl; [|by split; [|intros [? _]]].
  destruct (Nat.ltb_spec (String.length name) 3); simpl; [split; [done|lia]|].
  destruct (Nat.ltb_spec 63 (String.length name)); simpl; [split; [done|lia]|].
  split; [intros _; split; [done|lia]|done].
Qed.

(** X10. [validateWorkerName] and [validateNamespaceName] accept the same
    names: the strings that are not empty and are made of ASCII letters,
    digits, underscores and hyphens; every other string makes them throw. *)
Theorem worker_and_namespace_names name :
  (validateWorkerName name = Returned tt
   <-> name <> EmptyString /\ all_chars name_char name = true)
  /\ (validateNamespaceName name = Returned tt
      <-> validateWorkerName name = Returned tt)
  /\ (validateWorkerName name <> Returned tt ->
        exists message, validateWorkerName name = Thrown (Error message))
  /\ (validateNamespaceName name <> Returned tt ->
        exists message, validateNamespaceName name = Thrown (Error message)).
Proof.
  split; [|split; [|split]].
  - by rewrite validateWorkerName_test, name_pattern_test.
  - by rewrite validateWorkerName_test, validateNamespaceName_test.
  - unfold validateWorkerName. destruct (Regex.test name_pattern name); simpl; eauto.
    by intros [].
  - unfold validateNamespaceName. destruct (Regex.test name_pattern name); simpl; eauto.
    by intros [].
Qed.

(** X11. [validateBucketName] accepts exactly the names of 3 to 63
    characters that begin and end with a lower-case letter or a digit and
    have only lower-case letters, digits and hyphens between; hyphens may
    follow one another. *)
Theorem bucket_names name :
  validateBucketName name = Returned tt
  <-> (3 <= String.length name <= 63)%nat
      /\ exists first middle last,
           name = String first (middle +:+ String last EmptyString)
           /\ bucket_end_char first = true
           /\ all_chars bucket_char middle = true
           /\ bucket_end_char last = true.
Proof.
  rewrite validateBucketName_test, bucket_pattern_test. tauto.
Qed.

(** X12. [validateSecretName] accepts exactly the names that begin with an
    ASCII letter or an underscore and go on with letters, digits and
    underscores: a leading digit and a hyphen are refused. *)
Theorem secret_names name :
  (validateSecretName name = Returned tt
   <-> exists first rest,
         name = String first rest
         /\ secret_start_char first = true
         /\ all_chars secret_char rest = true)
  /\ (forall digit rest,
        between "0"%char "9"%char digit = true ->
        validateSecretName (String digit rest) <> Returned tt)
  /\ (forall before after,
        validateSecretName (before +:+ String "-"%char after) <> Returned tt).
Proof.
  assert (validateSecretName name = Returned tt
          <-> exists first rest,
                name = String first rest
                /\ secret_start_char first = true
                /\ all_chars secret_char rest = true) as Hiff.
  { by rewrite validateSecretName_test, secret_pattern_test. }
  split; [exact Hiff|]. split.
  - intros digit rest Hdigit.
    rewrite validateSecretName_test, secret_pattern_test.
    intros (first & rest' & [= <- <-] & Hfirst & _).
    revert Hdigit Hfirst.
    destruct digit as [[] [] [] [] [] [] [] []]; vm_compute; congruence.
  - intros before after.
    rewrite validateSecretName_test, secret_pattern_test.
    intros (first & rest & Hname & Hfirst & Hrest).
    assert (all_chars secret_char (before +:+ String "-"%char after) = true) as Hall.
    { rewrite Hname. simpl. rewrite Hrest, andb_true_r.
      revert Hfirst. unfold secret_start_char, secret_char.
      destruct (between "A" "Z" first), (between "a" "z" first); simpl; try done.
      intros ->. apply orb_true_r. }
    rewrite all_chars_app in Hall. apply andb_true_iff in Hall as [_ Hall].
    change (secret_char "-"%char && all_chars secret_char after = true) in Hall.
    apply andb_true_iff in Hall as [Hdash _].
    vm_compute in Hdash. discriminate.
Qed.

(** The characters of a name that passes never cut a URL. *)
Lemma name_char_is_url_safe c :
  name_char c = true ->
  c <> "/"%char /\ c <> "?"%char /\ c <> "#"%char /\ c <> "%"%char
  /\ c <> "."%char /\ c <> " "%char /\ c <> "&"%char /\ c <> "="%char.
Proof.
  destruct c as [[] [] [] [] [] [] [] []]; vm_compute; intros H;
    repeat split; congruence.
Qed.

Lemma bucket_char_is_name_char c : bucket_char c = true -> name_char c = true.
Proof.
  unfold bucket_char, name_char.
  destruct (between "a" "z" c), (between "A" "Z" c), (between "0" "9" c),
    (Ascii.eqb c "_"), (Ascii.eqb c "-"); done.
Qed.

Lemma bucket_end_char_is_bucket_char c :
  bucket_end_char c = true -> bucket_char c = true.
Proof.
  unfold bucket_end_char, bucket_char.
  destruct (between "a" "z" c), (between "0" "9" c), (Ascii.eqb c "-"); done.
Qed.

Lemma secret_char_is_name_char c : secret_char c = true -> name_char c = true.
Proof.
  unfold secret_char, name_char.
  destruct (between "a" "z" c), (between "A" "Z" c), (between "0" "9" c),
    (Ascii.eqb c "_"), (Ascii.eqb c "-"); done.
Qed.

Lemma secret_start_char_is_secret_char c :
  secret_start_char c = true -> secret_char c = true.
Proof.
  unfold secret_start_char, secret_char.
  destruct (between "a" "z" c), (between "A" "Z" c), (between "0" "9" c),
    (Ascii.eqb c "_"); done.
Qed.

(** X13. A name that passes the validator of buckets, of secrets or of
    namespaces also passes [validateWorkerName]; and a name that passes any
    of the four has none of the characters [/ ? # % . & =] and no space, so
    it stays one segment of the path of the URL it is put into. *)
Theorem accepted_names_are_worker_names name :
  validateBucketName name = Returned tt
  \/ validateSecretName name = Returned tt
  \/ validateNamespaceName name = Returned tt
  \/ validateWorkerName name = Returned tt ->
  validateWorkerName name = Returned tt
  /\ all_chars
       (fun c => negb (Ascii.eqb c "/"%char || Ascii.eqb c "?"%char
                       || Ascii.eqb c "#"%char || Ascii.eqb c "%"%char
                       || Ascii.eqb c "."%char || Ascii.eqb c " "%char
                       || Ascii.eqb c "&"%char || Ascii.eqb c "="%char))
       name = true.
Proof.
  intros Haccepted.
  assert (validateWorkerName name = Returned tt) as Hworker.
  { rewrite validateWorkerName_test, name_pattern_test.
    destruct Haccepted as [Hb|[Hs|[Hn|Hw]]].
    - apply validateBucketName_test in Hb as [Hb _].
      apply bucket_pattern_test in Hb
        as (first & middle & last & -> & Hfirst & Hmiddle & Hlast).
      split; [done|]. simpl.
      rewrite (bucket_char_is_name_char first)
        by by apply bucket_end_char_is_bucket_char.
      rewrite all_chars_app. simpl.
      rewrite (all_chars_weaken bucket_char name_char middle
                 bucket_char_is_name_char Hmiddle).
      by rewrite (bucket_char_is_name_char last)
        by by apply bucket_end_char_is_bucket_char.
    - apply validateSecretName_test, secret_pattern_test in Hs
        as (first & rest & -> & Hfirst & Hrest).
      split; [done|]. simpl.
      rewrite (secret_char_is_name_char first)
        by by apply secret_start_char_is_secret_char.
      by rewrite (all_chars_weaken secret_char name_char rest
                    secret_char_is_name_char Hrest).
    - by apply validateNamespaceName_test, name_pattern_test in Hn.
    - by apply validateWorkerName_test, name_pattern_test in Hw. }
  split; [done|].
  apply validateWorkerName_test, name_pattern_test in Hworker as [_ Hall].
  apply (all_chars_weaken name_char); [|done].
  intros c Hc. apply name_char_is_url_safe in Hc
    as (H1 & H2 & H3 & H4 & H5 & H6 & H7 & H8).
  apply negb_true_iff. repeat (apply orb_false_iff; split);
    by apply Ascii.eqb_neq.
Qed.

(** X13 at a bucket name. *)
Lemma accepted_names_are_worker_names_witness :
  validateWorkerName "media-assets-2024" = Returned tt
  /\ all_chars
       (fun c => negb (Ascii.eqb c "/"%char || Ascii.eqb c "?"%char
                       || Ascii.eqb c "#"%char || Ascii.eqb c "%"%char
                       || Ascii.eqb c "."%char || Ascii.eqb c " "%char
                       || Ascii.eqb c "&"%char || Ascii.eqb c "="%char))
       "media-assets-2024" = true.
Proof.
  apply (accepted_names_are_worker_names "media-assets-2024").
  left. vm_compute. reflexivity.
Defined.

(** Names the validators accept and refuse, run. *)
Example validators_run :
  validateWorkerName "api_handler_v2" = Returned tt
  /\ validateWorkerName "my worker" <> Returned tt
  /\ validateWorkerName EmptyString <> Returned tt
  /\ validateBucketName "my-bucket" = Returned tt
  /\ validateBucketName "a--b" = Returned tt
  /\ validateBucketName "ab" <> Returned tt
  /\ validateBucketName "-ab" <> Returned tt
  /\ validateBucketName "My-Bucket" <> Returned tt
  /\ validateSecretName "DATABASE_URL" = Returned tt
  /\ validateSecretName "2FA_KEY" <> Returned tt.
Proof. repeat split; vm_compute; congruence. Qed.

(* ===================================================================== *)
(** ** [parseArgs]                                                        *)
(* ===================================================================== *)

(** The loop steps by one argument or by two: an induction to match. *)
Lemma parse_rest_ind (P : list string -> Prop) :
  P [] ->
  (forall arg rest,
     P rest -> (forall next rest', rest = next :: rest' -> P rest') ->
     P (arg :: rest)) ->
  forall rest, P rest.
Proof.
  intros Hnil Hcons rest.
  assert (P rest /\ match rest with [] => True | _ :: rest' => P rest' end)
    as [H _]; [|done].
  induction rest as [|arg rest [IH1 IH2]]; [done|].
  split; [|done]. apply Hcons; [done|].
  intros next rest' ->. exact IH2.
Qed.

Lemma prefix_cons a s1 b s2 :
  String.prefix (String a s1) (String b s2)
  = if Ascii.ascii_dec a b then String.prefix s1 s2 else false.
Proof. reflexivity. Qed.

Lemma prefix_empty s : String.prefix EmptyString s = true.
Proof. by destruct s. Qed.

Lemma prefix_two_dashes arg :
  String.prefix "--" arg = true -> String.prefix "-" arg = true.
Proof.
  destruct arg as [|c arg]; [done|]. rewrite !prefix_cons.
  destruct (Ascii.ascii_dec "-" c); [|done].
  intros _. apply prefix_empty.
Qed.

(** An argument that starts with two dashes is the two dashes and the name
    of the flag. *)
Lemma long_flag_name arg :
  String.prefix "--" arg = true -> arg = "--" +:+ slice_from 2 arg.
Proof.
  destruct arg as [|c1 [|c2 arg]]; [done| |]; rewrite !prefix_cons.
  - by destruct (Ascii.ascii_dec "-" c1).
  - destruct (Ascii.ascii_dec "-" c1) as [<-|]; [|done].
    by destruct (Ascii.ascii_dec "-" c2) as [<-|].
Qed.

Lemma set_flag_lookup flagName value flags name :
  set_flag flagName value flags !! name
  = if decide (flagName = name /\ flagName <> "__proto__") then Some value
    else flags !! name.
Proof.
  unfold set_flag. destruct (String.eqb_spec flagName "__proto__") as [->|Hne].
  - by destruct (decide _) as [[_ ?]|_].
  - destruct (decide _) as [[-> _]|Hno].
    + by rewrite lookup_insert_eq.
    + rewrite lookup_insert_ne; [done|]. intros ->. by apply Hno.
Qed.

(** Without an argument that starts with a dash, every argument is
    positional. *)
Lemma parse_rest_plain rest : forall args flags,
  Forall (fun arg => String.prefix "-" arg = false) rest ->
  parse_rest rest args flags = (args ++ rest, flags).
Proof.
  induction rest as [|arg rest IH]; intros args flags Hplain; simpl.
  - by rewrite app_nil_r.
  - apply Forall_cons in Hplain as [Harg Hrest].
    destruct (String.prefix "--" arg) eqn:Hlong.
    { apply prefix_two_dashes in Hlong. congruence. }
    rewrite Harg, IH by done. by rewrite <- app_assoc.
Qed.

(** The positional arguments keep their order and never start with a
    dash. *)
Lemma parse_rest_args rest : forall args flags,
  exists positional,
    fst (parse_rest rest args flags) = args ++ positional
    /\ sublist positional
         (List.filter (fun arg => negb (String.prefix "-" arg)) rest).
Proof.
  induction rest as [|arg rest IH1 IH2] using parse_rest_ind;
    intros args flags.
  - exists []. split; [by rewrite app_nil_r|constructor].
  - simpl. destruct (String.prefix "--" arg) eqn:Hlong.
    + rewrite (prefix_two_dashes arg Hlong). simpl.
      destruct rest as [|next rest']; [apply IH1|].
      destruct (negb (String.eqb next EmptyString)
                && negb (String.prefix "-" next)) eqn:Hvalue; [|apply IH1].
      apply andb_true_iff in Hvalue as [_ Hnext].
      destruct (IH2 next rest' eq_refl args
                  (set_flag (slice_from 2 arg) (FlagValue next) flags))
        as (positional & Heq & Hsub).
      exists positional. split; [done|].
      simpl. rewrite Hnext. by constructor.
    + destruct (String.prefix "-" arg) eqn:Hshort; simpl; [apply IH1|].
      destruct (IH1 (args ++ [arg]) flags) as (positional & Heq & Hsub).
      exists (arg :: positional). split.
      * rewrite Heq. by rewrite <- app_assoc.
      * by constructor.
Qed.

(** X14. The positional arguments of [parseArgs] are arguments after the
    command that do not start with a dash, in their order; when no
    argument after the command starts with a dash, they are all of them and
    there is no flag; and the command is the third entry of [argv], if
    there is one. *)
Theorem positional_arguments argv :
  let parsed := parseArgs argv in
  ParsedArgs.command parsed = argv !! 2%nat
  /\ sublist (ParsedArgs.args parsed)
       (List.filter (fun arg => negb (String.prefix "-" arg)) (drop 3 argv))
  /\ (Forall (fun arg => String.prefix "-" arg = false) (drop 3 argv) ->
        ParsedArgs.args parsed = drop 3 argv
        /\ ParsedArgs.flags parsed = ∅).
Proof.
  intros parsed. subst parsed. unfold parseArgs. simpl.
  split; [done|]. split.
  - destruct (parse_rest_args (drop 3 argv) [] ∅) as (positional & Heq & Hsub).
    by rewrite Heq.
  - intros Hplain. by rewrite parse_rest_plain.
Qed.

(** The values of flags come from the arguments. *)
Lemma parse_rest_values rest : forall args flags name value,
  snd (parse_rest rest args flags) !! name = Some (FlagValue value) ->
  flags !! name = Some (FlagValue value)
  \/ (value <> EmptyString /\ String.prefix "-" value = false
      /\ exists before after,
           rest = before ++ ("--" +:+ name) :: value :: after).
Proof.
  induction rest as [|arg rest IH1 IH2] using parse_rest_ind;
    intros args flags name value; [by left|].
  assert (forall flagName,
            snd (parse_rest rest args (set_flag flagName FlagOn flags)) !! name
            = Some (FlagValue value) ->
            flags !! name = Some (FlagValue value)
            \/ (value <> EmptyString /\ String.prefix "-" value = false
                /\ exists before after,
                     arg :: rest = before ++ ("--" +:+ name) :: value :: after))
    as Hon.
  { intros flagName Hlookup.
    apply IH1 in Hlookup as [Hflags|(Hne & Hdash & before & after & ->)].
    - rewrite set_flag_lookup in Hflags. destruct (decide _); [done|by left].
    - right. split; [done|]. split; [done|]. by exists (arg :: before), after. }
  simpl. destruct (String.prefix "--" arg) eqn:Hlong.
  - destruct rest as [|next rest']; [apply Hon|].
    destruct (negb (String.eqb next EmptyString)
              && negb (String.prefix "-" next)) eqn:Hvalue; [|apply Hon].
    apply andb_true_iff in Hvalue as [Hne Hnext].
    intros Hlookup.
    apply (IH2 next rest' eq_refl) in Hlookup
      as [Hflags|(Hne' & Hdash & before & after & ->)].
    + rewrite set_flag_lookup in Hflags.
      destruct (decide _) as [[<- _]|_]; [|by left].
      injection Hflags as <-. right.
      split; [by destruct (String.eqb_spec next EmptyString)|].
      split; [by apply negb_true_iff|].
      exists [], rest'. simpl. f_equal. by apply long_flag_name.
    + right. split; [done|]. split; [done|].
      by exists (arg :: next :: before), after.
  - destruct (String.prefix "-" arg) eqn:Hshort; [apply Hon|].
    intros Hlookup.
    apply IH1 in Hlookup as [Hflags|(Hne & Hdash & before & after & ->)];
      [by left|].
    right. split; [done|]. split; [done|]. by exists (arg :: before), after.
Qed.

(** X15. A flag has a value only when the argument that names it with two
    dashes is followed by an argument that is not empty and does not start
    with a dash: that argument is the value. An argument that starts with
    a dash, a negative number for one, is never taken as a value. *)
Theorem flag_values_come_after_their_flag argv name value :
  ParsedArgs.flags (parseArgs argv) !! name = Some (FlagValue value) ->
  value <> EmptyString
  /\ String.prefix "-" value = false
  /\ exists before after,
       drop 3 argv = before ++ ("--" +:+ name) :: value :: after.
Proof.
  unfold parseArgs. simpl. intros Hlookup.
  by apply parse_rest_values in Hlookup as [Hempty|Hvalue].
Qed.

(** X15 at a command line with a flag and its value. *)
Lemma flag_values_come_after_their_flag_witness :
  "50" <> EmptyString
  /\ String.prefix "-" "50" = false
  /\ exists before after,
       drop 3 ["node"; "kv-storage.js"; "list-keys"; "ns1"; "--limit"; "50"]
       = before ++ ("--" +:+ "limit") :: "50" :: after.
Proof.
  apply (flag_values_come_after_their_flag
           ["node"; "kv-storage.js"; "list-keys"; "ns1"; "--limit"; "50"]).
  vm_compute. reflexivity.
Defined.

Lemma short_flag_name arg :
  String.prefix "-" arg = true -> arg = "-" +:+ slice_from 1 arg.
Proof.
  destruct arg as [|c arg]; [done|]. rewrite prefix_cons.
  by destruct (Ascii.ascii_dec "-" c) as [<-|].
Qed.

(** A flag, once set, stays set. *)
Lemma parse_rest_keeps_flags rest : forall args flags name,
  is_Some (flags !! name) ->
  is_Some (snd (parse_rest rest args flags) !! name).
Proof.
  induction rest as [|arg rest IH1 IH2] using parse_rest_ind;
    intros args flags name Hset; [done|].
  assert (forall flagName value,
            is_Some (set_flag flagName value flags !! name)) as Hkept.
  { intros flagName value. rewrite set_flag_lookup. by destruct (decide _). }
  simpl. destruct (String.prefix "--" arg).
  - destruct rest as [|next rest']; [by apply IH1|].
    destruct (negb (String.eqb next EmptyString) && negb (String.prefix "-" next)).
    + by apply (IH2 next rest' eq_refl).
    + by apply IH1.
  - destruct (String.prefix "-" arg); by apply IH1.
Qed.

(** Every argument that starts with a dash sets its flag. *)
Lemma parse_rest_sets_flags rest : forall args flags arg,
  arg ∈ rest -> String.prefix "-" arg = true ->
  flag_name_of arg <> "__proto__" ->
  is_Some (snd (parse_rest rest args flags) !! flag_name_of arg).
Proof.
  induction rest as [|first rest IH1 IH2] using parse_rest_ind;
    intros args flags arg Hin Hdash Hname; [by apply elem_of_nil in Hin|].
  assert (forall value, first = arg ->
            is_Some (set_flag (flag_name_of first) value flags !! flag_name_of arg))
    as Hhere.
  { intros value ->. rewrite set_flag_lookup.
    destruct (decide _) as [_|Hno]; [done|]. by destruct Hno. }
  apply elem_of_cons in Hin as [Heq|Hin].
  - subst first. simpl. unfold flag_name_of in Hhere |- *.
    destruct (String.prefix "--" arg) eqn:Hlong.
    + destruct rest as [|next rest'];
        [by apply parse_rest_keeps_flags, Hhere|].
      destruct (negb (String.eqb next EmptyString) && negb (String.prefix "-" next));
        by apply parse_rest_keeps_flags, Hhere.
    + rewrite Hdash. by apply parse_rest_keeps_flags, Hhere.
  - simpl. destruct (String.prefix "--" first).
    + destruct rest as [|next rest']; [by apply IH1|].
      destruct (negb (String.eqb next EmptyString)
                && negb (String.prefix "-" next)) eqn:Hvalue; [|by apply IH1].
      apply andb_true_iff in Hvalue as [_ Hnext%negb_true_iff].
      apply elem_of_cons in Hin as [Heq|Hin]; [congruence|].
      by apply (IH2 next rest' eq_refl).
    + destruct (String.prefix "-" first); by apply IH1.
Qed.

(** Every flag comes from an argument that starts with a dash. *)
Lemma parse_rest_flags_named rest : forall args flags name,
  is_Some (snd (parse_rest rest args flags) !! name) ->
  is_Some (flags !! name)
  \/ (name <> "__proto__"
      /\ exists arg, arg ∈ rest /\ String.prefix "-" arg = true
                     /\ flag_name_of arg = name).
Proof.
  induction rest as [|first rest IH1 IH2] using parse_rest_ind;
    intros args flags name Hset; [by left|].
  assert (forall (rest' : list string) value,
            (forall arg, arg ∈ rest' -> arg ∈ first :: rest) ->
            String.prefix "-" first = true ->
            (is_Some (set_flag (flag_name_of first) value flags !! name)
             \/ (name <> "__proto__"
                 /\ exists arg, arg ∈ rest' /\ String.prefix "-" arg = true
                                /\ flag_name_of arg = name)) ->
            is_Some (flags !! name)
            \/ (name <> "__proto__"
                /\ exists arg, arg ∈ first :: rest /\ String.prefix "-" arg = true
                               /\ flag_name_of arg = name)) as Hstep.
  { intros rest' value Hsub Hdash [Hhere|(Hne & arg & Hin & Harg & Heq)].
    - rewrite set_flag_lookup in Hhere.
      destruct (decide _) as [[Heq Hne]|_]; [|by left].
      right. split; [congruence|]. exists first.
      split; [by apply elem_of_cons; left|done].
    - right. split; [done|]. exists arg. split; [by apply Hsub|done]. }
  simpl in Hset. unfold flag_name_of in Hstep at 1.
  destruct (String.prefix "--" first) eqn:Hlong.
  - pose proof (prefix_two_dashes first Hlong) as Hdash.
    destruct rest as [|next rest'].
    { apply IH1 in Hset. apply (Hstep [] FlagOn); [|done|done].
      intros arg Hin. by apply elem_of_nil in Hin. }
    destruct (negb (String.eqb next EmptyString) && negb (String.prefix "-" next)).
    + apply (IH2 next rest' eq_refl) in Hset.
      apply (Hstep rest' (FlagValue next)); [|done|done].
      intros arg Hin. by do 2 (apply elem_of_cons; right).
    + apply IH1 in Hset. apply (Hstep (next :: rest') FlagOn); [|done|done].
      intros arg Hin. by apply elem_of_cons; right.
  - destruct (String.prefix "-" first) eqn:Hdash.
    + apply IH1 in Hset. apply (Hstep rest FlagOn); [|done|done].
      intros arg Hin. by apply elem_of_cons; right.
    + apply IH1 in Hset as [Hflags|(Hne & arg & Hin & Harg & Heq)]; [by left|].
      right. split; [done|]. exists arg.
      split; [by apply elem_of_cons; right|done].
Qed.

(** X16. The flags of [parseArgs] are exactly the names of the arguments
    after the command that start with a dash, two dashes or one taken off:
    no such argument is lost or read as a value or as a positional
    argument. The one name that cannot be a flag is [__proto__]. *)
Theorem flags_are_the_dashed_arguments argv name :
  is_Some (ParsedArgs.flags (parseArgs argv) !! name)
  <-> name <> "__proto__"
      /\ exists arg,
           arg ∈ drop 3 argv
           /\ (arg = "--" +:+ name
               \/ (arg = "-" +:+ name /\ String.prefix "--" arg = false)).
Proof.
  unfold parseArgs. simpl. split.
  - intros Hset. apply parse_rest_flags_named in Hset
      as [Hempty|(Hne & arg & Hin & Hdash & Hname)].
    { rewrite lookup_empty in Hempty. by destruct Hempty. }
    split; [done|]. exists arg. split; [done|].
    unfold flag_name_of in Hname.
    destruct (String.prefix "--" arg) eqn:Hlong.
    + left. rewrite <- Hname. by apply long_flag_name.
    + right. split; [|done]. rewrite <- Hname. by apply short_flag_name.
  - intros (Hne & arg & Hin & Hshape).
    assert (String.prefix "-" arg = true /\ flag_name_of arg = name) as [Hdash Hname].
    { unfold flag_name_of. destruct Hshape as [->|[-> Hlong]].
      - change ("--" +:+ name) with (String "-"%char (String "-"%char name)).
        rewrite !prefix_cons.
        destruct (Ascii.ascii_dec "-" "-") as [_|Hno]; [|by destruct Hno].
        rewrite !prefix_empty. split; reflexivity.
      - rewrite Hlong.
        change ("-" +:+ name) with (String "-"%char name).
        rewrite prefix_cons.
        destruct (Ascii.ascii_dec "-" "-") as [_|Hno]; [|by destruct Hno].
        rewrite prefix_empty. split; reflexivity. }
    rewrite <- Hname. apply parse_rest_sets_flags; [done|done|by rewrite Hname].
Qed.

(** Command lines, parsed. *)
Example parseArgs_run :
  let parsed :=
    parseArgs ["node"; "dns.js"; "create"; "example.com"; "A"; "--ttl"; "300";
               "--proxied"; "-v"; "www"; "--offset"; "-5"] in
  ParsedArgs.command parsed = Some "create"
  /\ ParsedArgs.args parsed = ["example.com"; "A"; "www"]
  /\ ParsedArgs.flags parsed !! "ttl" = Some (FlagValue "300")
  /\ ParsedArgs.flags parsed !! "proxied" = Some FlagOn
  /\ ParsedArgs.flags parsed !! "v" = Some FlagOn
  /\ ParsedArgs.flags parsed !! "offset" = Some FlagOn
  /\ ParsedArgs.flags parsed !! "5" = Some FlagOn.
Proof. repeat split; vm_compute; reflexivity. Qed.

(* ===================================================================== *)
(** ** [loadEnvFile]                                                      *)
(* ===================================================================== *)

(** One line: a name that is defined keeps its value, and a name that is
    not gets the value of the line when the line sets it. *)
Lemma load_env_line_lookup env line name :
  load_env_line env line !! name
  = match env !! name with
    | Some value => Some value
    | None =>
        match parse_env_line line with
        | Some (key, value) =>
            if String.eqb key name && negb (String.eqb name EmptyString)
            then Some value else None
        | None => None
        end
    end.
Proof.
  unfold load_env_line, env_assign.
  destruct (parse_env_line line) as [[key value]|]; [|by destruct (env !! name)].
  destruct (String.eqb_spec key name) as [->|Hne]; simpl.
  - destruct (env !! name) as [old|] eqn:Hold; [by rewrite Hold|].
    destruct (String.eqb_spec name EmptyString) as [->|Hname]; simpl; [done|].
    by rewrite lookup_insert_eq.
  - destruct (env !! key) as [old|] eqn:Hold; [by destruct (env !! name)|].
    destruct (String.eqb_spec key EmptyString) as [->|Hkey];
      [by destruct (env !! name)|].
    rewrite lookup_insert_ne by done. by destruct (env !! name).
Qed.

Lemma load_env_lines_lookup lines : forall env name,
  fold_left load_env_line lines env !! name
  = match env !! name with
    | Some value => Some value
    | None =>
        if String.eqb name EmptyString then None
        else first_assignment lines name
    end.
Proof.
  induction lines as [|line lines IH]; intros env name; simpl.
  - destruct (env !! name); [done|]. by destruct (String.eqb name EmptyString).
  - rewrite IH, load_env_line_lookup.
    destruct (env !! name) as [old|]; [done|].
    destruct (parse_env_line line) as [[key value]|]; [|done].
    destruct (String.eqb key name); simpl; [|done].
    by destruct (String.eqb name EmptyString).
Qed.



(** X18. Loading a file a second time changes nothing. *)
Theorem loadEnvFile_idempotent read filePath env :
  loadEnvFile read filePath (loadEnvFile read filePath env)
  = loadEnvFile read filePath env.
Proof.
  apply map_eq. intros name.
  unfold loadEnvFile, load_env_content.
  destruct (read filePath) as [content|]; [|done].
  rewrite !load_env_lines_lookup.
  destruct (env !! name) as [old|]; [done|].
  destruct (String.eqb name EmptyString); [done|].
  by destruct (first_assignment (split_lines content) name).
Qed.


(** *** A line [KEY="value"] *)

























(** Files, loaded. *)
Example loadEnvFile_run :
  let content :=
    "# Cloudflare" +:+ nl +:+
    "  CLOUDFLARE_API_KEY = abc  " +:+ nl +:+
    nl +:+
    "CLOUDFLARE_ACCOUNT_ID='acc 1'   " +:+ nl +:+
    "CLOUDFLARE_API_KEY=later" +:+ nl +:+
    "not a setting" +:+ nl +:+
    "NOTE=a # b" in
  load_env_content content {[ "CLOUDFLARE_ACCOUNT_ID" := "from-env" ]}
  = {[ "CLOUDFLARE_ACCOUNT_ID" := "from-env";
       "CLOUDFLARE_API_KEY" := "abc";
       "NOTE" := "a # b" ]}.
Proof. vm_compute. reflexivity. Qed.

(* ===================================================================== *)
(** ** The account and the commands on secrets, on concrete runs          *)
(* ===================================================================== *)

(** X21 with the account in the environment: the network is not asked. *)
Lemma configured_account_needs_no_call_witness :
  getAccountId SecretsScenario.env (Scenario.always (Rejected "connect ECONNREFUSED"))
    Scenario.query_string Scenario.stringify SecretsScenario.ToString
    initial_session
  = (Returned (Some (JString "acc1")), initial_session).
Proof.
  apply (configured_account_needs_no_call SecretsScenario.env
           (Scenario.always (Rejected "connect ECONNREFUSED"))
           Scenario.query_string Scenario.stringify SecretsScenario.ToString
           "token" "acc1" initial_session).
  - vm_compute. reflexivity.
  - discriminate.
  - vm_compute. reflexivity.
  - discriminate.
Defined.


(** X23 on a refused connection: one call, no wait, nothing written. *)
Lemma auto_detection_is_one_call_witness :
  exists s',
    s' = snd (getAccountId Scenario.env
                (Scenario.always (Rejected "connect ECONNREFUSED"))
                Scenario.query_string Scenario.stringify SecretsScenario.ToString
                initial_session)
    /\ core s'
       = after_request Scenario.env Scenario.query_string Scenario.stringify
           "/accounts" Options.empty (core initial_session)
    /\ calls (core s') = 1%nat
    /\ sleeps (trace (core s')) = sleeps (trace (core initial_session))
    /\ (length (stdout s') <= S (length (stdout initial_session)))%nat.
Proof.
  eexists. split; [reflexivity|].
  apply (auto_detection_is_one_call Scenario.env
           (Scenario.always (Rejected "connect ECONNREFUSED"))
           Scenario.query_string Scenario.stringify SecretsScenario.ToString
           "token" initial_session).
  - vm_compute. reflexivity.
  - discriminate.
  - left. vm_compute. reflexivity.
Defined.

(** X24 on a list of two accounts: the first is taken. *)
Lemma first_account_is_chosen_witness :
  getAccountId Scenario.env
    (Scenario.always (Scenario.respond 200 "OK" SecretsScenario.accounts))
    Scenario.query_string Scenario.stringify SecretsScenario.ToString
    initial_session
  = (Returned (Some (JString "a1")),
     {| core := after_request Scenario.env Scenario.query_string Scenario.stringify
                  "/accounts" Options.empty (core initial_session);
        stdout := ["Auto-detected Account ID: a1 (Main)"] |}).
Proof.
  apply (first_account_is_chosen Scenario.env
           (Scenario.always (Scenario.respond 200 "OK" SecretsScenario.accounts))
           Scenario.query_string Scenario.stringify SecretsScenario.ToString
           "token" initial_session SecretsScenario.accounts
           [("id", JString "a1"); ("name", JString "Main")]
           [JObject [("id", JString "a2"); ("name", JString "Other")]]
           "a1" "Main").
  - vm_compute. reflexivity.
  - discriminate.
  - left. vm_compute. reflexivity.
  - vm_compute. reflexivity.
  - reflexivity.
  - reflexivity.
  - reflexivity.
Defined.

(** X25 at a worker name with a space in it. *)
Lemma invalid_names_cost_no_request_witness :
  exists message,
    putSecret SecretsScenario.env (Scenario.always (Rejected "connect ECONNREFUSED"))
      Scenario.query_string Scenario.stringify SecretsScenario.ToString
      "my worker" "API_KEY" "sk-123456" initial_session
    = Some (Returned false, printError ("Error: " +:+ message) initial_session)
    /\ deleteSecret SecretsScenario.env (Scenario.always (Rejected "connect ECONNREFUSED"))
         Scenario.query_string Scenario.stringify SecretsScenario.ToString
         "my worker" "API_KEY" initial_session
       = Some (Returned false, printError ("Error: " +:+ message) initial_session).
Proof.
  apply (invalid_names_cost_no_request SecretsScenario.env
           (Scenario.always (Rejected "connect ECONNREFUSED"))
           Scenario.query_string Scenario.stringify SecretsScenario.ToString
           "my worker" "API_KEY" "sk-123456" initial_session).
  left. vm_compute. reflexivity.
Defined.

(** X28 at a 404 on the detection of the account: no hint about the
    worker, the text of the auto-detection instead. *)
Lemma failed_detection_ends_the_command_witness :
  exists s',
    s' = printError
           ("Error: " +:+ auto_detect_failure "API request failed: Not Found")
           {| core := after_request Scenario.env Scenario.query_string
                        Scenario.stringify "/accounts" Options.empty
                        (core initial_session);
              stdout := [] |}
    /\ putSecret Scenario.env
         (Scenario.always (Scenario.respond 404 "Not Found" Scenario.bare_failure))
         Scenario.query_string Scenario.stringify SecretsScenario.ToString
         "my-worker" "API_KEY" "sk-123456" initial_session
       = Some (Returned false, s')
    /\ deleteSecret Scenario.env
         (Scenario.always (Scenario.respond 404 "Not Found" Scenario.bare_failure))
         Scenario.query_string Scenario.stringify SecretsScenario.ToString
         "my-worker" "API_KEY" initial_session
       = Some (Returned false, s').
Proof.
  eexists. split; [reflexivity|].
  apply (failed_detection_ends_the_command Scenario.env
           (Scenario.always (Scenario.respond 404 "Not Found" Scenario.bare_failure))
           Scenario.query_string Scenario.stringify SecretsScenario.ToString
           "my-worker" "API_KEY" "sk-123456" "token" initial_session
           (ApiError {| CloudflareApiError.message := "API request failed: Not Found";
                        CloudflareApiError.statusCode := 404;
                        CloudflareApiError.errors := [] |})).
  - vm_compute. reflexivity.
  - vm_compute. reflexivity.
  - vm_compute. reflexivity.
  - discriminate.
  - left. vm_compute. reflexivity.
  - vm_compute. reflexivity.
Defined.


(** Runs of the commands against a network that accepts everything: the
    account is detected, then the secret is set with one request. *)
Example putSecret_run :
  match putSecret Scenario.env
          (Scenario.always (Scenario.respond 200 "OK" SecretsScenario.accounts))
          Scenario.query_string Scenario.stringify SecretsScenario.ToString
          "my-worker" "API_KEY" "sk-123456" initial_session with
  | Some (r, s') =>
      r = Returned true
      /\ calls (core s') = 2%nat
      /\ map fst (fetches (trace (core s')))
         = ["https://api.cloudflare.com/client/v4/accounts";
            "https://api.cloudflare.com/client/v4/accounts/a1/workers/scripts/my-worker/secrets"]
      /\ map (fun request => (RequestInit.method (snd request), RequestInit.body (snd request)))
           (fetches (trace (core s')))
         = [("GET", None);
            ("PUT", Some ("{" +:+ dq +:+ "name" +:+ dq +:+ ":" +:+ dq +:+ "API_KEY" +:+ dq +:+ "," +:+
                          dq +:+ "text" +:+ dq +:+ ":" +:+ dq +:+ "sk-123456" +:+ dq +:+ "," +:+
                          dq +:+ "type" +:+ dq +:+ ":" +:+ dq +:+ "secret_text" +:+ dq +:+ "}"))]
      /\ length (stdout s') = 6%nat
  | None => False
  end.
Proof. vm_compute. repeat split; reflexivity. Qed.

(** A bulk run over a valid name, an invalid one and a value that cannot
    be made a string: one secret set, two failed, two calls. *)
Example bulkPutSecrets_run :
  match bulkPutSecrets SecretsScenario.env
          (Scenario.always (Scenario.respond 200 "OK" Scenario.no_zones))
          Scenario.query_string Scenario.stringify SecretsScenario.ToString
          "my-worker"
          [("API_KEY", Some (JNumber 42));
           ("not valid", Some (JString "x"));
           ("OTHER", Some (JObject [("toString", JNull)]))]
          initial_session with
  | Some (r, s') =>
      r = Returned {| successCount := 1; failCount := 2 |}
      /\ calls (core s') = 1%nat
      /\ map (fun request => RequestInit.body (snd request)) (fetches (trace (core s')))
         = [Some ("{" +:+ dq +:+ "name" +:+ dq +:+ ":" +:+ dq +:+ "API_KEY" +:+ dq +:+ "," +:+
                  dq +:+ "text" +:+ dq +:+ ":" +:+ dq +:+ "42" +:+ dq +:+ "," +:+
                  dq +:+ "type" +:+ dq +:+ ":" +:+ dq +:+ "secret_text" +:+ dq +:+ "}")]
  | None => False
  end.
Proof. vm_compute. repeat split; reflexivity. Qed.
